(** * createGltf: from a Mesh to a glTF 2.0 asset description

    A shallow embedding of [samples-generator/lib/createGltf.js]:
    the helper [getMinMax] and the function [createGltf] itself, with the
    JavaScript run-time errors the source raises made explicit. *)

From Stdlib Require Import QArith.
From stdpp Require Import base list strings gmap pretty.

Close Scope Q_scope.
Local Open Scope string_scope.
Local Open Scope list_scope.
Local Open Scope nat_scope.

(** ** JavaScript numbers

    [Math.min] and [Math.max] only compare and select, they never round, so
    a finite double is modelled by the rational it denotes (the two signed
    zeros are identified).  The remaining numbers are the two infinities
    and [NaN]; [undefined] converts to [NaN] when it is used as a number. *)

Inductive Number : Type :=
  | NaN
  | NegInf
  | Fin (q : Q)
  | PosInf.

Definition POSITIVE_INFINITY : Number := PosInf.
Definition NEGATIVE_INFINITY : Number := NegInf.

(** [x <= y] on numbers that are not [NaN]. *)
Definition Number_leb (x y : Number) : bool :=
  match x, y with
  | NaN, _ | _, NaN => false
  | NegInf, _ => true
  | _, PosInf => true
  | Fin p, Fin q => Qle_bool p q
  | _, _ => false
  end.

(** The JavaScript relational operator [x < y]: [false] as soon as one
    side is [NaN]. *)
Definition Number_ltb (x y : Number) : bool :=
  match x, y with
  | NaN, _ | _, NaN => false
  | _, _ => negb (Number_leb y x)
  end.

(** The JavaScript [x === y] on numbers. *)
Definition Number_eqb (x y : Number) : bool :=
  Number_leb x y && Number_leb y x.

Definition Math_min (x y : Number) : Number :=
  match x, y with
  | NaN, _ | _, NaN => NaN
  | _, _ => if Number_leb x y then x else y
  end.

Definition Math_max (x y : Number) : Number :=
  match x, y with
  | NaN, _ | _, NaN => NaN
  | _, _ => if Number_leb x y then y else x
  end.

(** [Cesium.defaultValue(a, b)]: [b] when [a] is [undefined]. *)
Definition defaultValue {A : Type} (a : option A) (b : A) : A :=
  match a with
  | Some x => x
  | None => b
  end.

(** [array[index]] used as a number: a read outside the array yields
    [undefined], which [Math.min] and [Math.max] convert to [NaN]. *)
Definition array_get (array : list Number) (index : nat) : Number :=
  default NaN (array !! index).

(** [new Array(n).fill(x)]. *)
Definition Array_fill (n : nat) (x : Number) : list Number := replicate n x.

(** ** getMinMax *)

Module MinMax.
Record t : Type := mk {
  min : list Number;
  max : list Number
}.
End MinMax.

(** One pass of the body of the inner loop, at tuple [i], component [j]. *)
Definition getMinMax_component (array : list Number) (components start : nat)
    (i : nat) (mm : MinMax.t) (j : nat) : MinMax.t :=
  let index := start + i * components + j in
  let value := array_get array index in
  {| MinMax.min := <[j := Math_min (array_get (MinMax.min mm) j) value]> (MinMax.min mm);
     MinMax.max := <[j := Math_max (array_get (MinMax.max mm) j) value]> (MinMax.max mm) |}.

(** The inner loop [for (var j = 0; j < components; ++j)]. *)
Definition getMinMax_tuple (array : list Number) (components start : nat)
    (i : nat) (mm : MinMax.t) : MinMax.t :=
  foldl (getMinMax_component array components start i) mm (seq 0 components).

(** The tuples [i], [i + 1], ..., [i + k - 1] in turn. *)
Definition getMinMax_tuples (array : list Number) (components start : nat)
    (i k : nat) (mm : MinMax.t) : MinMax.t :=
  foldl (fun mm i => getMinMax_tuple array components start i mm) mm (seq i k).

(** The outer loop [for (var i = 0; i < count; ++i)] with
    [count = length / components], a division of doubles: [i < count]
    holds exactly when [i * components < length] (for [components = 0]
    the quotient is [Infinity], or [NaN] when [length] is [0] too).
    [None] when the fuel runs out. *)
Fixpoint getMinMax_loop (array : list Number) (components start length : nat)
    (fuel : nat) (i : nat) (mm : MinMax.t) : option MinMax.t :=
  match fuel with
  | O => None
  | S fuel' =>
      if i * components <? length
      then getMinMax_loop array components start length fuel' (S i)
             (getMinMax_tuple array components start i mm)
      else Some mm
  end.

(** [getMinMax(array, components, start, length)].  The loop is given
    [length + 1] units of fuel, which is enough whenever it terminates;
    the result is [None] exactly when the source loops forever. *)
Definition getMinMax (array : list Number) (components : nat)
    (start length : option nat) : option MinMax.t :=
  let start := defaultValue start 0 in
  let length := defaultValue length (List.length array) in
  let min := Array_fill components POSITIVE_INFINITY in
  let max := Array_fill components NEGATIVE_INFINITY in
  getMinMax_loop array components start length (S length) 0 (MinMax.mk min max).

(** The double that is the integer [z]. *)
Definition num (z : Z) : Number := Fin (inject_Z z).

(** ** Outcomes of a JavaScript computation

    A computation returns a value, throws (the line of the source that
    throws is kept with the error), or does not terminate. *)

Inductive Error : Type :=
  | ReferenceError (name : string)
  | TypeError (message : string)
  | RangeError (code : string) (received : Number).

Inductive Outcome (A : Type) : Type :=
  | Return (a : A)
  | Throw (line : nat) (e : Error)
  | Diverge.
Arguments Return {A} a.
Arguments Throw {A} line e.
Arguments Diverge {A}.

#[export] Instance Outcome_ret : MRet Outcome := fun A a => Return a.
#[export] Instance Outcome_bind : MBind Outcome := fun A B f m =>
  match m with
  | Return a => f a
  | Throw line e => Throw line e
  | Diverge => Diverge
  end.

#[export] Instance Outcome_fmap : FMap Outcome := fun A B f m =>
  match m with
  | Return a => Return (f a)
  | Throw line e => Throw line e
  | Diverge => Diverge
  end.

(** Reading an identifier that was never declared. *)
Definition undeclared {A : Type} (line : nat) (name : string) : Outcome A :=
  Throw line (ReferenceError (name +:+ " is not defined")).

(** Reading a property of a local that may still be [undefined]. *)
Definition property_of {A : Type} (line : nat) (name : string) (o : option A)
    : Outcome A :=
  match o with
  | Some a => Return a
  | None => Throw line (TypeError ("Cannot read property of undefined: " +:+ name))
  end.

(** A call of [getMinMax]: it returns or loops forever. *)
Definition call_getMinMax (r : option MinMax.t) : Outcome MinMax.t :=
  match r with
  | Some mm => Return mm
  | None => Diverge
  end.

(** [for (i = 0; i < n; ++i) body], the body threading a state. *)
Fixpoint for_loop {S : Type} (body : nat -> S -> Outcome S) (i n : nat) (s : S)
    : Outcome S :=
  match n with
  | O => Return s
  | Datatypes.S n' => s' ← body i s; for_loop body (Datatypes.S i) n' s'
  end.

(** ** Node buffers

    A byte of a buffer is kept symbolically: a literal fill byte, or the
    [k]-th byte of the little-endian encoding of a number that one of the
    [write...] methods stored.  Every loop of the source writes inside
    the buffer it has just allocated, so that no offset is out of
    bounds; an integer write throws a [RangeError] (of code
    [ERR_OUT_OF_RANGE], carrying the value received) when the value is
    above the maximum or below the minimum of its component type, as
    Node's buffer module does, and [writeFloatLE] has no such test. *)

Inductive Byte : Type :=
  | Raw (b : nat)
  | FloatLE (value : Number) (k : nat)
  | UInt16LE (value : Number) (k : nat)
  | UInt8 (value : Number).

Definition sizeOfUint8 : nat := 1.
Definition sizeOfUint16 : nat := 2.
Definition sizeOfFloat32 : nat := 4.

(** [Buffer.alloc(size, fill)], [fill] being [0] when it is not given. *)
Definition Buffer_alloc (size : nat) (fill : nat) : list Byte :=
  replicate size (Raw fill).

Definition writeFloatLE (buf : list Byte) (value : Number) (offset : nat) : list Byte :=
  list_inserts offset (FloatLE value <$> seq 0 sizeOfFloat32) buf.

(** [value > max || value < min], the test of the integer writes;
    [NaN] passes it. *)
Definition out_of_range (min max : Z) (value : Number) : bool :=
  Number_ltb (num max) value || Number_ltb value (num min).

(** [buf.writeUInt16LE(value, offset)], called at [line]. *)
Definition writeUInt16LE (line : nat) (buf : list Byte) (value : Number) (offset : nat)
    : Outcome (list Byte) :=
  if out_of_range 0 65535 value
  then Throw line (RangeError "ERR_OUT_OF_RANGE" value)
  else Return (list_inserts offset (UInt16LE value <$> seq 0 sizeOfUint16) buf).

(** [buf.writeUInt8(value, offset)], called at [line]. *)
Definition writeUInt8 (line : nat) (buf : list Byte) (value : Number) (offset : nat)
    : Outcome (list Byte) :=
  if out_of_range 0 255 value
  then Throw line (RangeError "ERR_OUT_OF_RANGE" value)
  else Return (<[offset := UInt8 value]> buf).

Definition Buffer_concat (bufs : list (list Byte)) : list Byte := concat bufs.

(** [prefix + buffer.toString('base64')]: the encoded text is kept as the
    bytes it encodes. *)
Inductive DataUri : Type :=
  | base64_uri (prefix : string) (payload : list Byte).

(** ** The mesh (input) *)

(** [material.baseColor]: a texture URI (a string) or an RGBA array. *)
Inductive BaseColor : Type :=
  | TextureUri (uri : string)
  | Rgba (color : list Number).

Module Material.
Record t : Type := mk { baseColor : BaseColor }.
End Material.

Module View.
Record t : Type := mk {
  material : Material.t;
  indexOffset : nat;
  indexCount : nat
}.
End View.

Module Mesh.
Record t : Type := mk {
  positions : list Number;
  normals : list Number;
  uvs : list Number;
  vertexColors : list Number;
  batchIds : list Number;
  indices : list Number;
  views : list View.t
}.
End Mesh.

Module Cartesian3.
Record t : Type := mk { x : Number; y : Number; z : Number }.
(** [Cartesian3.pack(value, new Array(3))]. *)
Definition pack (value : t) : list Number := [x value; y value; z value].
End Cartesian3.

(** Modelled from the spec: the methods of the class [Mesh] that
    [createGltf] calls; the class is defined in another file of the
    repository, so what the methods compute is a parameter.  [getCenter]
    is the "center-computation", [getVertexCount] the "vertex-count
    accessor", and [setPositionsRelativeToCenter] the "recenter in place"
    mutation: it overwrites the elements of the array [mesh.positions],
    given here as the new contents of that array, and touches nothing
    else. *)
Class MeshMethods : Type := {
  getCenter : Mesh.t -> Cartesian3.t;
  setPositionsRelativeToCenter : Mesh.t -> list Number;
  getVertexCount : Mesh.t -> nat
}.

(** The mesh after [mesh.setPositionsRelativeToCenter()] has run. *)
Definition Mesh_recentered `{MeshMethods} (mesh : Mesh.t) : Mesh.t :=
  Mesh.mk (setPositionsRelativeToCenter mesh) (Mesh.normals mesh) (Mesh.uvs mesh)
          (Mesh.vertexColors mesh) (Mesh.batchIds mesh) (Mesh.indices mesh)
          (Mesh.views mesh).

(** ** The options *)

Module Options.
Record t : Type := mk {
  useBatchIds : option bool;
  relativeToCenter : option bool;
  quantization : option bool;
  deprecated : option bool;
  textureCompressionOptions : option (list (list (string * string)));
  upAxis : option string
}.
End Options.

(** ** The glTF asset description (output) *)

Module Accessor.
Record t : Type := mk {
  bufferView : nat;
  byteOffset : nat;
  byteStride : option nat;
  componentType : N;
  count : nat;
  type : string;
  min : list Number;
  max : list Number;
  name : option string;
  normalized : option bool
}.
End Accessor.

Module BufferView.
Record t : Type := mk {
  buffer : nat;
  byteLength : nat;
  byteOffset : nat;
  target : N
}.
End BufferView.

Module Image.
Record t : Type := mk { uri : string }.
End Image.

Module Sampler.
Record t : Type := mk {
  magFilter : N;
  minFilter : N;
  wrapS : N;
  wrapT : N
}.
End Sampler.

Module Texture.
Record t : Type := mk { sampler : nat; source : nat }.
End Texture.

Module PbrMetallicRoughness.
Record t : Type := mk {
  baseColorFactor : list Number;
  baseColorTexture : option string
}.
End PbrMetallicRoughness.

Module GltfMaterial.
Record t : Type := mk {
  pbrMetallicRoughness : PbrMetallicRoughness.t;
  alphaMode : string;
  doubleSided : bool
}.
End GltfMaterial.

Module Primitive.
Record t : Type := mk {
  attributes : gmap string nat;
  indices : nat;
  material : nat;
  mode : N
}.
End Primitive.

Module Asset.
Record t : Type := mk { generator : string; version : string }.
End Asset.

Module GltfBuffer.
Record t : Type := mk { byteLength : nat; uri : DataUri }.
End GltfBuffer.

Module GltfMesh.
Record t : Type := mk { primitives : list Primitive.t }.
End GltfMesh.

Module Node.
Record t : Type := mk {
  matrix : option (list Number);
  mesh : nat;
  name : string
}.
End Node.

Module Scene.
Record t : Type := mk { nodes : list nat }.
End Scene.

Module Extensions.
Record t : Type := mk { CESIUM_RTC_center : list Number }.
End Extensions.

Module Gltf.
Record t : Type := mk {
  accessors : gmap string Accessor.t;
  asset : Asset.t;
  buffers : list GltfBuffer.t;
  bufferViews : list BufferView.t;
  images : option (list Image.t);
  materials : gmap string GltfMaterial.t;
  meshes : list GltfMesh.t;
  nodes : list Node.t;
  samplers : option (list Sampler.t);
  scene : nat;
  scenes : list Scene.t;
  textures : option (list Texture.t);
  extensionsUsed : option (list string);
  extensions : option Extensions.t
}.
End Gltf.

(** ** JavaScript objects and arrays as the source uses them *)

(** [o.push(x)] on a plain object ([{}] has no method [push]): the call
    throws before anything is stored. *)
Definition object_push {A : Type} (line : nat) (name : string)
    (o : gmap string A) (x : A) : Outcome (gmap string A) :=
  Throw line (TypeError (name +:+ ".push is not a function")).

(** An array that also carries named properties
    ([vertexAccessors.accessor_vertexColor = ...]). *)
Module JsArray.
Record t (A : Type) : Type := mk {
  elements : list A;
  properties : gmap string A
}.
Arguments mk {A} elements properties.
Arguments elements {A} _.
Arguments properties {A} _.
Definition push {A : Type} (a : t A) (x : A) : t A :=
  mk (elements a ++ [x]) (properties a).
Definition set {A : Type} (a : t A) (key : string) (x : A) : t A :=
  mk (elements a) (<[key := x]> (properties a)).
(** The own enumerable properties: the indices, then the named ones. *)
Definition own {A : Type} (a : t A) : gmap string A :=
  list_to_map (imap (fun i x => (pretty i, x)) (elements a)) ∪ properties a.
End JsArray.

(** [Cesium.combine(object1, object2)], shallow: the properties of both,
    those of [object1] taking precedence. *)
Definition combine {A : Type} (object1 object2 : gmap string A) : gmap string A :=
  object1 ∪ object2.

(** ** createGltf *)

(** Lines 63-72: the root matrix; it stays [undefined] when [upAxis] is
    neither ['Y'] nor ['Z']. *)
Definition rootMatrixFor (upAxis : string) : option (list Number) :=
  if String.eqb upAxis "Y" then
    Some [num 1; num 0; num 0; num 0; num 0; num 0; num (-1); num 0;
          num 0; num 1; num 0; num 0; num 0; num 0; num 0; num 1]
  else if String.eqb upAxis "Z" then
    Some [num 1; num 0; num 0; num 0; num 0; num 1; num 0; num 0;
          num 0; num 0; num 1; num 0; num 0; num 0; num 0; num 1]
  else None.

(** Line 54: [!vertexColors.every(function(element) {return element === 0;})]. *)
Definition hasVertexColorsOf (vertexColors : list Number) : bool :=
  negb (forallb (fun element => Number_eqb element (num 0)) vertexColors).

(** Lines 75-123: the encoded attribute streams. *)
Module Encoded.
Record t : Type := mk {
  positionMinMax : MinMax.t;
  positionBuffer : list Byte;
  normalsMinMax : MinMax.t;
  normalBuffer : list Byte;
  uvsMinMax : MinMax.t;
  uvBuffer : list Byte;
  vertexColorsMinMax : option MinMax.t;
  vertexColorBuffer : list Byte;
  batchIdsMinMax : option MinMax.t;
  batchIdBuffer : list Byte;
  indexBuffer : list Byte
}.
End Encoded.

Definition encodeAttributes (mesh : Mesh.t) (hasVertexColors useBatchIds : bool)
    : Outcome Encoded.t :=
  let positions := Mesh.positions mesh in
  let normals := Mesh.normals mesh in
  let uvs := Mesh.uvs mesh in
  let vertexColors := Mesh.vertexColors mesh in
  let batchIds := Mesh.batchIds mesh in
  let indices := Mesh.indices mesh in
  positionMinMax ← call_getMinMax (getMinMax positions 3 None None);
  let positionLength := List.length positions in
  positionBuffer ←
    for_loop (fun i buf =>
                position ← undeclared 79 "position";
                mret (writeFloatLE buf (array_get position i) (i * sizeOfFloat32)))
             0 positionLength (Buffer_alloc (positionLength * sizeOfFloat32) 0);
  normalsMinMax ← call_getMinMax (getMinMax normals 3 None None);
  let normalsLength := List.length normals in
  let normalBuffer :=
    foldl (fun buf i => writeFloatLE buf (array_get normals i) (i * sizeOfFloat32))
          (Buffer_alloc (normalsLength * sizeOfFloat32) 0) (seq 0 normalsLength) in
  uvsMinMax ← call_getMinMax (getMinMax uvs 2 None None);
  let uvsLength := List.length uvs in
  let uvBuffer :=
    foldl (fun buf i => writeFloatLE buf (array_get uvs i) (i * sizeOfFloat32))
          (Buffer_alloc (uvsLength * sizeOfFloat32) 0) (seq 0 uvsLength) in
  vertexColorsMinMax ←
    (if hasVertexColors
     then Some <$> call_getMinMax (getMinMax vertexColors 4 None None)
     else Return None);
  let vertexColorsLength := List.length vertexColors in
  vertexColorBuffer ←
    (if hasVertexColors
     then for_loop (fun i buf => writeUInt8 103 buf (array_get vertexColors i) i)
                   0 vertexColorsLength (Buffer_alloc vertexColorsLength sizeOfUint8)
     else Return (Buffer_alloc 0 0));
  batchIdsMinMax ←
    (if useBatchIds
     then Some <$> call_getMinMax (getMinMax batchIds 1 None None)
     else Return None);
  let batchIdsLength := List.length batchIds in
  batchIdBuffer ←
    (if useBatchIds
     then for_loop (fun i buf =>
                      writeUInt16LE 115 buf (array_get batchIds i) (i * sizeOfUint16))
                   0 batchIdsLength (Buffer_alloc (batchIdsLength * sizeOfUint16) 0)
     else Return (Buffer_alloc 0 0));
  let indicesLength := List.length indices in
  indexBuffer ←
    for_loop (fun i buf =>
                writeUInt16LE 122 buf (array_get indices i) (i * sizeOfUint16))
             0 indicesLength (Buffer_alloc (indicesLength * sizeOfUint16) 0);
  mret (Encoded.mk positionMinMax positionBuffer normalsMinMax normalBuffer
                   uvsMinMax uvBuffer vertexColorsMinMax vertexColorBuffer
                   batchIdsMinMax batchIdBuffer indexBuffer).

(** Lines 127-159: the buffer, the buffer view indices, the byte offsets. *)
Module Layout.
Record t : Type := mk {
  buffer : list Byte;
  bufferUri : DataUri;
  byteLength : nat;
  positionBufferViewIndex : nat;
  normalBufferViewIndex : nat;
  uvBufferViewIndex : nat;
  vertexColorBufferViewIndex : nat;
  batchIdBufferViewIndex : nat;
  indexBufferViewIndex : nat;
  positionBufferByteOffset : nat;
  normalBufferByteOffset : nat;
  uvBufferByteOffset : nat;
  vertexColorBufferByteOffset : nat;
  batchIdBufferByteOffset : nat;
  indexBufferByteOffset : nat
}.
End Layout.

Definition layoutOf (enc : Encoded.t) (hasVertexColors useBatchIds : bool) : Layout.t :=
  let positionBuffer := Encoded.positionBuffer enc in
  let normalBuffer := Encoded.normalBuffer enc in
  let uvBuffer := Encoded.uvBuffer enc in
  let vertexColorBuffer := Encoded.vertexColorBuffer enc in
  let batchIdBuffer := Encoded.batchIdBuffer enc in
  let indexBuffer := Encoded.indexBuffer enc in
  let buffer := Buffer_concat [positionBuffer; normalBuffer; uvBuffer;
                               vertexColorBuffer; batchIdBuffer; indexBuffer] in
  let bufferUri := base64_uri "data:application/octet-stream;base64," buffer in
  let byteLength := List.length buffer in
  let bufferViewIndex := 0 in
  let positionBufferViewIndex := bufferViewIndex in
  let bufferViewIndex := bufferViewIndex + 1 in
  let normalBufferViewIndex := bufferViewIndex in
  let bufferViewIndex := bufferViewIndex + 1 in
  let uvBufferViewIndex := bufferViewIndex in
  let bufferViewIndex := bufferViewIndex + 1 in
  let vertexColorBufferViewIndex := if hasVertexColors then bufferViewIndex else 0 in
  let bufferViewIndex := if hasVertexColors then bufferViewIndex + 1 else bufferViewIndex in
  let batchIdBufferViewIndex := if useBatchIds then bufferViewIndex else 0 in
  let bufferViewIndex := if useBatchIds then bufferViewIndex + 1 else bufferViewIndex in
  let indexBufferViewIndex := bufferViewIndex in
  let byteOffset := 0 in
  let positionBufferByteOffset := byteOffset in
  let byteOffset := byteOffset + List.length positionBuffer in
  let normalBufferByteOffset := byteOffset in
  let byteOffset := byteOffset + List.length normalBuffer in
  let uvBufferByteOffset := byteOffset in
  let byteOffset := byteOffset + List.length uvBuffer in
  let vertexColorBufferByteOffset := byteOffset in
  let byteOffset := byteOffset + (if hasVertexColors then List.length vertexColorBuffer else 0) in
  let batchIdBufferByteOffset := byteOffset in
  let byteOffset := byteOffset + (if useBatchIds then List.length batchIdBuffer else 0) in
  let indexBufferByteOffset := byteOffset in
  Layout.mk buffer bufferUri byteLength
            positionBufferViewIndex normalBufferViewIndex uvBufferViewIndex
            vertexColorBufferViewIndex batchIdBufferViewIndex indexBufferViewIndex
            positionBufferByteOffset normalBufferByteOffset uvBufferByteOffset
            vertexColorBufferByteOffset batchIdBufferByteOffset indexBufferByteOffset.

(** Lines 131-137: the locals that the loop over the views updates; and
    [baseColorTexture], which line 178 declares in the body of the loop
    without a value: a [var] belongs to the function, so that a pass
    that does not assign it finds the value of the pass before. *)
Module ViewsState.
Record t : Type := mk {
  indexAccessors : gmap string Accessor.t;
  materials : gmap string GltfMaterial.t;
  primitives : list Primitive.t;
  images : option (list Image.t);
  samplers : option (list Sampler.t);
  textures : option (list Texture.t);
  baseColorTexture : option string
}.
Definition init : t := mk ∅ ∅ [] None None None None.
End ViewsState.

(** Lines 166-174: the index accessor built for one view. *)
Definition indexAccessorOf (lay : Layout.t) (view : View.t) (indicesMinMax : MinMax.t)
    : Accessor.t :=
  {| Accessor.bufferView := Layout.indexBufferViewIndex lay;
     Accessor.byteOffset := sizeOfUint16 * View.indexOffset view;
     Accessor.byteStride := None;
     Accessor.componentType := 5123%N;
     Accessor.count := View.indexCount view;
     Accessor.type := "SCALAR";
     Accessor.min := MinMax.min indicesMinMax;
     Accessor.max := MinMax.max indicesMinMax;
     Accessor.name := None;
     Accessor.normalized := None |}.

(** Lines 185-190: the sampler shared by the textures. *)
Definition defaultSampler : Sampler.t :=
  {| Sampler.magFilter := 9729%N; Sampler.minFilter := 9729%N;
     Sampler.wrapS := 10497%N; Sampler.wrapT := 10497%N |}.

(** Lines 217-229: the attributes of a primitive. *)
Definition attributesOf (lay : Layout.t) (hasVertexColors useBatchIds : bool)
    (batchIdSemantic : string) : gmap string nat :=
  let attributes : gmap string nat :=
    <["TEXCOORD_0" := Layout.uvBufferViewIndex lay]>
      (<["NORMAL" := Layout.normalBufferViewIndex lay]>
         (<["POSITION" := Layout.positionBufferViewIndex lay]> ∅)) in
  let attributes :=
    if hasVertexColors
    then <["COLOR_0" := Layout.vertexColorBufferViewIndex lay]> attributes
    else attributes in
  let attributes :=
    if useBatchIds
    then <[batchIdSemantic := Layout.batchIdBufferViewIndex lay]> attributes
    else attributes in
  attributes.

(** Lines 176-203: the base color of a view.  A texture (a string) opens
    the arrays of images, textures and samplers when they are still
    [undefined], and gets one image and one texture; a flat color is
    transparent when its alpha is below 1, and leaves [baseColorTexture]
    as the pass before left it. *)
Definition baseColorStep (st : ViewsState.t) (baseColor : BaseColor)
    : Outcome (list Number * option string * bool * option (list Image.t)
               * option (list Sampler.t) * option (list Texture.t)) :=
  match baseColor with
  | TextureUri uri =>
      let '(images, textures, samplers) :=
        match ViewsState.images st with
        | None => (Some [], Some [], Some [defaultSampler])
        | Some _ => (ViewsState.images st, ViewsState.textures st, ViewsState.samplers st)
        end in
      images ← property_of 194 "images" images;
      let images := images ++ [Image.mk uri] in
      textures ← property_of 197 "textures" textures;
      let textures := textures ++ [Texture.mk 0 (List.length images - 1)] in
      mret ([num 1; num 1; num 1; num 1], Some uri, false,
            Some images, samplers, Some textures)
  | Rgba color =>
      mret (color, ViewsState.baseColorTexture st,
            Number_ltb (array_get color 3) (num 1),
            ViewsState.images st, ViewsState.samplers st, ViewsState.textures st)
  end.

(** Lines 165-235: what the pass of the loop for the view [i] adds for
    it, once its indices have been measured: an index accessor, a
    material, a primitive. *)
Definition viewEntries (lay : Layout.t) (hasVertexColors useBatchIds : bool)
    (batchIdSemantic : string) (i : nat) (st : ViewsState.t)
    (view : View.t) (indicesMinMax : MinMax.t) : Outcome ViewsState.t :=
  let material := View.material view in
  indexAccessors ← object_push 166 "indexAccessors" (ViewsState.indexAccessors st)
    (indexAccessorOf lay view indicesMinMax);
  let baseColor := Material.baseColor material in
  '(baseColorFactor, baseColorTexture, transparent, images, samplers, textures) ←
    baseColorStep st baseColor;
  let doubleSided := transparent : bool in
  let alphaMode := if transparent then "BLEND" else "OPAQUE" in
  materials ← object_push 208 "materials" (ViewsState.materials st)
    {| GltfMaterial.pbrMetallicRoughness :=
         {| PbrMetallicRoughness.baseColorFactor := baseColorFactor;
            PbrMetallicRoughness.baseColorTexture := baseColorTexture |};
       GltfMaterial.alphaMode := alphaMode;
       GltfMaterial.doubleSided := doubleSided |};
  let attributes := attributesOf lay hasVertexColors useBatchIds batchIdSemantic in
  let primitives := ViewsState.primitives st ++
    [{| Primitive.attributes := attributes; Primitive.indices := i;
        Primitive.material := i; Primitive.mode := 4%N |}] in
  mret (ViewsState.mk indexAccessors materials primitives images samplers textures
                      baseColorTexture).

(** Lines 161-236: the body of the loop over the views. *)
Definition viewBody (indices : list Number) (views : list View.t) (lay : Layout.t)
    (hasVertexColors useBatchIds : bool) (batchIdSemantic : string)
    (i : nat) (st : ViewsState.t) : Outcome ViewsState.t :=
  view ← property_of 163 "view" (views !! i);
  indicesMinMax ← call_getMinMax
    (getMinMax indices 1 (Some (View.indexOffset view)) (Some (View.indexCount view)));
  viewEntries lay hasVertexColors useBatchIds batchIdSemantic i st view indicesMinMax.

(** Lines 239-300: the vertex accessors.  The first element of the array
    literal reads [positionsMinMax], an identifier that is declared
    nowhere (line 75 declares [positionMinMax]). *)
Definition vertexAccessorsOf (enc : Encoded.t) (lay : Layout.t)
    (hasVertexColors useBatchIds : bool) (vertexCount batchIdsLength : nat)
    : Outcome (JsArray.t Accessor.t) :=
  positionsMinMax ← undeclared 247 "positionsMinMax";
  let normalsMinMax := Encoded.normalsMinMax enc in
  let uvsMinMax := Encoded.uvsMinMax enc in
  let vertexAccessors := JsArray.mk
    [ {| Accessor.bufferView := Layout.positionBufferViewIndex lay;
         Accessor.byteOffset := 0;
         Accessor.byteStride := Some 0;
         Accessor.componentType := 5126%N;
         Accessor.count := vertexCount;
         Accessor.type := "VEC3";
         Accessor.min := MinMax.min positionsMinMax;
         Accessor.max := MinMax.max positionsMinMax;
         Accessor.name := Some "positions";
         Accessor.normalized := None |};
      {| Accessor.bufferView := Layout.normalBufferViewIndex lay;
         Accessor.byteOffset := 0;
         Accessor.byteStride := Some 0;
         Accessor.componentType := 5126%N;
         Accessor.count := vertexCount;
         Accessor.type := "VEC3";
         Accessor.min := MinMax.min normalsMinMax;
         Accessor.max := MinMax.max normalsMinMax;
         Accessor.name := Some "normals";
         Accessor.normalized := None |};
      {| Accessor.bufferView := Layout.uvBufferViewIndex lay;
         Accessor.byteOffset := 0;
         Accessor.byteStride := Some 0;
         Accessor.componentType := 5126%N;
         Accessor.count := vertexCount;
         Accessor.type := "VEC2";
         Accessor.min := MinMax.min uvsMinMax;
         Accessor.max := MinMax.max uvsMinMax;
         Accessor.name := Some "uvs";
         Accessor.normalized := None |} ] ∅ in
  vertexAccessors ←
    (if hasVertexColors
     then
       vertexColorsMinMax ← property_of 283 "vertexColorsMinMax"
                              (Encoded.vertexColorsMinMax enc);
       mret (JsArray.set vertexAccessors "accessor_vertexColor"
         {| Accessor.bufferView := Layout.vertexColorBufferViewIndex lay;
            Accessor.byteOffset := 0;
            Accessor.byteStride := Some 0;
            Accessor.componentType := 5121%N;
            Accessor.count := vertexCount;
            Accessor.type := "VEC4";
            Accessor.min := MinMax.min vertexColorsMinMax;
            Accessor.max := MinMax.max vertexColorsMinMax;
            Accessor.name := None;
            Accessor.normalized := Some true |})
     else mret vertexAccessors);
  if useBatchIds
  then
    batchIdsMinMax ← property_of 297 "batchIdsMinMax" (Encoded.batchIdsMinMax enc);
    mret (JsArray.push vertexAccessors
      {| Accessor.bufferView := Layout.batchIdBufferViewIndex lay;
         Accessor.byteOffset := 0;
         Accessor.byteStride := Some 0;
         Accessor.componentType := 5123%N;
         Accessor.count := batchIdsLength;
         Accessor.type := "SCALAR";
         Accessor.min := MinMax.min batchIdsMinMax;
         Accessor.max := MinMax.max batchIdsMinMax;
         Accessor.name := None;
         Accessor.normalized := None |})
  else mret vertexAccessors.

(** Lines 304-348: the buffer views. *)
Definition bufferViewsOf (enc : Encoded.t) (lay : Layout.t)
    (hasVertexColors useBatchIds : bool) : list BufferView.t :=
  let bufferViews :=
    [ {| BufferView.buffer := 0;
         BufferView.byteLength := List.length (Encoded.positionBuffer enc);
         BufferView.byteOffset := Layout.positionBufferByteOffset lay;
         BufferView.target := 34962%N |};
      {| BufferView.buffer := 0;
         BufferView.byteLength := List.length (Encoded.normalBuffer enc);
         BufferView.byteOffset := Layout.normalBufferByteOffset lay;
         BufferView.target := 34962%N |};
      {| BufferView.buffer := 0;
         BufferView.byteLength := List.length (Encoded.uvBuffer enc);
         BufferView.byteOffset := Layout.uvBufferByteOffset lay;
         BufferView.target := 34962%N |} ] in
  let bufferViews :=
    if hasVertexColors
    then bufferViews ++
      [ {| BufferView.buffer := 0;
           BufferView.byteLength := List.length (Encoded.vertexColorBuffer enc);
           BufferView.byteOffset := Layout.vertexColorBufferByteOffset lay;
           BufferView.target := 34962%N |} ]
    else bufferViews in
  let bufferViews :=
    if useBatchIds
    then bufferViews ++
      [ {| BufferView.buffer := 0;
           BufferView.byteLength := List.length (Encoded.batchIdBuffer enc);
           BufferView.byteOffset := Layout.batchIdBufferByteOffset lay;
           BufferView.target := 34962%N |} ]
    else bufferViews in
  bufferViews ++
    [ {| BufferView.buffer := 0;
         BufferView.byteLength := List.length (Encoded.indexBuffer enc);
         BufferView.byteOffset := Layout.indexBufferByteOffset lay;
         BufferView.target := 34963%N |} ].

(** Lines 350-390: the asset description. *)
Definition gltfOf (accessors : gmap string Accessor.t) (lay : Layout.t)
    (bufferViews : list BufferView.t) (st : ViewsState.t)
    (rootMatrix : option (list Number)) (center : option Cartesian3.t) : Gltf.t :=
  {| Gltf.accessors := accessors;
     Gltf.asset := {| Asset.generator := "3d-tiles-samples-generator";
                      Asset.version := "2.0" |};
     Gltf.buffers := [ {| GltfBuffer.byteLength := Layout.byteLength lay;
                          GltfBuffer.uri := Layout.bufferUri lay |} ];
     Gltf.bufferViews := bufferViews;
     Gltf.images := ViewsState.images st;
     Gltf.materials := ViewsState.materials st;
     Gltf.meshes := [ {| GltfMesh.primitives := ViewsState.primitives st |} ];
     Gltf.nodes := [ {| Node.matrix := rootMatrix; Node.mesh := 0;
                        Node.name := "rootNode" |} ];
     Gltf.samplers := ViewsState.samplers st;
     Gltf.scene := 0;
     Gltf.scenes := [ {| Scene.nodes := [0] |} ];
     Gltf.textures := ViewsState.textures st;
     Gltf.extensionsUsed :=
       match center with Some _ => Some ["CESIUM_RTC"] | None => None end;
     Gltf.extensions :=
       match center with
       | Some c => Some {| Extensions.CESIUM_RTC_center := Cartesian3.pack c |}
       | None => None
       end |}.

Section CreateGltf.
Context `{MeshMethods}.

(** Lines 63-394, once the mesh has been recentered (or not): everything
    that [createGltf] computes from the options, the center and the mesh
    as it then stands. *)
Definition buildGltf (options : Options.t) (center : option Cartesian3.t)
    (mesh : Mesh.t) (hasVertexColors : bool) : Outcome Gltf.t :=
  let useBatchIds := defaultValue (Options.useBatchIds options) true in
  let quantization := defaultValue (Options.quantization options) false in
  let deprecated := defaultValue (Options.deprecated options) false in
  let textureCompressionOptions := Options.textureCompressionOptions options in
  let upAxis := defaultValue (Options.upAxis options) "Y" in
  let indices := Mesh.indices mesh in
  let views := Mesh.views mesh in
  let rootMatrix := rootMatrixFor upAxis in
  enc ← encodeAttributes mesh hasVertexColors useBatchIds;
  let batchIdSemantic := if deprecated then "BATCHID" else "_BATCHID" in
  let batchIdsLength := List.length (Mesh.batchIds mesh) in
  let vertexCount := getVertexCount mesh in
  let lay := layoutOf enc hasVertexColors useBatchIds in
  let viewsLength := List.length views in
  st ← for_loop (viewBody indices views lay hasVertexColors useBatchIds batchIdSemantic)
                0 viewsLength ViewsState.init;
  vertexAccessors ← vertexAccessorsOf enc lay hasVertexColors useBatchIds
                                      vertexCount batchIdsLength;
  let accessors := combine (JsArray.own vertexAccessors) (ViewsState.indexAccessors st) in
  let bufferViews := bufferViewsOf enc lay hasVertexColors useBatchIds in
  mret (gltfOf accessors lay bufferViews st rootMatrix center).

Variable GLB : Type.
Variable gltfToGlb : Gltf.t -> GLB.

(** [createGltf(options)], [options.mesh] being the mesh given: the mesh
    as the call leaves it, and the outcome of the call.  The locals
    [positions], [normals], ... of lines 45-51 are references to the
    arrays of the mesh, so that the in-place recentering of line 60 is
    what the encoding of line 75 onwards reads. *)
Definition createGltf (options : Options.t) (mesh : Mesh.t)
    : Mesh.t * Outcome GLB :=
  let relativeToCenter := defaultValue (Options.relativeToCenter options) false in
  let vertexColors := Mesh.vertexColors mesh in
  let hasVertexColors := hasVertexColorsOf vertexColors in
  let '(center, mesh) :=
    if relativeToCenter
    then (Some (getCenter mesh), Mesh_recentered mesh)
    else (None, mesh) in
  (mesh, gltfToGlb <$> buildGltf options center mesh hasVertexColors).

End CreateGltf.

(** ** The call on a store of objects

    [createGltf] is handed a reference to the mesh: its locals
    [positions], [normals], ... are references to the arrays of the
    mesh, which it reads in place and which
    [mesh.setPositionsRelativeToCenter()] overwrites in place.  Here the
    objects live in a store, a local holds a location of the store, and
    every read and every write of the source is a read or a write at a
    location, so that it is the code that decides which objects change. *)

Module Store.

Abbreviation loc := nat (only parsing).

(** The fields of a mesh: references to its arrays. *)
Module MeshObject.
Record t : Type := mk {
  positions : loc;
  normals : loc;
  uvs : loc;
  vertexColors : loc;
  batchIds : loc;
  indices : loc;
  views : loc
}.
End MeshObject.

(** The objects of the store: arrays of numbers, Node buffers, the array
    of the views (a view and its material are only ever read, they are
    kept as values) and the mesh. *)
Inductive Cell : Type :=
  | NumberArray (elements : list Number)
  | Buffer (bytes : list Byte)
  | ViewArray (elements : list View.t)
  | Object (fields : MeshObject.t).

Abbreviation t := (list Cell) (only parsing).

Definition numbersOf (cell : option Cell) : option (list Number) :=
  match cell with
  | Some (NumberArray elements) => Some elements
  | _ => None
  end.

Definition bytesOf (cell : option Cell) : option (list Byte) :=
  match cell with
  | Some (Buffer bytes) => Some bytes
  | _ => None
  end.

Definition viewsOf (cell : option Cell) : option (list View.t) :=
  match cell with
  | Some (ViewArray elements) => Some elements
  | _ => None
  end.

Definition fieldsOf (cell : option Cell) : option MeshObject.t :=
  match cell with
  | Some (Object fields) => Some fields
  | _ => None
  end.

(** A statement of the source: it may change the store, and it returns,
    throws or loops forever. *)
Definition M (A : Type) : Type := t -> t * Outcome A.

#[global] Instance M_ret : MRet M := fun A a store => (store, Return a).

#[global] Instance M_bind : MBind M := fun A B k m store =>
  match m store with
  | (store', Return a) => k a store'
  | (store', Throw line e) => (store', Throw line e)
  | (store', Diverge) => (store', Diverge)
  end.

(** A computation that does not touch the store. *)
Definition lift {A : Type} (o : Outcome A) : M A := fun store => (store, o).

(** [new Array(...)], [Buffer.alloc(...)]: a new object, at a location
    that was not in use. *)
Definition alloc (cell : Cell) : M loc :=
  fun store => (store ++ [cell], Return (List.length store)).

(** Reading the object at a location as an object of some kind; a
    location that holds no such object is [undefined] to the reader. *)
Definition read {A : Type} (line : nat) (name : string)
    (kind : option Cell -> option A) (l : loc) : M A :=
  fun store => (store, property_of line name (kind (store !! l))).

(** Overwriting the object at a location. *)
Definition write (l : loc) (cell : Cell) : M unit :=
  fun store => (<[l := cell]> store, Return tt).

(** [array.length]. *)
Definition Array_length (line : nat) (name : string) (array : loc) : M nat :=
  elements ← read line name numbersOf array;
  mret (List.length elements).

(** [array[index]], used as a number. *)
Definition getElement (line : nat) (name : string) (array : loc) (index : nat)
    : M Number :=
  elements ← read line name numbersOf array;
  mret (array_get elements index).

(** [array[index] = value], the index being one of the array. *)
Definition setElement (line : nat) (name : string) (array : loc) (index : nat)
    (value : Number) : M unit :=
  elements ← read line name numbersOf array;
  write array (NumberArray (<[index := value]> elements)).

(** [buffer.method(...)] for one of the [write...] methods: the bytes of
    the buffer are replaced by what the method makes of them, unless it
    throws. *)
Definition Buffer_write (line : nat) (name : string) (buffer : loc)
    (method : list Byte -> Outcome (list Byte)) : M unit :=
  bytes ← read line name bytesOf buffer;
  bytes ← lift (method bytes);
  write buffer (Buffer bytes).

(** [for (i = 0; i < n; ++i) body], the body threading the locals it
    assigns. *)
Fixpoint for_loop {S : Type} (body : nat -> S -> M S) (i n : nat) (s : S) : M S :=
  match n with
  | O => mret s
  | Datatypes.S n' => s' ← body i s; for_loop body (Datatypes.S i) n' s'
  end.

(** *** getMinMax on the store *)

(** Lines 405-408: one pass of the body of the inner loop. *)
Definition getMinMax_component (array min max : loc) (components start : nat)
    (i j : nat) : M unit :=
  let index := start + i * components + j in
  value ← getElement 406 "array" array index;
  least ← getElement 407 "min" min j;
  setElement 407 "min" min j (Math_min least value);;
  greatest ← getElement 408 "max" max j;
  setElement 408 "max" max j (Math_max greatest value).

(** The inner loop [for (var j = 0; j < components; ++j)]. *)
Definition getMinMax_tuple (array min max : loc) (components start : nat)
    (i : nat) : M unit :=
  for_loop (fun j _ => getMinMax_component array min max components start i j)
           0 components tt.

(** The outer loop, on fuel as in [getMinMax_loop] above. *)
Fixpoint getMinMax_loop (array min max : loc) (components start length : nat)
    (fuel : nat) (i : nat) : M unit :=
  match fuel with
  | O => lift Diverge
  | S fuel' =>
      if i * components <? length
      then getMinMax_tuple array min max components start i;;
           getMinMax_loop array min max components start length fuel' (S i)
      else mret tt
  end.

(** [getMinMax(array, components, start, length)]: the arrays [min] and
    [max] are new objects, filled in place; nothing else holds a
    reference to them and nothing writes to them once the function has
    returned, so that the object returned is given by their contents. *)
Definition getMinMax (array : loc) (components : nat) (start length : option nat)
    : M MinMax.t :=
  let start := defaultValue start 0 in
  arrayLength ← Array_length 399 "array" array;
  let length := defaultValue length arrayLength in
  min ← alloc (NumberArray (Array_fill components POSITIVE_INFINITY));
  max ← alloc (NumberArray (Array_fill components NEGATIVE_INFINITY));
  getMinMax_loop array min max components start length (S length) 0;;
  min ← read 412 "min" numbersOf min;
  max ← read 413 "max" numbersOf max;
  mret (MinMax.mk min max).

(** *** createGltf on the store *)

(** Lines 75-123, and the reads of line 127: the attribute streams are
    measured and written into new buffers, and the buffers are read
    where [Buffer.concat] reads them ([mesh.getVertexCount()], which the
    source calls before that, at line 125, writes nothing). *)
Definition encodeAttributes (mesh : MeshObject.t) (hasVertexColors useBatchIds : bool)
    : M Encoded.t :=
  let positions := MeshObject.positions mesh in
  let normals := MeshObject.normals mesh in
  let uvs := MeshObject.uvs mesh in
  let vertexColors := MeshObject.vertexColors mesh in
  let batchIds := MeshObject.batchIds mesh in
  let indices := MeshObject.indices mesh in
  positionMinMax ← getMinMax positions 3 None None;
  positionLength ← Array_length 76 "positions" positions;
  positionBuffer ← alloc (Buffer (Buffer_alloc (positionLength * sizeOfFloat32) 0));
  for_loop (fun i _ =>
              position ← lift (undeclared 79 "position");
              Buffer_write 79 "positionBuffer" positionBuffer (fun bytes =>
                Return (writeFloatLE bytes (array_get position i) (i * sizeOfFloat32))))
           0 positionLength tt;;
  normalsMinMax ← getMinMax normals 3 None None;
  normalsLength ← Array_length 83 "normals" normals;
  normalBuffer ← alloc (Buffer (Buffer_alloc (normalsLength * sizeOfFloat32) 0));
  for_loop (fun i _ =>
              value ← getElement 86 "normals" normals i;
              Buffer_write 86 "normalBuffer" normalBuffer (fun bytes =>
                Return (writeFloatLE bytes value (i * sizeOfFloat32))))
           0 normalsLength tt;;
  uvsMinMax ← getMinMax uvs 2 None None;
  uvsLength ← Array_length 90 "uvs" uvs;
  uvBuffer ← alloc (Buffer (Buffer_alloc (uvsLength * sizeOfFloat32) 0));
  for_loop (fun i _ =>
              value ← getElement 93 "uvs" uvs i;
              Buffer_write 93 "uvBuffer" uvBuffer (fun bytes =>
                Return (writeFloatLE bytes value (i * sizeOfFloat32))))
           0 uvsLength tt;;
  vertexColorBuffer ← alloc (Buffer (Buffer_alloc 0 0));
  '(vertexColorsMinMax, vertexColorBuffer) ←
    (if hasVertexColors
     then
       vertexColorsMinMax ← getMinMax vertexColors 4 None None;
       vertexColorsLength ← Array_length 100 "vertexColors" vertexColors;
       vertexColorBuffer ← alloc (Buffer (Buffer_alloc vertexColorsLength sizeOfUint8));
       for_loop (fun i _ =>
                   value ← getElement 103 "vertexColors" vertexColors i;
                   Buffer_write 103 "vertexColorBuffer" vertexColorBuffer (fun bytes =>
                     writeUInt8 103 bytes value i))
                0 vertexColorsLength tt;;
       mret (Some vertexColorsMinMax, vertexColorBuffer)
     else mret (None, vertexColorBuffer));
  batchIdBuffer ← alloc (Buffer (Buffer_alloc 0 0));
  '(batchIdsMinMax, batchIdBuffer) ←
    (if useBatchIds
     then
       batchIdsMinMax ← getMinMax batchIds 1 None None;
       batchIdsLength ← Array_length 111 "batchIds" batchIds;
       batchIdBuffer ← alloc (Buffer (Buffer_alloc (batchIdsLength * sizeOfUint16) 0));
       for_loop (fun i _ =>
                   value ← getElement 115 "batchIds" batchIds i;
                   Buffer_write 115 "batchIdBuffer" batchIdBuffer (fun bytes =>
                     writeUInt16LE 115 bytes value (i * sizeOfUint16)))
                0 batchIdsLength tt;;
       mret (Some batchIdsMinMax, batchIdBuffer)
     else mret (None, batchIdBuffer));
  indicesLength ← Array_length 119 "indices" indices;
  indexBuffer ← alloc (Buffer (Buffer_alloc (indicesLength * sizeOfUint16) 0));
  for_loop (fun i _ =>
              value ← getElement 122 "indices" indices i;
              Buffer_write 122 "indexBuffer" indexBuffer (fun bytes =>
                writeUInt16LE 122 bytes value (i * sizeOfUint16)))
           0 indicesLength tt;;
  positionBuffer ← read 127 "positionBuffer" bytesOf positionBuffer;
  normalBuffer ← read 127 "normalBuffer" bytesOf normalBuffer;
  uvBuffer ← read 127 "uvBuffer" bytesOf uvBuffer;
  vertexColorBuffer ← read 127 "vertexColorBuffer" bytesOf vertexColorBuffer;
  batchIdBuffer ← read 127 "batchIdBuffer" bytesOf batchIdBuffer;
  indexBuffer ← read 127 "indexBuffer" bytesOf indexBuffer;
  mret (Encoded.mk positionMinMax positionBuffer normalsMinMax normalBuffer
                   uvsMinMax uvBuffer vertexColorsMinMax vertexColorBuffer
                   batchIdsMinMax batchIdBuffer indexBuffer).

(** Lines 161-236: the body of the loop over the views. *)
Definition viewBody (indices views : loc) (lay : Layout.t)
    (hasVertexColors useBatchIds : bool) (batchIdSemantic : string)
    (i : nat) (st : ViewsState.t) : M ViewsState.t :=
  elements ← read 162 "views" viewsOf views;
  view ← lift (property_of 163 "view" (elements !! i));
  indicesMinMax ← getMinMax indices 1 (Some (View.indexOffset view))
                            (Some (View.indexCount view));
  lift (viewEntries lay hasVertexColors useBatchIds batchIdSemantic i st
                    view indicesMinMax).

Section CreateGltf.
Context `{MeshMethods}.

(** Modelled from the spec: what a method of [Mesh] sees of the mesh,
    its arrays as they stand in the store. *)
Definition readMesh (line : nat) (mesh : loc) : M Mesh.t :=
  object ← read line "mesh" fieldsOf mesh;
  positions ← read line "positions" numbersOf (MeshObject.positions object);
  normals ← read line "normals" numbersOf (MeshObject.normals object);
  uvs ← read line "uvs" numbersOf (MeshObject.uvs object);
  vertexColors ← read line "vertexColors" numbersOf (MeshObject.vertexColors object);
  batchIds ← read line "batchIds" numbersOf (MeshObject.batchIds object);
  indices ← read line "indices" numbersOf (MeshObject.indices object);
  views ← read line "views" viewsOf (MeshObject.views object);
  mret (Mesh.mk positions normals uvs vertexColors batchIds indices views).

(** Modelled from the spec: [mesh.getCenter()], the center-computation,
    and [mesh.getVertexCount()], the vertex-count accessor, read the
    mesh and leave it as it is. *)
Definition getCenter (line : nat) (mesh : loc) : M Cartesian3.t :=
  snapshot ← readMesh line mesh;
  mret (getCenter snapshot).

Definition getVertexCount (line : nat) (mesh : loc) : M nat :=
  snapshot ← readMesh line mesh;
  mret (getVertexCount snapshot).

(** Modelled from the spec: [mesh.setPositionsRelativeToCenter()], the
    "recenter in place" mutation, overwrites the elements of the array
    that [mesh.positions] refers to. *)
Definition setPositionsRelativeToCenter (line : nat) (mesh : loc) : M unit :=
  snapshot ← readMesh line mesh;
  object ← read line "mesh" fieldsOf mesh;
  write (MeshObject.positions object)
        (NumberArray (setPositionsRelativeToCenter snapshot)).

(** Lines 63-394.  [batchIdsLength] is the length that line 111 reads,
    of an array that nothing has written to since; the local stays
    [undefined] when the batch ids are off, where the accessor of line
    295 that uses it is not built.  [buffer] is the new buffer of
    [Buffer.concat]. *)
Definition buildGltf (options : Options.t) (center : option Cartesian3.t)
    (mesh : loc) (object : MeshObject.t) (hasVertexColors : bool) : M Gltf.t :=
  let useBatchIds := defaultValue (Options.useBatchIds options) true in
  let quantization := defaultValue (Options.quantization options) false in
  let deprecated := defaultValue (Options.deprecated options) false in
  let textureCompressionOptions := Options.textureCompressionOptions options in
  let upAxis := defaultValue (Options.upAxis options) "Y" in
  let indices := MeshObject.indices object in
  let views := MeshObject.views object in
  let rootMatrix := rootMatrixFor upAxis in
  enc ← encodeAttributes object hasVertexColors useBatchIds;
  let batchIdSemantic := if deprecated then "BATCHID" else "_BATCHID" in
  batchIdsLength ← (if useBatchIds
                    then Array_length 111 "batchIds" (MeshObject.batchIds object)
                    else mret 0);
  vertexCount ← getVertexCount 125 mesh;
  let lay := layoutOf enc hasVertexColors useBatchIds in
  buffer ← alloc (Buffer (Layout.buffer lay));
  elements ← read 160 "views" viewsOf views;
  let viewsLength := List.length elements in
  st ← for_loop (viewBody indices views lay hasVertexColors useBatchIds batchIdSemantic)
                0 viewsLength ViewsState.init;
  vertexAccessors ← lift (vertexAccessorsOf enc lay hasVertexColors useBatchIds
                                            vertexCount batchIdsLength);
  let accessors := combine (JsArray.own vertexAccessors) (ViewsState.indexAccessors st) in
  let bufferViews := bufferViewsOf enc lay hasVertexColors useBatchIds in
  mret (gltfOf accessors lay bufferViews st rootMatrix center).

Variable GLB : Type.
Variable gltfToGlb : Gltf.t -> GLB.

(** [createGltf(options)], [options.mesh] being the reference given. *)
Definition createGltf (options : Options.t) (mesh : loc) : M GLB :=
  let relativeToCenter := defaultValue (Options.relativeToCenter options) false in
  object ← read 45 "mesh" fieldsOf mesh;
  vertexColors ← read 54 "vertexColors" numbersOf (MeshObject.vertexColors object);
  let hasVertexColors := hasVertexColorsOf vertexColors in
  center ← (if relativeToCenter
            then
              center ← getCenter 59 mesh;
              setPositionsRelativeToCenter 60 mesh;;
              mret (Some center)
            else mret None);
  gltf ← buildGltf options center mesh object hasVertexColors;
  mret (gltfToGlb gltf).

End CreateGltf.

(** The store holds the mesh [snapshot] at the location [mesh]: there
    is the object of the mesh, and its fields refer to arrays of these
    contents. *)
Definition holds (store : t) (mesh : loc) (object : MeshObject.t) (snapshot : Mesh.t)
    : Prop :=
  store !! mesh = Some (Object object) ∧
  store !! MeshObject.positions object = Some (NumberArray (Mesh.positions snapshot)) ∧
  store !! MeshObject.normals object = Some (NumberArray (Mesh.normals snapshot)) ∧
  store !! MeshObject.uvs object = Some (NumberArray (Mesh.uvs snapshot)) ∧
  store !! MeshObject.vertexColors object
    = Some (NumberArray (Mesh.vertexColors snapshot)) ∧
  store !! MeshObject.batchIds object = Some (NumberArray (Mesh.batchIds snapshot)) ∧
  store !! MeshObject.indices object = Some (NumberArray (Mesh.indices snapshot)) ∧
  store !! MeshObject.views object = Some (ViewArray (Mesh.views snapshot)).

(** No other field of the mesh refers to the array of the positions. *)
Definition positions_unshared (object : MeshObject.t) : Prop :=
  MeshObject.positions object ∉
    [MeshObject.normals object; MeshObject.uvs object; MeshObject.vertexColors object;
     MeshObject.batchIds object; MeshObject.indices object].

(** From [store], the statement [m] has the outcome [o] and leaves the
    objects of [base] as they are: it ends in [base] followed by the
    objects that were allocated since. *)
Definition refines {A : Type} (m : M A) (store base : t) (o : Outcome A) : Prop :=
  base `prefix_of` store -> ∃ extra, m store = (base ++ extra, o).

End Store.

(** The object at a location that a run has reached: one of those the
    store held at the start, or the one allocated last. *)
Ltac store_lookup :=
  repeat first [ eassumption | by apply list_lookup_middle | apply lookup_app_l_Some ].

(** The store a run has reached extends the one it started from. *)
Ltac store_prefix := repeat apply prefix_app_r; done.

(** ** A mesh class for the examples *)

(** Modelled from the spec: the subtraction of doubles that the
    recentering of [Mesh] performs, where the difference is exact. *)
Definition Number_sub (a b : Number) : Number :=
  match a, b with
  | NaN, _ | _, NaN => NaN
  | PosInf, PosInf | NegInf, NegInf => NaN
  | PosInf, _ | _, NegInf => PosInf
  | NegInf, _ | _, PosInf => NegInf
  | Fin p, Fin q => Fin (Qred (p - q))
  end.

(** Modelled from the spec: the "recenter in place" mutation of [Mesh],
    which subtracts the center from every position triple. *)
Fixpoint subtractCenter (center : Cartesian3.t) (positions : list Number) : list Number :=
  match positions with
  | px :: py :: pz :: rest =>
      Number_sub px (Cartesian3.x center) :: Number_sub py (Cartesian3.y center)
        :: Number_sub pz (Cartesian3.z center) :: subtractCenter center rest
  | rest => rest
  end.

(** Modelled from the spec: a class [Mesh] whose [getCenter] answers a
    given center (the scenario of the spec has the center (10, 20, 30)),
    whose recentering subtracts that center, and whose vertex count is
    the number of position triples. *)
Definition centeredMesh (center : Cartesian3.t) : MeshMethods :=
  {| getCenter := fun _ => center;
     setPositionsRelativeToCenter := fun mesh => subtractCenter center (Mesh.positions mesh);
     getVertexCount := fun mesh => List.length (Mesh.positions mesh) / 3 |}.

(** ** What the spec calls the extrema of a stream *)

Definition Number_le (x y : Number) : Prop := Number_leb x y = true.

(** The values of the scanned range [start, start + length) that sit at
    the positions congruent to [j] modulo the arity, positions being
    counted from the start of the range. *)
Definition column (array : list Number) (components start length j : nat)
    : list Number :=
  array_get array <$>
    filter (fun k => (k - start) mod components = j) (seq start length).

(** [m] is the minimum of [l]; the minimum of no value at all is
    [+Infinity], as the extrema of an accessor have it. *)
Definition is_minimum (m : Number) (l : list Number) : Prop :=
  (l = [] ∧ m = POSITIVE_INFINITY) ∨ (m ∈ l ∧ ∀ x, x ∈ l → Number_le m x).

Definition is_maximum (m : Number) (l : list Number) : Prop :=
  (l = [] ∧ m = NEGATIVE_INFINITY) ∨ (m ∈ l ∧ ∀ x, x ∈ l → Number_le x m).

(** The indices of one view: the sub-range [indexOffset, indexOffset + indexCount). *)
Definition viewIndices (indices : list Number) (view : View.t) : list Number :=
  array_get indices <$> seq (View.indexOffset view) (View.indexCount view).

(** [mm] holds the extrema of the range that [getMinMax] is asked to
    scan: an array of [components] minima and one of [components]
    maxima, each the extremum of its column. *)
Definition extrema_of (array : list Number) (components : nat)
    (start length : option nat) (mm : MinMax.t) : Prop :=
  let start := defaultValue start 0 in
  let length := defaultValue length (List.length array) in
  List.length (MinMax.min mm) = components ∧
  List.length (MinMax.max mm) = components ∧
  ∀ j, j < components →
    is_minimum (array_get (MinMax.min mm) j) (column array components start length j) ∧
    is_maximum (array_get (MinMax.max mm) j) (column array components start length j).

(** The buffer views lie one after the other from byte [offset] on. *)
Fixpoint contiguous_from (offset : nat) (bufferViews : list BufferView.t) : Prop :=
  match bufferViews with
  | [] => True
  | bv :: rest =>
      BufferView.byteOffset bv = offset ∧
      contiguous_from (offset + BufferView.byteLength bv) rest
  end.

(** The arrays of images, textures and samplers as the loop over the
    views is to keep them: all three [undefined], or one sampler (the
    default one) and as many textures as images, the texture at place
    [k] using sampler 0 and image [k]. *)
Definition textures_ok (st : ViewsState.t) : Prop :=
  (ViewsState.images st = None ∧ ViewsState.samplers st = None ∧
   ViewsState.textures st = None) ∨
  ∃ images,
    ViewsState.images st = Some images ∧
    ViewsState.samplers st = Some [defaultSampler] ∧
    ViewsState.textures st = Some (Texture.mk 0 <$> seq 0 (List.length images)).

(** The first value of a stream that an integer write refuses. *)
Definition firstOutOfRange (min max : Z) (values : list Number) : option Number :=
  List.find (out_of_range min max) values.

(** The integer write of lines 98-123 that throws first, if one does:
    its line and the value it refuses.  The vertex colors are written
    when the mesh has some, the batch ids when they are switched on, the
    indices always, in that order. *)
Definition integerWriteError (mesh : Mesh.t) (hasVertexColors useBatchIds : bool)
    : option (nat * Number) :=
  match (if hasVertexColors
         then firstOutOfRange 0 255 (Mesh.vertexColors mesh) else None) with
  | Some value => Some (103, value)
  | None =>
      match (if useBatchIds
             then firstOutOfRange 0 65535 (Mesh.batchIds mesh) else None) with
      | Some value => Some (115, value)
      | None =>
          match firstOutOfRange 0 65535 (Mesh.indices mesh) with
          | Some value => Some (122, value)
          | None => None
          end
      end
  end.

(** An error raised no later than the choice of the root matrix
    (lines 63-72), before any attribute is encoded. *)
Definition fails_fast {A : Type} (out : Outcome A) : Prop :=
  ∃ line e, out = Throw line e ∧ line ≤ 72.

(** ** Sample inputs *)

Definition red : Material.t := Material.mk (Rgba [num 1; num 0; num 0; num 1]).

Definition checker : Material.t := Material.mk (TextureUri "data/checker.png").

(** One quad of four vertices, drawn as two triangles: the first under
    a flat red, the second under a texture; no vertex colors. *)
Definition quad : Mesh.t :=
  {| Mesh.positions := [num 10; num 20; num 30; num 11; num 20; num 30;
                        num 11; num 21; num 30; num 10; num 21; num 30];
     Mesh.normals := [num 0; num 0; num 1; num 0; num 0; num 1;
                      num 0; num 0; num 1; num 0; num 0; num 1];
     Mesh.uvs := [num 0; num 0; num 1; num 0; num 1; num 1; num 0; num 1];
     Mesh.vertexColors := replicate 16 (num 0);
     Mesh.batchIds := [num 0; num 0; num 0; num 0];
     Mesh.indices := [num 0; num 1; num 3; num 1; num 2; num 3];
     Mesh.views := [View.mk red 0 3; View.mk checker 3 3] |}.

(** The streams of a mesh without its positions: the one input on which
    the loop of line 78 has nothing to write. *)
Definition withoutPositions (mesh : Mesh.t) : Mesh.t :=
  Mesh.mk [] (Mesh.normals mesh) (Mesh.uvs mesh) (Mesh.vertexColors mesh)
          (Mesh.batchIds mesh) (Mesh.indices mesh) (Mesh.views mesh).

Definition withVertexColors (vertexColors : list Number) (mesh : Mesh.t) : Mesh.t :=
  Mesh.mk (Mesh.positions mesh) (Mesh.normals mesh) (Mesh.uvs mesh)
          vertexColors (Mesh.batchIds mesh) (Mesh.indices mesh) (Mesh.views mesh).

Definition withViews (views : list View.t) (mesh : Mesh.t) : Mesh.t :=
  Mesh.mk (Mesh.positions mesh) (Mesh.normals mesh) (Mesh.uvs mesh)
          (Mesh.vertexColors mesh) (Mesh.batchIds mesh) (Mesh.indices mesh) views.

(** The quad with every vertex painted white. *)
Definition whiteQuad : Mesh.t := withVertexColors (replicate 16 (num 255)) quad.

(** The quad with a single view that draws nothing. *)
Definition emptyViewQuad : Mesh.t := withViews [View.mk red 0 0] quad.

Definition noOptions : Options.t := Options.mk None None None None None None.

Definition withUpAxis (upAxis : string) : Options.t :=
  Options.mk None None None None None (Some upAxis).

Definition withoutBatchIds : Options.t :=
  Options.mk (Some false) None None None None None.

Definition relativeToCenterOptions : Options.t :=
  Options.mk None (Some true) None None None None.

(** A store that holds a mesh and nothing else: the object of the mesh
    at location 0, its arrays after it. *)
Definition storeOf (mesh : Mesh.t) : Store.t :=
  [Store.Object (Store.MeshObject.mk 1 2 3 4 5 6 7);
   Store.NumberArray (Mesh.positions mesh); Store.NumberArray (Mesh.normals mesh);
   Store.NumberArray (Mesh.uvs mesh); Store.NumberArray (Mesh.vertexColors mesh);
   Store.NumberArray (Mesh.batchIds mesh); Store.NumberArray (Mesh.indices mesh);
   Store.ViewArray (Mesh.views mesh)].

(** [createGltf] on a mesh of the sample class, the packer being left
    out: the outcome carries the asset description itself. *)
Definition createGltfSample (options : Options.t) (mesh : Mesh.t)
    : Mesh.t * Outcome Gltf.t :=
  @createGltf (centeredMesh (Cartesian3.mk (num 10) (num 20) (num 30)))
              Gltf.t (fun gltf => gltf) options mesh.

(** The same call on a store, the mesh being the object at [mesh]. *)
Definition createGltfInPlace (options : Options.t) (mesh : Store.loc)
    : Store.M Gltf.t :=
  @Store.createGltf (centeredMesh (Cartesian3.mk (num 10) (num 20) (num 30)))
                    Gltf.t (fun gltf => gltf) options mesh.

(** ** The order on numbers *)

Lemma Number_leb_refl x : x ≠ NaN → Number_leb x x = true.
Proof.
  destruct x; simpl; try done. intros _. apply Qle_bool_iff. apply Qle_refl.
Qed.

Lemma Number_leb_trans x y z :
  Number_leb x y = true → Number_leb y z = true → Number_leb x z = true.
Proof.
  destruct x, y, z; simpl; try done.
  rewrite !Qle_bool_iff. apply Qle_trans.
Qed.

Lemma Number_leb_total x y :
  x ≠ NaN → y ≠ NaN → Number_leb x y = false → Number_leb y x = true.
Proof.
  destruct x, y; simpl; try done. intros _ _ Hf.
  apply Qle_bool_iff. destruct (Qlt_le_dec q0 q) as [Hlt|Hle].
  - apply Qlt_le_weak, Hlt.
  - apply Qle_bool_iff in Hle. congruence.
Qed.

Lemma Math_min_cases a v :
  a ≠ NaN → v ≠ NaN →
  (Math_min a v = a ∨ Math_min a v = v) ∧
  Number_le (Math_min a v) a ∧ Number_le (Math_min a v) v.
Proof.
  intros Ha Hv. unfold Number_le.
  assert (Math_min a v = if Number_leb a v then a else v) as ->.
  { by destruct a, v. }
  destruct (Number_leb a v) eqn:E.
  - split; [by left|]. split; [by apply Number_leb_refl | done].
  - split; [by right|]. split; [by apply Number_leb_total | by apply Number_leb_refl].
Qed.

Lemma Math_max_cases a v :
  a ≠ NaN → v ≠ NaN →
  (Math_max a v = a ∨ Math_max a v = v) ∧
  Number_le a (Math_max a v) ∧ Number_le v (Math_max a v).
Proof.
  intros Ha Hv. unfold Number_le.
  assert (Math_max a v = if Number_leb a v then v else a) as ->.
  { by destruct a, v. }
  destruct (Number_leb a v) eqn:E.
  - split; [by right|]. split; [done | by apply Number_leb_refl].
  - split; [by left|]. split; [by apply Number_leb_refl | by apply Number_leb_total].
Qed.

(** Folding [Math.min] over values that are numbers. *)
Lemma foldl_Math_min acc (vals : list Number) :
  acc ≠ NaN → (∀ x, x ∈ vals → x ≠ NaN) →
  let r := foldl Math_min acc vals in
  r ≠ NaN ∧ (r = acc ∨ r ∈ vals) ∧ Number_le r acc ∧ ∀ x, x ∈ vals → Number_le r x.
Proof.
  revert acc. induction vals as [|v vals IH]; intros acc Hacc Hvals; simpl.
  - split; [done|]. split; [by left|]. split; [by apply Number_leb_refl|].
    intros x Hx. by apply elem_of_nil in Hx.
  - assert (v ≠ NaN) as Hv by (apply Hvals; left).
    destruct (Math_min_cases acc v Hacc Hv) as (Hsel & Hla & Hlv).
    assert (Math_min acc v ≠ NaN) as Hm by (destruct Hsel as [-> | ->]; done).
    destruct (IH (Math_min acc v) Hm) as (Hr & Hin & Hle & Hall).
    { intros x Hx. apply Hvals. by right. }
    split; [done|]. split.
    + destruct Hin as [-> | Hin]; [|right; by right].
      destruct Hsel as [-> | ->]; [by left | right; left].
    + split; [eapply Number_leb_trans; eauto|].
      intros x Hx. apply elem_of_cons in Hx as [-> | Hx]; [|by apply Hall].
      eapply Number_leb_trans; eauto.
Qed.

Lemma foldl_Math_max acc (vals : list Number) :
  acc ≠ NaN → (∀ x, x ∈ vals → x ≠ NaN) →
  let r := foldl Math_max acc vals in
  r ≠ NaN ∧ (r = acc ∨ r ∈ vals) ∧ Number_le acc r ∧ ∀ x, x ∈ vals → Number_le x r.
Proof.
  revert acc. induction vals as [|v vals IH]; intros acc Hacc Hvals; simpl.
  - split; [done|]. split; [by left|]. split; [by apply Number_leb_refl|].
    intros x Hx. by apply elem_of_nil in Hx.
  - assert (v ≠ NaN) as Hv by (apply Hvals; left).
    destruct (Math_max_cases acc v Hacc Hv) as (Hsel & Hla & Hlv).
    assert (Math_max acc v ≠ NaN) as Hm by (destruct Hsel as [-> | ->]; done).
    destruct (IH (Math_max acc v) Hm) as (Hr & Hin & Hle & Hall).
    { intros x Hx. apply Hvals. by right. }
    split; [done|]. split.
    + destruct Hin as [-> | Hin]; [|right; by right].
      destruct Hsel as [-> | ->]; [by left | right; left].
    + split; [eapply Number_leb_trans; eauto|].
      intros x Hx. apply elem_of_cons in Hx as [-> | Hx]; [|by apply Hall].
      eapply Number_leb_trans; eauto.
Qed.

Lemma is_minimum_foldl (vals : list Number) :
  (∀ x, x ∈ vals → x ≠ NaN) →
  is_minimum (foldl Math_min POSITIVE_INFINITY vals) vals.
Proof.
  intros Hvals. destruct vals as [|v vals]; [by left|]. right.
  destruct (foldl_Math_min POSITIVE_INFINITY (v :: vals)) as (_ & Hin & _ & Hall);
    [done | done |].
  split; [|done]. destruct Hin as [Heq | Hin]; [|done].
  rewrite Heq. specialize (Hall v ltac:(left)). rewrite Heq in Hall.
  assert (v = PosInf) as ->; [|left].
  unfold Number_le in Hall. by destruct v.
Qed.

Lemma is_maximum_foldl (vals : list Number) :
  (∀ x, x ∈ vals → x ≠ NaN) →
  is_maximum (foldl Math_max NEGATIVE_INFINITY vals) vals.
Proof.
  intros Hvals. destruct vals as [|v vals]; [by left|]. right.
  destruct (foldl_Math_max NEGATIVE_INFINITY (v :: vals)) as (_ & Hin & _ & Hall);
    [done | done |].
  split; [|done]. destruct Hin as [Heq | Hin]; [|done].
  rewrite Heq. specialize (Hall v ltac:(left)). rewrite Heq in Hall.
  assert (v = NegInf) as ->; [|left].
  unfold Number_le in Hall. by destruct v.
Qed.

(** ** Arrays *)

Lemma array_get_insert (l : list Number) j x j' :
  array_get (<[j := x]> l) j' =
    if decide (j = j' ∧ j < length l) then x else array_get l j'.
Proof.
  unfold array_get. case_decide as Hd.
  - destruct Hd as [-> Hlt]. by rewrite list_lookup_insert_eq.
  - destruct (decide (j = j')) as [-> | Hne].
    + rewrite list_insert_ge; [done | lia].
    + by rewrite list_lookup_insert_ne.
Qed.

Lemma array_get_replicate n x j : j < n → array_get (replicate n x) j = x.
Proof. intros Hj. unfold array_get. by rewrite lookup_replicate_2. Qed.

(** A loop [for (j = 0; j < k; ++j) l[j] = f(j, l[j])] updates the first
    [k] cells, each from its own old value. *)
Lemma foldl_update_cells (f : nat → Number → Number) (l : list Number) k :
  k ≤ length l →
  let l' := foldl (fun l j => <[j := f j (array_get l j)]> l) l (seq 0 k) in
  length l' = length l ∧
  ∀ j, array_get l' j = if decide (j < k) then f j (array_get l j) else array_get l j.
Proof.
  induction k as [|k IH]; intros Hk.
  - cbn [seq foldl]. split; [done|]. intros j. case_decide; [lia | done].
  - rewrite seq_S, foldl_app. cbn [foldl Nat.add].
    destruct IH as [Hlen Hget]; [lia|].
    split; [by rewrite length_insert|].
    intros j. rewrite array_get_insert, Hlen, !Hget.
    repeat case_decide; try lia; try done.
    by destruct H as [-> _].
Qed.

(** ** The loops of getMinMax *)

Section Loops.
Variable array : list Number.
Variable components : nat.
Variable start : nat.

Lemma getMinMax_component_min i mm js :
  MinMax.min (foldl (getMinMax_component array components start i) mm js) =
  foldl (fun l j => <[j := (fun j m => Math_min m (array_get array (start + i * components + j))) j
                            (array_get l j)]> l) (MinMax.min mm) js.
Proof. revert mm. induction js as [|j js IH]; intros mm; [done|]. simpl. by rewrite IH. Qed.

Lemma getMinMax_component_max i mm js :
  MinMax.max (foldl (getMinMax_component array components start i) mm js) =
  foldl (fun l j => <[j := (fun j m => Math_max m (array_get array (start + i * components + j))) j
                            (array_get l j)]> l) (MinMax.max mm) js.
Proof. revert mm. induction js as [|j js IH]; intros mm; [done|]. simpl. by rewrite IH. Qed.

(** One tuple: every component is compared with its own cell. *)
Lemma getMinMax_tuple_spec i mm :
  length (MinMax.min mm) = components → length (MinMax.max mm) = components →
  let mm' := getMinMax_tuple array components start i mm in
  length (MinMax.min mm') = components ∧ length (MinMax.max mm') = components ∧
  ∀ j, j < components →
    array_get (MinMax.min mm') j =
      Math_min (array_get (MinMax.min mm) j) (array_get array (start + i * components + j)) ∧
    array_get (MinMax.max mm') j =
      Math_max (array_get (MinMax.max mm) j) (array_get array (start + i * components + j)).
Proof.
  intros Hmin Hmax. unfold getMinMax_tuple. simpl.
  rewrite getMinMax_component_min, getMinMax_component_max.
  destruct (foldl_update_cells
    (fun j m => Math_min m (array_get array (start + i * components + j)))
    (MinMax.min mm) components) as [Hl1 Hg1]; [lia|].
  destruct (foldl_update_cells
    (fun j m => Math_max m (array_get array (start + i * components + j)))
    (MinMax.max mm) components) as [Hl2 Hg2]; [lia|].
  split; [lia|]. split; [lia|].
  intros j Hj. rewrite Hg1, Hg2. by rewrite !decide_True by done.
Qed.

Lemma getMinMax_tuples_S i k mm :
  getMinMax_tuples array components start i (S k) mm
  = getMinMax_tuple array components start (i + k)
      (getMinMax_tuples array components start i k mm).
Proof. unfold getMinMax_tuples. by rewrite seq_S, foldl_app. Qed.

Lemma getMinMax_tuples_spec n mm :
  length (MinMax.min mm) = components → length (MinMax.max mm) = components →
  let mm' := getMinMax_tuples array components start 0 n mm in
  length (MinMax.min mm') = components ∧ length (MinMax.max mm') = components ∧
  ∀ j, j < components →
    array_get (MinMax.min mm') j =
      foldl Math_min (array_get (MinMax.min mm) j)
            ((fun i => array_get array (start + i * components + j)) <$> seq 0 n) ∧
    array_get (MinMax.max mm') j =
      foldl Math_max (array_get (MinMax.max mm) j)
            ((fun i => array_get array (start + i * components + j)) <$> seq 0 n).
Proof.
  intros Hmin Hmax. induction n as [|n IH]; cbv zeta.
  - done.
  - cbv zeta in IH. destruct IH as (Hl1 & Hl2 & Hg). rewrite getMinMax_tuples_S.
    destruct (getMinMax_tuple_spec (0 + n) (getMinMax_tuples array components start 0 n mm) Hl1 Hl2) as (Hl1' & Hl2' & Hg').
    split; [done|]. split; [done|]. intros j Hj.
    destruct (Hg j Hj) as [Hg1 Hg2]. destruct (Hg' j Hj) as [Hg1' Hg2'].
    rewrite Hg1', Hg2', Hg1, Hg2, seq_S, fmap_app, !foldl_app. done.
Qed.

(** With enough fuel the loop returns. *)
Lemma getMinMax_loop_terminates length fuel i mm :
  0 < components → length ≤ i * components + fuel →
  ∃ mm', getMinMax_loop array components start length (S fuel) i mm = Some mm'.
Proof.
  intros Hc. revert i mm. induction fuel as [|fuel IH]; intros i mm Hlen.
  - simpl. destruct (Nat.ltb_spec (i * components) length); [lia | eauto].
  - change (getMinMax_loop array components start length (S (S fuel)) i mm) with
      (if i * components <? length
       then getMinMax_loop array components start length (S fuel) (S i)
              (getMinMax_tuple array components start i mm)
       else Some mm).
    destruct (Nat.ltb_spec (i * components) length); [|eauto].
    apply IH. lia.
Qed.

(** More fuel does not change what the loop returns. *)
Lemma getMinMax_loop_fuel length fuel fuel' i mm r :
  getMinMax_loop array components start length fuel i mm = Some r →
  fuel ≤ fuel' →
  getMinMax_loop array components start length fuel' i mm = Some r.
Proof.
  revert fuel' i mm. induction fuel as [|fuel IH]; intros fuel' i mm Hr Hle; [done|].
  destruct fuel' as [|fuel']; [lia|]. simpl in *.
  destruct (i * components <? length); [|done]. apply IH; [done | lia].
Qed.

(** Without components the loop over a range that is not empty never
    ends: [count] is [Infinity]. *)
Lemma getMinMax_loop_diverges length fuel i mm :
  components = 0 → 0 < length →
  getMinMax_loop array components start length fuel i mm = None.
Proof.
  intros -> Hlen. revert i mm. induction fuel as [|fuel IH]; intros i mm; [done|].
  simpl. destruct (Nat.ltb_spec (i * 0) length); [apply IH | lia].
Qed.

(** On a range of [n] whole tuples the loop runs the [n] tuples. *)
Lemma getMinMax_loop_tuples n k fuel i mm :
  i + k = n → k ≤ fuel →
  getMinMax_loop array components start (n * components) (S fuel) i mm
  = Some (getMinMax_tuples array components start i k mm).
Proof.
  revert fuel i mm. induction k as [|k IH]; intros fuel i mm Hn Hfuel.
  - simpl. destruct (Nat.ltb_spec (i * components) (n * components)); [nia | done].
  - destruct fuel as [|fuel]; [lia|].
    change (getMinMax_loop array components start (n * components) (S (S fuel)) i mm) with
      (if i * components <? n * components
       then getMinMax_loop array components start (n * components) (S fuel) (S i)
              (getMinMax_tuple array components start i mm)
       else Some mm).
    destruct (Nat.ltb_spec (i * components) (n * components)) as [Hlt|Hge].
    + rewrite (IH fuel (S i)); [|lia|lia]. done.
    + (* no component: the range is empty and every tuple is a no-op *)
      assert (components = 0) as Hc0 by nia.
      unfold getMinMax_tuples, getMinMax_tuple. rewrite Hc0. f_equal.
      generalize (seq i (S k)). intros l. clear.
      induction l as [|a l IHl]; [done|]. simpl. apply IHl.
Qed.

End Loops.

(** ** Columns of a stream *)

(** The positions of column [j] in a range of [n] whole tuples are the
    positions [start + i * components + j] that the loops visit. *)
Lemma column_positions components start n j k :
  j < components →
  (start ≤ k < start + n * components ∧ (k - start) mod components = j)
  ↔ ∃ i, i < n ∧ k = start + i * components + j.
Proof.
  intros Hj. split.
  - intros [Hk Hmod]. exists ((k - start) / components).
    pose proof (Nat.div_mod_eq (k - start) components) as Hdm.
    rewrite Hmod in Hdm. split; [|lia].
    apply Nat.Div0.div_lt_upper_bound. lia.
  - intros (i & Hi & ->). split; [nia|].
    replace (start + i * components + j - start) with (j + i * components) by lia.
    rewrite Nat.Div0.mod_add. apply Nat.mod_small, Hj.
Qed.

Lemma elem_of_column array components start n j x :
  j < components →
  x ∈ column array components start (n * components) j
  ↔ x ∈ (fun i => array_get array (start + i * components + j)) <$> seq 0 n.
Proof.
  intros Hj. unfold column. rewrite !list_elem_of_fmap. split.
  - intros (k & -> & Hk). apply list_elem_of_filter in Hk as [Hmod Hk].
    apply elem_of_seq in Hk.
    destruct (proj1 (column_positions components start n j k Hj)) as (i & Hi & ->);
      [done|].
    exists i. split; [done|]. apply elem_of_seq. lia.
  - intros (i & -> & Hi). apply elem_of_seq in Hi.
    exists (start + i * components + j). split; [done|].
    destruct (proj2 (column_positions components start n j
                       (start + i * components + j) Hj)) as [Hk Hmod].
    { exists i. split; [lia | done]. }
    apply list_elem_of_filter. split; [done|]. apply elem_of_seq. lia.
Qed.

Lemma list_no_elem_nil {A} (l : list A) : (∀ x, x ∉ l) → l = [].
Proof. destruct l as [|a l]; [done|]. intros Hno. exfalso. apply (Hno a). left. Qed.

Lemma is_minimum_same_elements m (l l' : list Number) :
  (∀ x, x ∈ l ↔ x ∈ l') → is_minimum m l → is_minimum m l'.
Proof.
  intros Heq [[-> ->] | [Hin Hle]].
  - left. split; [|done]. apply list_no_elem_nil. intros x Hx.
    apply Heq in Hx. by apply elem_of_nil in Hx.
  - right. split; [by apply Heq|]. intros x Hx. apply Hle. by apply Heq.
Qed.

Lemma is_maximum_same_elements m (l l' : list Number) :
  (∀ x, x ∈ l ↔ x ∈ l') → is_maximum m l → is_maximum m l'.
Proof.
  intros Heq [[-> ->] | [Hin Hle]].
  - left. split; [|done]. apply list_no_elem_nil. intros x Hx.
    apply Heq in Hx. by apply elem_of_nil in Hx.
  - right. split; [by apply Heq|]. intros x Hx. apply Hle. by apply Heq.
Qed.

(** ** getMinMax on a range of whole tuples *)

Lemma getMinMax_whole_tuples (array : list Number) (components : nat)
    (start length : option nat) (n : nat) :
  defaultValue length (List.length array) = n * components →
  (∀ k, defaultValue start 0 ≤ k < defaultValue start 0 + n * components →
        array_get array k ≠ NaN) →
  ∃ mm, getMinMax array components start length = Some mm ∧
    List.length (MinMax.min mm) = components ∧
    List.length (MinMax.max mm) = components ∧
    ∀ j, j < components →
      is_minimum (array_get (MinMax.min mm) j)
        (column array components (defaultValue start 0) (n * components) j) ∧
      is_maximum (array_get (MinMax.max mm) j)
        (column array components (defaultValue start 0) (n * components) j).
Proof.
  intros Hlen Hnum. unfold getMinMax. rewrite Hlen.
  set (s := defaultValue start 0) in *.
  set (mm0 := MinMax.mk (Array_fill components POSITIVE_INFINITY)
                        (Array_fill components NEGATIVE_INFINITY)).
  destruct (decide (components = 0)) as [Hc0 | Hc0].
  - (* an arity of 0: nothing is scanned, both arrays are empty *)
    subst components. rewrite Nat.mul_0_r. simpl. exists mm0.
    split; [done|]. split; [done|]. split; [done|]. intros j Hj. lia.
  - rewrite (getMinMax_loop_tuples array components s n n); [|lia|nia].
    eexists. split; [done|].
    destruct (getMinMax_tuples_spec array components s n mm0) as (Hl1 & Hl2 & Hg).
    { apply length_replicate. } { apply length_replicate. }
    split; [done|]. split; [done|]. intros j Hj.
    destruct (Hg j Hj) as [Hg1 Hg2]. rewrite Hg1, Hg2. simpl.
    unfold Array_fill. rewrite !array_get_replicate by done.
    assert (∀ x, x ∈ (fun i => array_get array (s + i * components + j)) <$> seq 0 n
                 → x ≠ NaN) as Hvals.
    { intros x Hx. apply list_elem_of_fmap in Hx as (i & -> & Hi).
      apply elem_of_seq in Hi. apply Hnum. nia. }
    split.
    + eapply is_minimum_same_elements; [|by apply is_minimum_foldl].
      intros x. symmetry. by apply elem_of_column.
    + eapply is_maximum_same_elements; [|by apply is_maximum_foldl].
      intros x. symmetry. by apply elem_of_column.
Qed.

(** [getMinMax] returns as soon as there is a component to scan. *)
Lemma getMinMax_returns array components start length :
  0 < components → ∃ mm, getMinMax array components start length = Some mm.
Proof.
  intros Hc. unfold getMinMax. apply getMinMax_loop_terminates; [done | lia].
Qed.

(** With no component it returns exactly when the range is empty. *)
Lemma getMinMax_no_component array start length :
  getMinMax array 0 start length =
    if decide (defaultValue length (List.length array) = 0)
    then Some (MinMax.mk [] []) else None.
Proof.
  unfold getMinMax. case_decide as Hl.
  - rewrite Hl. done.
  - apply getMinMax_loop_diverges; [done | lia].
Qed.

Lemma call_getMinMax_returns array components start length :
  0 < components →
  ∃ mm, call_getMinMax (getMinMax array components start length) = Return mm.
Proof.
  intros Hc. destruct (getMinMax_returns array components start length Hc) as [mm ->].
  by exists mm.
Qed.

(** ** The write loops *)

Lemma length_bind_fixed (enc : Number → list Byte) (size : nat) (vals : list Number) :
  (∀ v, length (enc v) = size) → length (vals ≫= enc) = length vals * size.
Proof.
  intros Henc. induction vals as [|v vals IH]; [done|].
  cbn [mbind list_bind length]. rewrite length_app, Henc. fold (vals ≫= enc).
  rewrite IH. lia.
Qed.

(** A loop that writes the encoding of [values[i]] at byte [i * size] of
    a fresh buffer leaves the encodings packed one after the other. *)
Lemma write_loop_packed (enc : Number → list Byte) (size : nat)
    (write : list Byte → nat → list Byte) (vals : list Number) (fill : nat) :
  (∀ v, length (enc v) = size) →
  (∀ buf i, write buf i = list_inserts (i * size) (enc (array_get vals i)) buf) →
  foldl write (Buffer_alloc (length vals * size) fill) (seq 0 (length vals))
  = vals ≫= enc.
Proof.
  intros Henc Hwrite.
  assert (∀ k, k ≤ length vals →
    foldl write (Buffer_alloc (length vals * size) fill) (seq 0 k)
    = (take k vals ≫= enc) ++ replicate ((length vals - k) * size) (Raw fill)) as Hinv.
  { induction k as [|k IH]; intros Hk.
    - cbn [seq foldl take]. by rewrite Nat.sub_0_r.
    - rewrite seq_S, foldl_app, IH by lia. cbn [foldl Nat.add].
      destruct (lookup_lt_is_Some_2 vals k) as [v Hv]; [lia|].
      rewrite Hwrite. unfold array_get. rewrite Hv. cbn [default].
      rewrite (take_S_r _ _ _ Hv), bind_app.
      replace (length vals - k) with (S (length vals - S k)) by lia. cbn [Nat.mul].
      rewrite replicate_add.
      replace (k * size) with (length (take k vals ≫= enc) + 0).
      2:{ rewrite (length_bind_fixed enc size) by done. rewrite length_take. lia. }
      rewrite list_inserts_app_r, list_inserts_0_r.
      2:{ by rewrite Henc, length_replicate. }
      cbn [mbind list_bind]. by rewrite app_nil_r, <- app_assoc. }
  rewrite Hinv by done. rewrite firstn_all, Nat.sub_diag. cbn [Nat.mul replicate].
  by rewrite app_nil_r.
Qed.

Lemma writeFloatLE_loop_packed (vals : list Number) :
  foldl (fun buf i => writeFloatLE buf (array_get vals i) (i * sizeOfFloat32))
        (Buffer_alloc (length vals * sizeOfFloat32) 0) (seq 0 (length vals))
  = vals ≫= (fun v => FloatLE v <$> seq 0 sizeOfFloat32).
Proof. by apply (write_loop_packed _ sizeOfFloat32). Qed.

(** A loop of integer writes over a fresh buffer: it throws at the
    first value out of range, and packs the encodings one after the
    other when there is none. *)
Lemma checked_write_loop (line : nat) (min max : Z) (enc : Number → list Byte)
    (size : nat) (write : nat → list Byte → Outcome (list Byte))
    (vals : list Number) (fill : nat) :
  (∀ v, length (enc v) = size) →
  (∀ buf i, write i buf =
     if out_of_range min max (array_get vals i)
     then Throw line (RangeError "ERR_OUT_OF_RANGE" (array_get vals i))
     else Return (list_inserts (i * size) (enc (array_get vals i)) buf)) →
  for_loop write 0 (length vals) (Buffer_alloc (length vals * size) fill)
  = match firstOutOfRange min max vals with
    | Some v => Throw line (RangeError "ERR_OUT_OF_RANGE" v)
    | None => Return (vals ≫= enc)
    end.
Proof.
  intros Henc Hwrite.
  assert (∀ m k, k + m = length vals →
    for_loop write k m ((take k vals ≫= enc) ++ replicate (m * size) (Raw fill))
    = match List.find (out_of_range min max) (drop k vals) with
      | Some v => Throw line (RangeError "ERR_OUT_OF_RANGE" v)
      | None => Return (vals ≫= enc)
      end) as Hinv.
  { induction m as [|m IH]; intros k Hk.
    - cbn [for_loop Nat.mul replicate]. rewrite app_nil_r.
      rewrite drop_ge, take_ge by lia. done.
    - destruct (lookup_lt_is_Some_2 vals k) as [v Hv]; [lia|].
      rewrite (drop_S _ _ _ Hv). cbn [for_loop List.find].
      rewrite Hwrite. unfold array_get at 1 2. rewrite Hv. cbn [default from_option id].
      destruct (out_of_range min max v); [done|].
      cbn [mbind Outcome_bind Nat.mul]. rewrite replicate_add.
      replace (k * size) with (length (take k vals ≫= enc) + 0).
      2:{ rewrite (length_bind_fixed enc size) by done. rewrite length_take. lia. }
      rewrite list_inserts_app_r, list_inserts_0_r.
      2:{ by rewrite Henc, length_replicate. }
      specialize (IH (S k) ltac:(lia)).
      rewrite (take_S_r _ _ _ Hv), bind_app in IH. cbn [mbind list_bind] in IH.
      rewrite app_nil_r, <- app_assoc in IH. unfold array_get. rewrite Hv. exact IH. }
  specialize (Hinv (length vals) 0 ltac:(lia)). exact Hinv.
Qed.

Lemma writeUInt16LE_loop (line : nat) (vals : list Number) :
  for_loop (fun i buf => writeUInt16LE line buf (array_get vals i) (i * sizeOfUint16))
           0 (length vals) (Buffer_alloc (length vals * sizeOfUint16) 0)
  = match firstOutOfRange 0 65535 vals with
    | Some v => Throw line (RangeError "ERR_OUT_OF_RANGE" v)
    | None => Return (vals ≫= (fun v => UInt16LE v <$> seq 0 sizeOfUint16))
    end.
Proof. by apply (checked_write_loop line 0 65535 _ sizeOfUint16). Qed.

Lemma writeUInt8_loop (line : nat) (vals : list Number) :
  for_loop (fun i buf => writeUInt8 line buf (array_get vals i) i)
           0 (length vals) (Buffer_alloc (length vals) sizeOfUint8)
  = match firstOutOfRange 0 255 vals with
    | Some v => Throw line (RangeError "ERR_OUT_OF_RANGE" v)
    | None => Return (vals ≫= (fun v => [UInt8 v]))
    end.
Proof.
  rewrite <- (Nat.mul_1_r (length vals)) at 2.
  apply (checked_write_loop line 0 255 (fun v => [UInt8 v]) 1); [done|].
  intros buf i. unfold writeUInt8. by rewrite Nat.mul_1_r.
Qed.

(** ** The outcome of createGltf *)

(** The loop that fills the position buffer throws in its first pass. *)
Lemma encodeAttributes_positions mesh hasVertexColors useBatchIds :
  Mesh.positions mesh ≠ [] →
  encodeAttributes mesh hasVertexColors useBatchIds
  = Throw 79 (ReferenceError "position is not defined").
Proof.
  intros Hpos. unfold encodeAttributes.
  destruct (call_getMinMax_returns (Mesh.positions mesh) 3 None None) as [mm ->]; [lia|].
  destruct (Mesh.positions mesh) as [|p ps]; [done|]. reflexivity.
Qed.

(** With no position at all the encoding throws at the first integer
    write that is out of range; when there is none it goes through,
    every segment being the packed encoding of its stream, and empty
    when the stream is left out. *)
Lemma encodeAttributes_no_position mesh (hasVertexColors useBatchIds : bool) :
  Mesh.positions mesh = [] →
  match integerWriteError mesh hasVertexColors useBatchIds with
  | Some (line, value) =>
      encodeAttributes mesh hasVertexColors useBatchIds
      = Throw line (RangeError "ERR_OUT_OF_RANGE" value)
  | None =>
      ∃ enc, encodeAttributes mesh hasVertexColors useBatchIds = Return enc ∧
        Encoded.positionBuffer enc = [] ∧
        Encoded.normalBuffer enc
          = Mesh.normals mesh ≫= (fun v => FloatLE v <$> seq 0 sizeOfFloat32) ∧
        Encoded.uvBuffer enc
          = Mesh.uvs mesh ≫= (fun v => FloatLE v <$> seq 0 sizeOfFloat32) ∧
        Encoded.vertexColorBuffer enc
          = (if hasVertexColors
             then Mesh.vertexColors mesh ≫= (fun v => [UInt8 v]) else []) ∧
        Encoded.batchIdBuffer enc
          = (if useBatchIds
             then Mesh.batchIds mesh ≫= (fun v => UInt16LE v <$> seq 0 sizeOfUint16)
             else []) ∧
        Encoded.indexBuffer enc
          = Mesh.indices mesh ≫= (fun v => UInt16LE v <$> seq 0 sizeOfUint16)
  end.
Proof.
  intros Hpos. unfold encodeAttributes, integerWriteError. rewrite Hpos.
  destruct (call_getMinMax_returns [] 3 None None) as [mm1 ->]; [lia|].
  destruct (call_getMinMax_returns (Mesh.normals mesh) 3 None None) as [mm2 ->]; [lia|].
  destruct (call_getMinMax_returns (Mesh.uvs mesh) 2 None None) as [mm3 ->]; [lia|].
  destruct (call_getMinMax_returns (Mesh.vertexColors mesh) 4 None None) as [mm4 Hmm4];
    [lia|].
  destruct (call_getMinMax_returns (Mesh.batchIds mesh) 1 None None) as [mm5 Hmm5];
    [lia|].
  cbn [length for_loop mbind Outcome_bind].
  rewrite !writeFloatLE_loop_packed, !writeUInt16LE_loop, writeUInt8_loop.
  assert (∃ o4, (if hasVertexColors
                 then Some <$> call_getMinMax (getMinMax (Mesh.vertexColors mesh) 4 None None)
                 else Return None) = Return o4) as [o4 ->].
  { destruct hasVertexColors; [rewrite Hmm4|]; eauto. }
  assert (∃ o5, (if useBatchIds
                 then Some <$> call_getMinMax (getMinMax (Mesh.batchIds mesh) 1 None None)
                 else Return None) = Return o5) as [o5 ->].
  { destruct useBatchIds; [rewrite Hmm5|]; eauto. }
  cbn [mbind Outcome_bind].
  destruct hasVertexColors;
    [destruct (firstOutOfRange 0 255 (Mesh.vertexColors mesh)); [done|] |];
    (destruct useBatchIds;
       [destruct (firstOutOfRange 0 65535 (Mesh.batchIds mesh)); [done|] |]);
    (destruct (firstOutOfRange 0 65535 (Mesh.indices mesh)); [done|]);
    (eexists; split; [reflexivity|]; done).
Qed.

Lemma encodeAttributes_in_range mesh (hasVertexColors useBatchIds : bool) :
  Mesh.positions mesh = [] →
  integerWriteError mesh hasVertexColors useBatchIds = None →
  ∃ enc, encodeAttributes mesh hasVertexColors useBatchIds = Return enc ∧
    Encoded.positionBuffer enc = [] ∧
    Encoded.normalBuffer enc
      = Mesh.normals mesh ≫= (fun v => [FloatLE v 0; FloatLE v 1; FloatLE v 2; FloatLE v 3]) ∧
    Encoded.uvBuffer enc
      = Mesh.uvs mesh ≫= (fun v => [FloatLE v 0; FloatLE v 1; FloatLE v 2; FloatLE v 3]) ∧
    Encoded.vertexColorBuffer enc
      = (if hasVertexColors then Mesh.vertexColors mesh ≫= (fun v => [UInt8 v]) else []) ∧
    Encoded.batchIdBuffer enc
      = (if useBatchIds
         then Mesh.batchIds mesh ≫= (fun v => [UInt16LE v 0; UInt16LE v 1])
         else []) ∧
    Encoded.indexBuffer enc
      = Mesh.indices mesh ≫= (fun v => [UInt16LE v 0; UInt16LE v 1]).
Proof.
  intros Hpos Hrange.
  pose proof (encodeAttributes_no_position mesh hasVertexColors useBatchIds Hpos) as Henc.
  by rewrite Hrange in Henc.
Qed.

Lemma encodeAttributes_lengths mesh (hasVertexColors useBatchIds : bool) :
  Mesh.positions mesh = [] →
  integerWriteError mesh hasVertexColors useBatchIds = None →
  ∃ enc, encodeAttributes mesh hasVertexColors useBatchIds = Return enc ∧
    Encoded.positionBuffer enc = [] ∧
    length (Encoded.normalBuffer enc) = 4 * length (Mesh.normals mesh) ∧
    length (Encoded.uvBuffer enc) = 4 * length (Mesh.uvs mesh) ∧
    length (Encoded.vertexColorBuffer enc)
      = (if hasVertexColors then length (Mesh.vertexColors mesh) else 0) ∧
    length (Encoded.batchIdBuffer enc)
      = (if useBatchIds then 2 * length (Mesh.batchIds mesh) else 0) ∧
    length (Encoded.indexBuffer enc) = 2 * length (Mesh.indices mesh).
Proof.
  intros Hpos Hrange.
  destruct (encodeAttributes_in_range mesh hasVertexColors useBatchIds Hpos Hrange)
    as (enc & Henc & Hp & Hn & Hu & Hv & Hb & Hi).
  exists enc. split; [done|]. split; [done|].
  rewrite Hn, Hu, Hv, Hb, Hi.
  rewrite !(length_bind_fixed _ 4), !(length_bind_fixed _ 2) by done.
  destruct hasVertexColors, useBatchIds;
    rewrite ?(length_bind_fixed _ 1), ?(length_bind_fixed _ 2) by done;
    cbn [length]; repeat split; lia.
Qed.

Lemma firstOutOfRange_None min max values :
  firstOutOfRange min max values = None
  ↔ Forall (fun value => out_of_range min max value = false) values.
Proof.
  unfold firstOutOfRange. induction values as [|value values IH]; cbn [find].
  - split; [by constructor|done].
  - destruct (out_of_range min max value) eqn:Hvalue.
    + split; [done|]. intros Hall. apply Forall_cons in Hall as [Hfalse _]. congruence.
    + rewrite IH. split; [by constructor|]. by intros [_ ?]%Forall_cons.
Qed.

Lemma integerWriteError_None mesh (hasVertexColors useBatchIds : bool) :
  integerWriteError mesh hasVertexColors useBatchIds = None
  ↔ (hasVertexColors = true →
     Forall (fun value => out_of_range 0 255 value = false) (Mesh.vertexColors mesh)) ∧
    (useBatchIds = true →
     Forall (fun value => out_of_range 0 65535 value = false) (Mesh.batchIds mesh)) ∧
    Forall (fun value => out_of_range 0 65535 value = false) (Mesh.indices mesh).
Proof.
  unfold integerWriteError. rewrite <- !firstOutOfRange_None.
  destruct hasVertexColors, useBatchIds;
    repeat (destruct (firstOutOfRange _ _ _));
    (split;
     [ intros Heq; repeat split; intros; congruence
     | intros (Hcolors & Hbatch & Hindices);
       try specialize (Hcolors eq_refl); try specialize (Hbatch eq_refl);
       congruence ]).
Qed.

Lemma integerWriteError_line mesh (hasVertexColors useBatchIds : bool) line value :
  integerWriteError mesh hasVertexColors useBatchIds = Some (line, value) →
  line = 103 ∨ line = 115 ∨ line = 122.
Proof. unfold integerWriteError. repeat case_match; intros [= <- _]; auto. Qed.

(** The body of the loop over the views throws as soon as the index
    accessor of the view is built: [indexAccessors] is an object, it has
    no [push]. *)
Lemma viewBody_throws indices views lay hasVertexColors useBatchIds batchIdSemantic
    i st :
  i < length views →
  viewBody indices views lay hasVertexColors useBatchIds batchIdSemantic i st
  = Throw 166 (TypeError "indexAccessors.push is not a function").
Proof.
  intros Hi. unfold viewBody.
  destruct (lookup_lt_is_Some_2 views i Hi) as [view ->].
  destruct (call_getMinMax_returns indices 1 (Some (View.indexOffset view))
              (Some (View.indexCount view))) as [mm Hmm]; [lia|].
  cbn [property_of mbind Outcome_bind]. rewrite Hmm. reflexivity.
Qed.

Lemma views_loop_throws indices views lay hasVertexColors useBatchIds batchIdSemantic :
  views ≠ [] →
  for_loop (viewBody indices views lay hasVertexColors useBatchIds batchIdSemantic)
           0 (length views) ViewsState.init
  = Throw 166 (TypeError "indexAccessors.push is not a function").
Proof.
  intros Hviews. destruct views as [|view views]; [done|].
  cbn [length for_loop]. rewrite viewBody_throws; [done | simpl; lia].
Qed.

Section CreateGltfOutcome.
Context `{MeshMethods}.

(** [createGltf] never gets as far as the asset description: whatever
    the options and the mesh, one statement throws. *)
Lemma buildGltf_outcome options center mesh hasVertexColors :
  buildGltf options center mesh hasVertexColors =
    if decide (Mesh.positions mesh = []) then
      match integerWriteError mesh hasVertexColors
              (defaultValue (Options.useBatchIds options) true) with
      | Some (line, value) => Throw line (RangeError "ERR_OUT_OF_RANGE" value)
      | None =>
          if decide (Mesh.views mesh = []) then
            Throw 247 (ReferenceError "positionsMinMax is not defined")
          else Throw 166 (TypeError "indexAccessors.push is not a function")
      end
    else Throw 79 (ReferenceError "position is not defined").
Proof.
  unfold buildGltf. case_decide as Hpos.
  - pose proof (encodeAttributes_no_position mesh hasVertexColors
                  (defaultValue (Options.useBatchIds options) true) Hpos) as Henc.
    destruct (integerWriteError mesh hasVertexColors
                (defaultValue (Options.useBatchIds options) true)) as [[line value]|].
    + by rewrite Henc.
    + destruct Henc as (enc & -> & _).
      cbn [mbind Outcome_bind]. case_decide as Hviews.
      * rewrite Hviews. reflexivity.
      * rewrite views_loop_throws by done. reflexivity.
  - rewrite encodeAttributes_positions by done. reflexivity.
Qed.

Variable GLB : Type.
Variable gltfToGlb : Gltf.t → GLB.

Lemma createGltf_mesh options mesh :
  fst (createGltf GLB gltfToGlb options mesh) =
    if defaultValue (Options.relativeToCenter options) false
    then Mesh_recentered mesh else mesh.
Proof.
  unfold createGltf.
  by destruct (defaultValue (Options.relativeToCenter options) false).
Qed.

Lemma createGltf_outcome options mesh :
  snd (createGltf GLB gltfToGlb options mesh) =
    if decide (Mesh.positions (fst (createGltf GLB gltfToGlb options mesh)) = []) then
      match integerWriteError (fst (createGltf GLB gltfToGlb options mesh))
              (hasVertexColorsOf (Mesh.vertexColors mesh))
              (defaultValue (Options.useBatchIds options) true) with
      | Some (line, value) => Throw line (RangeError "ERR_OUT_OF_RANGE" value)
      | None =>
          if decide (Mesh.views mesh = []) then
            Throw 247 (ReferenceError "positionsMinMax is not defined")
          else Throw 166 (TypeError "indexAccessors.push is not a function")
      end
    else Throw 79 (ReferenceError "position is not defined").
Proof.
  unfold createGltf.
  destruct (defaultValue (Options.relativeToCenter options) false);
    cbn [fst snd]; rewrite buildGltf_outcome; cbn [Mesh_recentered Mesh.views Mesh.positions];
    repeat case_decide; try done;
    by destruct (integerWriteError _ _ _) as [[? ?]|].
Qed.

End CreateGltfOutcome.

(** ** What the pieces of createGltf compute *)

(** An empty range leaves the two sentinels in every component. *)
Lemma getMinMax_empty_range array components start length :
  defaultValue length (List.length array) = 0 →
  getMinMax array components start length
  = Some (MinMax.mk (Array_fill components POSITIVE_INFINITY)
                    (Array_fill components NEGATIVE_INFINITY)).
Proof. intros Hlen. unfold getMinMax. rewrite Hlen. reflexivity. Qed.

(** With a single component the one column is the whole range. *)
Lemma elem_of_column_scalar indices view x :
  x ∈ column indices 1 (View.indexOffset view) (View.indexCount view) 0
  ↔ x ∈ viewIndices indices view.
Proof.
  unfold column, viewIndices. rewrite !list_elem_of_fmap.
  split; intros (k & -> & Hk); exists k; (split; [done|]).
  - by apply list_elem_of_filter in Hk as [_ Hk].
  - apply list_elem_of_filter. split; [apply Nat.mod_1_r | done].
Qed.

(** The accessor that lines 165-174 build for a view: its count, its
    byte offset, and extrema taken over the indices of the view only. *)
Lemma indexAccessorOf_scoped indices view lay :
  (∀ k, View.indexOffset view ≤ k < View.indexOffset view + View.indexCount view →
        array_get indices k ≠ NaN) →
  ∃ mm, getMinMax indices 1 (Some (View.indexOffset view)) (Some (View.indexCount view))
        = Some mm ∧
    Accessor.count (indexAccessorOf lay view mm) = View.indexCount view ∧
    Accessor.byteOffset (indexAccessorOf lay view mm) = sizeOfUint16 * View.indexOffset view ∧
    is_minimum (array_get (Accessor.min (indexAccessorOf lay view mm)) 0)
               (viewIndices indices view) ∧
    is_maximum (array_get (Accessor.max (indexAccessorOf lay view mm)) 0)
               (viewIndices indices view).
Proof.
  intros Hnum.
  destruct (getMinMax_whole_tuples indices 1 (Some (View.indexOffset view))
              (Some (View.indexCount view)) (View.indexCount view))
    as (mm & Hmm & _ & _ & Hext).
  { simpl. lia. }
  { simpl. intros k Hk. apply Hnum. lia. }
  exists mm. split; [done|]. split; [done|]. split; [done|].
  destruct (Hext 0) as [Hmin Hmax]; [lia|].
  simpl in Hmin, Hmax. rewrite Nat.mul_1_r in Hmin, Hmax. split.
  - eapply is_minimum_same_elements; [|exact Hmin]. apply elem_of_column_scalar.
  - eapply is_maximum_same_elements; [|exact Hmax]. apply elem_of_column_scalar.
Qed.

(** Line 54: the mesh has vertex colors unless every element is [0]. *)
Lemma hasVertexColorsOf_false vertexColors :
  hasVertexColorsOf vertexColors = false
  ↔ ∀ element, element ∈ vertexColors → Number_eqb element (num 0) = true.
Proof.
  unfold hasVertexColorsOf. rewrite negb_false_iff, forallb_forall.
  split; intros Hall element Hin; apply Hall; by apply list_elem_of_In.
Qed.

(** Lines 127-159: the segments follow one another in the buffer, each
    offset being the total of the lengths before it; a stream that is
    left out has an empty segment. *)
Lemma layoutOf_contiguous enc (hasVertexColors useBatchIds : bool) :
  (hasVertexColors = false → Encoded.vertexColorBuffer enc = []) →
  (useBatchIds = false → Encoded.batchIdBuffer enc = []) →
  let lay := layoutOf enc hasVertexColors useBatchIds in
  Layout.buffer lay =
    Encoded.positionBuffer enc ++ Encoded.normalBuffer enc ++ Encoded.uvBuffer enc ++
    Encoded.vertexColorBuffer enc ++ Encoded.batchIdBuffer enc ++ Encoded.indexBuffer enc ∧
  Layout.positionBufferByteOffset lay = 0 ∧
  Layout.normalBufferByteOffset lay =
    Layout.positionBufferByteOffset lay + length (Encoded.positionBuffer enc) ∧
  Layout.uvBufferByteOffset lay =
    Layout.normalBufferByteOffset lay + length (Encoded.normalBuffer enc) ∧
  Layout.vertexColorBufferByteOffset lay =
    Layout.uvBufferByteOffset lay + length (Encoded.uvBuffer enc) ∧
  Layout.batchIdBufferByteOffset lay =
    Layout.vertexColorBufferByteOffset lay + length (Encoded.vertexColorBuffer enc) ∧
  Layout.indexBufferByteOffset lay =
    Layout.batchIdBufferByteOffset lay + length (Encoded.batchIdBuffer enc) ∧
  Layout.byteLength lay =
    Layout.indexBufferByteOffset lay + length (Encoded.indexBuffer enc).
Proof.
  intros Hvc Hbatch. unfold layoutOf, Buffer_concat. cbn -[Nat.add].
  rewrite app_nil_r, !length_app.
  destruct hasVertexColors, useBatchIds;
    rewrite ?Hvc, ?Hbatch by done; cbn [length]; repeat split; lia.
Qed.

(** Lines 139-145: the buffer view indices run through the streams
    that are present. *)
Lemma layoutOf_indices enc (hasVertexColors useBatchIds : bool) :
  let lay := layoutOf enc hasVertexColors useBatchIds in
  Layout.positionBufferViewIndex lay = 0 ∧
  Layout.normalBufferViewIndex lay = 1 ∧
  Layout.uvBufferViewIndex lay = 2 ∧
  Layout.vertexColorBufferViewIndex lay = (if hasVertexColors then 3 else 0) ∧
  Layout.batchIdBufferViewIndex lay =
    (if useBatchIds then (if hasVertexColors then 4 else 3) else 0) ∧
  Layout.indexBufferViewIndex lay =
    3 + (if hasVertexColors then 1 else 0) + (if useBatchIds then 1 else 0).
Proof. by destruct hasVertexColors, useBatchIds. Qed.

(** Lines 304-348: one buffer view per stream that is present, lying
    one after the other and filling the buffer. *)
Lemma bufferViewsOf_contiguous enc (hasVertexColors useBatchIds : bool) :
  (hasVertexColors = false → Encoded.vertexColorBuffer enc = []) →
  (useBatchIds = false → Encoded.batchIdBuffer enc = []) →
  let lay := layoutOf enc hasVertexColors useBatchIds in
  let bufferViews := bufferViewsOf enc lay hasVertexColors useBatchIds in
  length bufferViews =
    4 + (if hasVertexColors then 1 else 0) + (if useBatchIds then 1 else 0) ∧
  contiguous_from 0 bufferViews ∧
  foldr (fun bv total => BufferView.byteLength bv + total) 0 bufferViews
  = Layout.byteLength lay.
Proof.
  intros Hvc Hbatch.
  destruct (layoutOf_contiguous enc hasVertexColors useBatchIds Hvc Hbatch)
    as (_ & H0 & H1 & H2 & H3 & H4 & H5 & H6).
  cbv zeta. unfold bufferViewsOf.
  destruct hasVertexColors, useBatchIds;
    rewrite ?Hvc, ?Hbatch in * by done; cbn [length] in *;
    cbn [app length contiguous_from foldr BufferView.byteOffset BufferView.byteLength];
    (split; [done|]); (split; [repeat split; lia | lia]).
Qed.

Section CreateGltfNeverReturns.
Context `{MeshMethods}.
Variable GLB : Type.
Variable gltfToGlb : Gltf.t → GLB.

(** No options and no mesh make [createGltf] return. *)
Lemma createGltf_never_returns options mesh glb :
  snd (createGltf GLB gltfToGlb options mesh) ≠ Return glb.
Proof.
  rewrite createGltf_outcome.
  repeat case_decide; try done; by destruct (integerWriteError _ _ _) as [[? ?]|].
Qed.

(** Nor does it run forever: it throws. *)
Lemma createGltf_throws options mesh :
  ∃ line e, snd (createGltf GLB gltfToGlb options mesh) = Throw line e ∧ 79 ≤ line.
Proof.
  pose proof (createGltf_outcome GLB gltfToGlb options mesh) as Hout.
  assert (∀ m (hvc u : bool) line value,
            integerWriteError m hvc u = Some (line, value) → 79 ≤ line) as Hline.
  { intros m hvc u line value. unfold integerWriteError.
    repeat case_match; intros [= <- _]; lia. }
  repeat case_decide;
    try (destruct (integerWriteError _ _ _) as [[line value]|] eqn:Herr;
         [apply Hline in Herr|]);
    rewrite Hout; eexists _, _; (split; [done|]); lia.
Qed.

End CreateGltfNeverReturns.

(** ** The pieces of the asset description *)

(** Lines 176-203: a textured view adds one image and one texture, on
    the single sampler; a view of a flat color adds nothing, and keeps
    the [baseColorTexture] of the pass before. *)
Lemma baseColorStep_texture st uri :
  textures_ok st →
  ∃ images samplers textures,
    baseColorStep st (TextureUri uri)
      = Return ([num 1; num 1; num 1; num 1], Some uri, false,
                Some images, Some samplers, Some textures) ∧
    images = default [] (ViewsState.images st) ++ [Image.mk uri] ∧
    samplers = [defaultSampler] ∧
    textures = default [] (ViewsState.textures st)
                 ++ [Texture.mk 0 (length (default [] (ViewsState.images st)))] ∧
    textures_ok (ViewsState.mk (ViewsState.indexAccessors st) (ViewsState.materials st)
                   (ViewsState.primitives st) (Some images) (Some samplers) (Some textures)
                   (Some uri)).
Proof.
  intros [(Himg & Hsam & Htex) | (images & Himg & Hsam & Htex)];
    unfold baseColorStep; rewrite Himg.
  - rewrite Htex. eexists _, _, _. split; [reflexivity|].
    repeat split. right. by exists [Image.mk uri].
  - rewrite Htex, Hsam.
    exists (images ++ [Image.mk uri]), [defaultSampler],
           ((Texture.mk 0 <$> seq 0 (length images)) ++ [Texture.mk 0 (length images)]).
    cbn [property_of mbind Outcome_bind mret Outcome_ret default from_option].
    rewrite length_app. cbn [length].
    replace (length images + 1 - 1) with (length images) by lia.
    split; [reflexivity|]. repeat split. right.
    exists (images ++ [Image.mk uri]). repeat split.
    cbn [ViewsState.textures]. rewrite length_app. cbn [length].
    by rewrite Nat.add_1_r, seq_S, fmap_app.
Qed.

Lemma baseColorStep_color st color :
  baseColorStep st (Rgba color)
  = Return (color, ViewsState.baseColorTexture st,
            Number_ltb (array_get color 3) (num 1),
            ViewsState.images st, ViewsState.samplers st, ViewsState.textures st).
Proof. reflexivity. Qed.

(** Lines 217-229: a primitive has the attribute [COLOR_0] exactly when
    the mesh has vertex colors, and its batch ids under one name only. *)
Lemma attributesOf_COLOR_0 lay (hasVertexColors useBatchIds deprecated : bool) :
  attributesOf lay hasVertexColors useBatchIds
               (if deprecated then "BATCHID" else "_BATCHID") !! "COLOR_0"
  = (if hasVertexColors then Some (Layout.vertexColorBufferViewIndex lay) else None).
Proof. by destruct hasVertexColors, useBatchIds, deprecated. Qed.

Lemma attributesOf_batchId lay (hasVertexColors useBatchIds deprecated : bool) :
  attributesOf lay hasVertexColors useBatchIds
               (if deprecated then "BATCHID" else "_BATCHID")
    !! (if deprecated then "BATCHID" else "_BATCHID")
  = (if useBatchIds then Some (Layout.batchIdBufferViewIndex lay) else None) ∧
  attributesOf lay hasVertexColors useBatchIds
               (if deprecated then "BATCHID" else "_BATCHID")
    !! (if deprecated then "_BATCHID" else "BATCHID")
  = None.
Proof. by destruct hasVertexColors, useBatchIds, deprecated. Qed.

(** ** The call on a store *)

(** A statement followed by another: the second runs from the store the
    first leaves, unless the first throws or loops forever. *)
Lemma bind_run {A B} (m : Store.M A) (k : A → Store.M B) store store' a :
  m store = (store', Return a) → (m ≫= k) store = k a store'.
Proof. intros Hm. unfold mbind, Store.M_bind. by rewrite Hm. Qed.

Lemma bind_throw {A B} (m : Store.M A) (k : A → Store.M B) store store' line e :
  m store = (store', Throw line e) → (m ≫= k) store = (store', Throw line e).
Proof. intros Hm. unfold mbind, Store.M_bind. by rewrite Hm. Qed.

Lemma bind_diverge {A B} (m : Store.M A) (k : A → Store.M B) store store' :
  m store = (store', Diverge) → (m ≫= k) store = (store', Diverge).
Proof. intros Hm. unfold mbind, Store.M_bind. by rewrite Hm. Qed.

Lemma read_run {A} line name (kind : option Store.Cell → option A) l store a :
  kind (store !! l) = Some a →
  Store.read line name kind l store = (store, Return a).
Proof. intros Hk. unfold Store.read. by rewrite Hk. Qed.

Lemma Array_length_run line name array store elements :
  store !! array = Some (Store.NumberArray elements) →
  Store.Array_length line name array store = (store, Return (length elements)).
Proof.
  intros Hl. unfold Store.Array_length.
  by rewrite (bind_run _ _ _ _ _ (read_run _ _ Store.numbersOf _ _ elements
                                     ltac:(by rewrite Hl))).
Qed.

Lemma getElement_run line name array index store elements :
  store !! array = Some (Store.NumberArray elements) →
  Store.getElement line name array index store
  = (store, Return (array_get elements index)).
Proof.
  intros Hl. unfold Store.getElement.
  by rewrite (bind_run _ _ _ _ _ (read_run _ _ Store.numbersOf _ _ elements
                                     ltac:(by rewrite Hl))).
Qed.

Lemma setElement_run line name array index value store elements :
  store !! array = Some (Store.NumberArray elements) →
  Store.setElement line name array index value store
  = (<[array := Store.NumberArray (<[index := value]> elements)]> store, Return tt).
Proof.
  intros Hl. unfold Store.setElement.
  by rewrite (bind_run _ _ _ _ _ (read_run _ _ Store.numbersOf _ _ elements
                                     ltac:(by rewrite Hl))).
Qed.

(** The two objects allocated last. *)
Lemma lookup_last_but_one (store : Store.t) a b :
  (store ++ [a; b]) !! length store = Some a.
Proof. by apply list_lookup_middle. Qed.

Lemma lookup_last_of_two (store : Store.t) a b :
  (store ++ [a; b]) !! S (length store) = Some b.
Proof.
  replace (store ++ [a; b]) with ((store ++ [a]) ++ [b]) by by rewrite <- app_assoc.
  apply list_lookup_middle. rewrite length_app. simpl. lia.
Qed.

Lemma insert_last_but_one (store : Store.t) a b c :
  <[length store := c]> (store ++ [a; b]) = store ++ [c; b].
Proof. rewrite insert_app_r_alt by lia. by rewrite Nat.sub_diag. Qed.

Lemma insert_last_of_two (store : Store.t) a b c :
  <[S (length store) := c]> (store ++ [a; b]) = store ++ [a; c].
Proof.
  rewrite insert_app_r_alt by lia.
  by replace (S (length store) - length store) with 1 by lia.
Qed.

Lemma insert_last (store : Store.t) a c :
  <[length store := c]> (store ++ [a]) = store ++ [c].
Proof. rewrite insert_app_r_alt by lia. by rewrite Nat.sub_diag. Qed.

Lemma lookup_last (store : Store.t) a : (store ++ [a]) !! length store = Some a.
Proof. by apply list_lookup_middle. Qed.

(** One pass of the inner loop of [getMinMax] updates the two arrays
    as [getMinMax_component] says. *)
Lemma getMinMax_component_run store array elements components start i j mm :
  store !! array = Some (Store.NumberArray elements) →
  Store.getMinMax_component array (length store) (S (length store)) components start i j
    (store ++ [Store.NumberArray (MinMax.min mm); Store.NumberArray (MinMax.max mm)])
  = (let mm' := getMinMax_component elements components start i mm j in
     (store ++ [Store.NumberArray (MinMax.min mm'); Store.NumberArray (MinMax.max mm')],
      Return tt)).
Proof.
  intros Hl. unfold Store.getMinMax_component.
  erewrite bind_run by (apply getElement_run; by apply lookup_app_l_Some).
  erewrite bind_run by (apply getElement_run; apply lookup_last_but_one).
  erewrite bind_run by (apply setElement_run; apply lookup_last_but_one).
  rewrite insert_last_but_one.
  erewrite bind_run by (apply getElement_run; apply lookup_last_of_two).
  erewrite setElement_run by apply lookup_last_of_two.
  by rewrite insert_last_of_two.
Qed.

(** A loop whose passes are total and keep the store in some shape. *)
Lemma for_loop_shape {T} (body : nat → unit → Store.M unit) (f : T → nat → T)
    (shape : T → Store.t) i n s :
  (∀ i s, body i tt (shape s) = (shape (f s i), Return tt)) →
  Store.for_loop body i n tt (shape s) = (shape (foldl f s (seq i n)), Return tt).
Proof.
  intros Hbody. revert i s. induction n as [|n IH]; intros i s; [done|].
  cbn [Store.for_loop seq foldl]. rewrite (bind_run _ _ _ _ _ (Hbody i s)). apply IH.
Qed.

Lemma getMinMax_tuple_run store array elements components start i mm :
  store !! array = Some (Store.NumberArray elements) →
  Store.getMinMax_tuple array (length store) (S (length store)) components start i
    (store ++ [Store.NumberArray (MinMax.min mm); Store.NumberArray (MinMax.max mm)])
  = (let mm' := getMinMax_tuple elements components start i mm in
     (store ++ [Store.NumberArray (MinMax.min mm'); Store.NumberArray (MinMax.max mm')],
      Return tt)).
Proof.
  intros Hl. unfold Store.getMinMax_tuple, getMinMax_tuple.
  apply (for_loop_shape _ (getMinMax_component elements components start i)
           (fun mm => store ++ [Store.NumberArray (MinMax.min mm);
                                Store.NumberArray (MinMax.max mm)])).
  intros j mm'. by apply getMinMax_component_run.
Qed.

Lemma getMinMax_loop_run store array elements components start length fuel i mm :
  store !! array = Some (Store.NumberArray elements) →
  ∃ mm',
    Store.getMinMax_loop array (List.length store) (S (List.length store))
      components start length fuel i
      (store ++ [Store.NumberArray (MinMax.min mm); Store.NumberArray (MinMax.max mm)])
    = (store ++ [Store.NumberArray (MinMax.min mm'); Store.NumberArray (MinMax.max mm')],
       (fun _ => tt) <$> call_getMinMax
          (getMinMax_loop elements components start length fuel i mm)) ∧
    (∀ r, getMinMax_loop elements components start length fuel i mm = Some r → mm' = r).
Proof.
  intros Hl. revert i mm. induction fuel as [|fuel IH]; intros i mm.
  - exists mm. by split.
  - cbn [Store.getMinMax_loop getMinMax_loop].
    destruct (i * components <? length).
    + rewrite (bind_run _ _ _ _ _ (getMinMax_tuple_run _ _ _ _ _ _ _ Hl)).
      cbv zeta. apply IH.
    + exists mm. split; [done|]. by intros r [= <-].
Qed.

(** [getMinMax] on the array at a location returns what [getMinMax]
    returns on its elements, or loops forever where it does; it leaves
    the store as it was, two new arrays apart. *)
Lemma getMinMax_run store array elements components start length :
  store !! array = Some (Store.NumberArray elements) →
  ∃ min max,
    Store.getMinMax array components start length store
    = (store ++ [Store.NumberArray min; Store.NumberArray max],
       call_getMinMax (getMinMax elements components start length)) ∧
    (∀ mm, getMinMax elements components start length = Some mm →
           min = MinMax.min mm ∧ max = MinMax.max mm).
Proof.
  intros Hl. unfold Store.getMinMax, getMinMax.
  rewrite (bind_run _ _ _ _ _ (Array_length_run _ _ _ _ _ Hl)).
  unfold Store.alloc at 1. unfold mbind at 1, Store.M_bind at 1.
  unfold Store.alloc at 1. unfold mbind at 1, Store.M_bind at 1.
  rewrite length_app, <- app_assoc. cbn [List.length app]. rewrite Nat.add_1_r.
  set (start' := defaultValue start 0).
  set (length' := defaultValue length (List.length elements)).
  destruct (getMinMax_loop_run store array elements components start' length'
              (S length') 0
              (MinMax.mk (Array_fill components POSITIVE_INFINITY)
                         (Array_fill components NEGATIVE_INFINITY)) Hl)
    as (mm' & Hrun & Hres).
  cbn [MinMax.min MinMax.max] in Hrun.
  destruct (getMinMax_loop elements components start' length' (S length') 0 _)
    as [r|] eqn:Hloop.
  - specialize (Hres r eq_refl) as ->.
    rewrite (bind_run _ _ _ _ _ Hrun).
    erewrite bind_run by (apply read_run; by rewrite lookup_last_but_one).
    erewrite bind_run by (apply read_run; by rewrite lookup_last_of_two).
    exists (MinMax.min r), (MinMax.max r). split; [by destruct r|].
    by intros mm [= <-].
  - rewrite (bind_diverge _ _ _ _ Hrun). by eexists _, _.
Qed.

(** *** Rules for runs that keep a part of the store *)

Lemma refines_ret {A} (a : A) store base : Store.refines (mret a) store base (Return a).
Proof. intros [extra ->]. by exists extra. Qed.

Lemma refines_lift {A} (o : Outcome A) store base : Store.refines (Store.lift o) store base o.
Proof. intros [extra ->]. by exists extra. Qed.

Lemma refines_lift_bind {A B} (o : Outcome A) (k : A → Store.M B) (k' : A → Outcome B)
    store base :
  (∀ a, o = Return a → Store.refines (k a) store base (k' a)) →
  Store.refines (Store.lift o ≫= k) store base (o ≫= k').
Proof.
  intros Hk Hbase. destruct o as [a|line e|].
  - by apply (Hk a).
  - destruct Hbase as [extra ->]. by exists extra.
  - destruct Hbase as [extra ->]. by exists extra.
Qed.

Lemma refines_assoc {A B C} (m : Store.M A) (k : A → Store.M B) (k2 : B → Store.M C)
    store base o :
  Store.refines (m ≫= fun a => k a ≫= k2) store base o →
  Store.refines ((m ≫= k) ≫= k2) store base o.
Proof.
  intros Hm Hbase. destruct (Hm Hbase) as [extra Hrun]. exists extra.
  rewrite <- Hrun. unfold mbind, Store.M_bind.
  by destruct (m store) as [store' [a|line e|]].
Qed.

Lemma refines_run {A B} (m : Store.M A) (k : A → Store.M B) store store' base a o :
  m store = (store', Return a) →
  (base `prefix_of` store → base `prefix_of` store') →
  Store.refines (k a) store' base o →
  Store.refines (m ≫= k) store base o.
Proof.
  intros Hm Hpre Hk Hbase. rewrite (bind_run _ _ _ _ _ Hm). by apply Hk, Hpre.
Qed.

Lemma refines_read {A B} line name (kind : option Store.Cell → option A) l a
    (k : A → Store.M B) store base o :
  kind (store !! l) = Some a →
  Store.refines (k a) store base o →
  Store.refines (Store.read line name kind l ≫= k) store base o.
Proof. intros Hl. apply refines_run; [by apply read_run | done]. Qed.

Lemma refines_Array_length {B} line name array elements (k : nat → Store.M B)
    store base o :
  store !! array = Some (Store.NumberArray elements) →
  Store.refines (k (length elements)) store base o →
  Store.refines (Store.Array_length line name array ≫= k) store base o.
Proof. intros Hl. apply refines_run; [by apply Array_length_run | done]. Qed.

Lemma refines_alloc {B} cell (k : Store.loc → Store.M B) store base o :
  Store.refines (k (length store)) (store ++ [cell]) base o →
  Store.refines (Store.alloc cell ≫= k) store base o.
Proof.
  apply refines_run; [done|]. intros Hbase. by apply prefix_app_r.
Qed.

Lemma fmap_bind_Outcome {A B C} (f : A → B) (o : Outcome A) (k : B → Outcome C) :
  (f <$> o) ≫= k = o ≫= (fun a => k (f a)).
Proof. by destruct o. Qed.

(** A call of [getMinMax] with a positive number of components. *)
Lemma refines_getMinMax {B} array elements components start length
    (k : MinMax.t → Store.M B) (k' : MinMax.t → Outcome B) store base :
  store !! array = Some (Store.NumberArray elements) →
  (∀ mm min max,
     Store.refines (k mm) (store ++ [Store.NumberArray min; Store.NumberArray max])
                   base (k' mm)) →
  Store.refines (Store.getMinMax array components start length ≫= k) store base
                (call_getMinMax (getMinMax elements components start length) ≫= k').
Proof.
  intros Hl Hk Hbase.
  destruct (getMinMax_run store array elements components start length Hl)
    as (min & max & Hrun & _).
  destruct (call_getMinMax (getMinMax elements components start length))
    as [mm|line e|].
  - rewrite (bind_run _ _ _ _ _ Hrun). by apply Hk, prefix_app_r.
  - rewrite (bind_throw _ _ _ _ _ _ Hrun). destruct Hbase as [extra ->].
    eexists. by rewrite <- app_assoc.
  - rewrite (bind_diverge _ _ _ _ Hrun). destruct Hbase as [extra ->].
    eexists. by rewrite <- app_assoc.
Qed.

(** A loop that writes the elements of an array into the buffer
    allocated last. *)
Lemma for_loop_write_run store array elements line name line' name'
    (method : list Byte → Number → nat → Outcome (list Byte)) i n bytes :
  store !! array = Some (Store.NumberArray elements) →
  ∃ bytes',
    Store.for_loop (fun i _ =>
                      value ← Store.getElement line name array i;
                      Store.Buffer_write line' name' (length store)
                        (fun bytes => method bytes value i))
                   i n tt (store ++ [Store.Buffer bytes])
    = (store ++ [Store.Buffer bytes'],
       (fun _ => tt) <$> for_loop (fun i bytes => method bytes (array_get elements i) i)
                                  i n bytes) ∧
    (∀ b, for_loop (fun i bytes => method bytes (array_get elements i) i) i n bytes
          = Return b → bytes' = b).
Proof.
  intros Hl. revert i bytes. induction n as [|n IH]; intros i bytes.
  - exists bytes. split; [done|]. by intros b [= <-].
  - cbn [Store.for_loop for_loop].
    assert (∀ (o : Outcome (list Byte)),
              (value ← Store.getElement line name array i;
               Store.Buffer_write line' name' (length store)
                 (fun bytes => method bytes value i)) (store ++ [Store.Buffer bytes])
              = match method bytes (array_get elements i) i with
                | Return b => (store ++ [Store.Buffer b], Return tt)
                | Throw l e => (store ++ [Store.Buffer bytes], Throw l e)
                | Diverge => (store ++ [Store.Buffer bytes], Diverge)
                end) as Hbody.
    { intros _.
      erewrite bind_run by (apply getElement_run; by apply lookup_app_l_Some).
      unfold Store.Buffer_write.
      erewrite bind_run by (apply read_run; by rewrite lookup_last).
      unfold Store.lift at 1. unfold mbind at 1, Store.M_bind at 1.
      destruct (method bytes (array_get elements i) i); [|done..].
      unfold Store.write. by rewrite insert_last. }
    specialize (Hbody Diverge).
    destruct (method bytes (array_get elements i) i) as [b|l e|].
    + rewrite (bind_run _ _ _ _ _ Hbody). apply IH.
    + rewrite (bind_throw _ _ _ _ _ _ Hbody). exists bytes. by split.
    + rewrite (bind_diverge _ _ _ _ Hbody). exists bytes. by split.
Qed.

Lemma refines_write_loop {B} array elements line name line' name'
    (method : list Byte → Number → nat → Outcome (list Byte)) n bytes
    (k : unit → Store.M B) (k' : list Byte → Outcome B) store base :
  store !! array = Some (Store.NumberArray elements) →
  base `prefix_of` store →
  (∀ bytes', Store.refines (k tt) (store ++ [Store.Buffer bytes']) base (k' bytes')) →
  Store.refines
    (Store.for_loop (fun i _ =>
                       value ← Store.getElement line name array i;
                       Store.Buffer_write line' name' (length store)
                         (fun bytes => method bytes value i))
                    0 n tt ≫= k)
    (store ++ [Store.Buffer bytes]) base
    (for_loop (fun i bytes => method bytes (array_get elements i) i) 0 n bytes ≫= k').
Proof.
  intros Hl Hbase Hk _.
  destruct (for_loop_write_run store array elements line name line' name' method
              0 n bytes Hl) as (bytes' & Hrun & Hres).
  destruct (for_loop (fun i bytes => method bytes (array_get elements i) i) 0 n bytes)
    as [b|l e|].
  - rewrite (Hres b eq_refl) in Hrun. rewrite (bind_run _ _ _ _ _ Hrun).
    by apply Hk, prefix_app_r.
  - rewrite (bind_throw _ _ _ _ _ _ Hrun). destruct Hbase as [extra ->].
    eexists. by rewrite <- app_assoc.
  - rewrite (bind_diverge _ _ _ _ Hrun). destruct Hbase as [extra ->].
    eexists. by rewrite <- app_assoc.
Qed.

Lemma for_loop_total {S} (f : S → nat → S) i n (s : S) :
  for_loop (fun i s => Return (f s i)) i n s = Return (foldl f s (seq i n)).
Proof.
  revert i s. induction n as [|n IH]; intros i s; [done|].
  cbn [for_loop seq foldl mbind Outcome_bind]. apply IH.
Qed.

(** The same for the writes of floats, which cannot throw. *)
Lemma refines_writeFloatLE_loop {B} array elements line name line' name' n bytes
    (k : unit → Store.M B) store base o :
  store !! array = Some (Store.NumberArray elements) →
  base `prefix_of` store →
  Store.refines (k tt)
    (store ++ [Store.Buffer
                 (foldl (fun buf i =>
                           writeFloatLE buf (array_get elements i) (i * sizeOfFloat32))
                        bytes (seq 0 n))])
    base o →
  Store.refines
    (Store.for_loop (fun i _ =>
                       value ← Store.getElement line name array i;
                       Store.Buffer_write line' name' (length store)
                         (fun bytes => Return (writeFloatLE bytes value (i * sizeOfFloat32))))
                    0 n tt ≫= k)
    (store ++ [Store.Buffer bytes]) base o.
Proof.
  intros Hl Hbase Hk _.
  destruct (for_loop_write_run store array elements line name line' name'
              (fun bytes value i => Return (writeFloatLE bytes value (i * sizeOfFloat32)))
              0 n bytes Hl) as (bytes' & Hrun & Hres).
  rewrite (for_loop_total
             (fun buf i => writeFloatLE buf (array_get elements i) (i * sizeOfFloat32)))
    in Hrun, Hres.
  specialize (Hres _ eq_refl). subst bytes'.
  rewrite (bind_run _ _ _ _ _ Hrun). by apply Hk, prefix_app_r.
Qed.

Lemma refines_ret_bind {A B} (a : A) (k : A → Store.M B) store base o :
  Store.refines (k a) store base o →
  Store.refines (mret a ≫= k) store base o.
Proof. by apply refines_run. Qed.

Lemma Outcome_bind_Return {A B} (a : A) (k : A → Outcome B) : Return a ≫= k = k a.
Proof. done. Qed.

(** A loop whose body starts by reading an identifier that is not
    declared: it throws in its first pass, if it has one. *)
Lemma refines_undeclared_loop {B} line name (body : list Number → nat → Store.M unit)
    (body' : list Number → nat → list Byte → Outcome (list Byte)) n bytes
    (k : unit → Store.M B) (k' : list Byte → Outcome B) store base :
  Store.refines (k tt) store base (k' bytes) →
  Store.refines
    (Store.for_loop (fun i _ => position ← Store.lift (undeclared line name);
                                body position i) 0 n tt ≫= k)
    store base
    (for_loop (fun i buf => position ← undeclared line name; body' position i buf)
              0 n bytes ≫= k').
Proof.
  intros Hk. destruct n as [|n].
  - by apply refines_ret_bind.
  - intros [extra ->]. by exists extra.
Qed.

Lemma refines_read_bytes {B} line name l bytes (k : list Byte → Store.M B)
    store base o :
  store !! l = Some (Store.Buffer bytes) →
  Store.refines (k bytes) store base o →
  Store.refines (Store.read line name Store.bytesOf l ≫= k) store base o.
Proof. intros Hl. apply refines_read. by rewrite Hl. Qed.

Lemma refines_read_views {B} line name l views (k : list View.t → Store.M B)
    store base o :
  store !! l = Some (Store.ViewArray views) →
  Store.refines (k views) store base o →
  Store.refines (Store.read line name Store.viewsOf l ≫= k) store base o.
Proof. intros Hl. apply refines_read. by rewrite Hl. Qed.

(** The encoding of the streams on the store: the outcome is that of
    [encodeAttributes] on the contents of the arrays, and the objects
    that were in the store are left as they were. *)
Lemma encodeAttributes_refines store mesh object snapshot
    (hasVertexColors useBatchIds : bool) :
  Store.holds store mesh object snapshot →
  Store.refines (Store.encodeAttributes object hasVertexColors useBatchIds) store store
                (encodeAttributes snapshot hasVertexColors useBatchIds).
Proof.
  intros (Hmesh & Hpositions & Hnormals & Huvs & Hcolors & Hbatch & Hindices & Hviews).
  unfold Store.encodeAttributes, encodeAttributes. cbv zeta.
  apply refines_getMinMax with (elements := Mesh.positions snapshot); [done|].
  intros positionMinMax min1 max1.
  eapply refines_Array_length; [store_lookup|].
  apply refines_alloc.
  apply (refines_undeclared_loop 79 "position"
           (fun position i => Store.Buffer_write 79 "positionBuffer" _ _)
           (fun position i buf => mret _)).
  eapply refines_getMinMax; [store_lookup|]. intros normalsMinMax min2 max2.
  eapply refines_Array_length; [store_lookup|].
  apply refines_alloc.
  eapply refines_writeFloatLE_loop; [store_lookup | store_prefix |].
  eapply refines_getMinMax; [store_lookup|]. intros uvsMinMax min3 max3.
  eapply refines_Array_length; [store_lookup|].
  apply refines_alloc.
  eapply refines_writeFloatLE_loop; [store_lookup | store_prefix |].
  apply refines_alloc.
  destruct hasVertexColors;
    [ apply refines_assoc; rewrite fmap_bind_Outcome;
      (eapply refines_getMinMax; [store_lookup|]); intros vertexColorsMinMax min4 max4;
      apply refines_assoc; (eapply refines_Array_length; [store_lookup|]);
      apply refines_assoc; apply refines_alloc; apply refines_assoc;
      (eapply (refines_write_loop _ _ _ _ _ _
                 (fun bytes value i => writeUInt8 103 bytes value i));
         [store_lookup | store_prefix |]);
      intros vertexColorBuffer; apply refines_ret_bind; cbv beta iota
    | apply refines_ret_bind; cbv beta iota; rewrite !Outcome_bind_Return ];
    apply refines_alloc;
    ( destruct useBatchIds;
      [ apply refines_assoc; rewrite fmap_bind_Outcome;
        (eapply refines_getMinMax; [store_lookup|]); intros batchIdsMinMax min5 max5;
        apply refines_assoc; (eapply refines_Array_length; [store_lookup|]);
        apply refines_assoc; apply refines_alloc; apply refines_assoc;
        (eapply (refines_write_loop _ _ _ _ _ _
                   (fun bytes value i =>
                      writeUInt16LE 115 bytes value (i * sizeOfUint16)));
           [store_lookup | store_prefix |]);
        intros batchIdBuffer; apply refines_ret_bind; cbv beta iota
      | apply refines_ret_bind; cbv beta iota; rewrite !Outcome_bind_Return ] );
    (eapply refines_Array_length; [store_lookup|]);
    apply refines_alloc;
    (eapply (refines_write_loop _ _ _ _ _ _
               (fun bytes value i => writeUInt16LE 122 bytes value (i * sizeOfUint16)));
       [store_lookup | store_prefix |]);
    intros indexBuffer;
    do 6 (eapply refines_read_bytes; [store_lookup|]);
    apply refines_ret.
Qed.

Lemma refines_weaken {A} (m : Store.M A) store base o :
  base `prefix_of` store →
  Store.refines m store store o → Store.refines m store base o.
Proof.
  intros [extra ->] Hm _. destruct (Hm (reflexivity _)) as [extra' Hrun].
  exists (extra ++ extra'). by rewrite app_assoc.
Qed.

Lemma refines_sync {A B} (m : Store.M A) (o : Outcome A) (k : A → Store.M B)
    (k' : A → Outcome B) store base :
  Store.refines m store store o →
  (∀ a extra, Store.refines (k a) (store ++ extra) base (k' a)) →
  Store.refines (m ≫= k) store base (o ≫= k').
Proof.
  intros Hm Hk Hbase. destruct (Hm (reflexivity _)) as [extra Hrun].
  destruct o as [a|line e|].
  - rewrite (bind_run _ _ _ _ _ Hrun). by apply Hk, prefix_app_r.
  - rewrite (bind_throw _ _ _ _ _ _ Hrun). destruct Hbase as [extra' ->].
    eexists. by rewrite <- app_assoc.
  - rewrite (bind_diverge _ _ _ _ Hrun). destruct Hbase as [extra' ->].
    eexists. by rewrite <- app_assoc.
Qed.

Lemma for_loop_refines {S} (body : nat → S → Store.M S) (body' : nat → S → Outcome S)
    (P : Store.t → Prop) :
  (∀ store extra, P store → P (store ++ extra)) →
  (∀ i s store, P store → Store.refines (body i s) store store (body' i s)) →
  ∀ n i s store, P store →
    Store.refines (Store.for_loop body i n s) store store (for_loop body' i n s).
Proof.
  intros Hstable Hbody. induction n as [|n IH]; intros i s store HP.
  - apply refines_ret.
  - cbn [Store.for_loop for_loop]. apply refines_sync; [by apply Hbody|].
    intros s' extra. apply refines_weaken; [by apply prefix_app_r|].
    by apply IH, Hstable.
Qed.

Lemma holds_app store extra mesh object snapshot :
  Store.holds store mesh object snapshot →
  Store.holds (store ++ extra) mesh object snapshot.
Proof.
  intros (? & ? & ? & ? & ? & ? & ? & ?).
  repeat split; by apply lookup_app_l_Some.
Qed.

(** One pass of the loop over the views. *)
Lemma viewBody_refines store mesh object snapshot lay (hasVertexColors useBatchIds : bool)
    batchIdSemantic i st :
  Store.holds store mesh object snapshot →
  Store.refines
    (Store.viewBody (Store.MeshObject.indices object) (Store.MeshObject.views object)
       lay hasVertexColors useBatchIds batchIdSemantic i st)
    store store
    (viewBody (Mesh.indices snapshot) (Mesh.views snapshot)
       lay hasVertexColors useBatchIds batchIdSemantic i st).
Proof.
  intros (Hmesh & Hpositions & Hnormals & Huvs & Hcolors & Hbatch & Hindices & Hviews).
  unfold Store.viewBody, viewBody.
  eapply refines_read_views; [done|].
  apply refines_lift_bind. intros view _.
  eapply refines_getMinMax; [done|]. intros indicesMinMax min max.
  apply refines_lift.
Qed.

Section StoreCreateGltf.
Context `{MeshMethods}.

Lemma readMesh_run line store mesh object snapshot :
  Store.holds store mesh object snapshot →
  Store.readMesh line mesh store = (store, Return snapshot).
Proof.
  intros (Hmesh & Hpositions & Hnormals & Huvs & Hcolors & Hbatch & Hindices & Hviews).
  unfold Store.readMesh.
  erewrite bind_run by (apply read_run; by rewrite Hmesh).
  erewrite bind_run by (apply read_run; by rewrite Hpositions).
  erewrite bind_run by (apply read_run; by rewrite Hnormals).
  erewrite bind_run by (apply read_run; by rewrite Huvs).
  erewrite bind_run by (apply read_run; by rewrite Hcolors).
  erewrite bind_run by (apply read_run; by rewrite Hbatch).
  erewrite bind_run by (apply read_run; by rewrite Hindices).
  erewrite bind_run by (apply read_run; by rewrite Hviews).
  by destruct snapshot.
Qed.

Lemma vertexAccessorsOf_throws enc lay (hasVertexColors useBatchIds : bool)
    vertexCount batchIdsLength :
  vertexAccessorsOf enc lay hasVertexColors useBatchIds vertexCount batchIdsLength
  = Throw 247 (ReferenceError "positionsMinMax is not defined").
Proof. reflexivity. Qed.

(** Lines 63-394 on the store: the outcome is that of [buildGltf] on
    the contents of the arrays, and no object that was in the store is
    written to. *)
Lemma buildGltf_refines store mesh object snapshot options center hasVertexColors :
  Store.holds store mesh object snapshot →
  Store.refines (Store.buildGltf options center mesh object hasVertexColors) store store
                (buildGltf options center snapshot hasVertexColors).
Proof.
  intros Hholds. unfold Store.buildGltf, buildGltf. cbv zeta.
  apply refines_sync; [by eapply encodeAttributes_refines|].
  intros enc extra.
  pose proof (holds_app _ extra _ _ _ Hholds) as Hholds'.
  rewrite !vertexAccessorsOf_throws.
  destruct (defaultValue (Options.useBatchIds options) true);
    [ eapply refines_Array_length; [by destruct Hholds' as (_&_&_&_&_&?&_)|]
    | apply refines_ret_bind ];
    ( unfold Store.getVertexCount; apply refines_assoc;
      (eapply refines_run; [by eapply readMesh_run | done |]);
      apply refines_ret_bind; apply refines_alloc;
      (eapply refines_read_views;
         [apply lookup_app_l_Some; by destruct Hholds' as (_&_&_&_&_&_&_&?)|]);
      (apply refines_weaken; [store_prefix|]);
      apply refines_sync;
      [ apply for_loop_refines
          with (P := fun store => Store.holds store mesh object snapshot);
        [ intros; by apply holds_app
        | intros; by eapply viewBody_refines
        | by apply holds_app ]
      | intros st extra'; rewrite vertexAccessorsOf_throws;
        intros [extra'' ->]; by exists extra'' ] ).
Qed.

Lemma bind_mret_run {A B} (m : Store.M A) (f : A → B) store store' o :
  m store = (store', o) →
  (m ≫= fun a => mret (f a)) store = (store', f <$> o).
Proof. intros Hm. unfold mbind, Store.M_bind. rewrite Hm. by destruct o. Qed.

(** The store once the positions have been overwritten still holds a
    mesh: the one whose positions are the new ones, as is every stream
    that shares its array with the positions. *)
Lemma holds_recentered store mesh object snapshot positions :
  Store.holds store mesh object snapshot →
  ∃ snapshot',
    Store.holds (<[Store.MeshObject.positions object := Store.NumberArray positions]> store)
                mesh object snapshot' ∧
    (Store.positions_unshared object →
     snapshot' = Mesh.mk positions (Mesh.normals snapshot) (Mesh.uvs snapshot)
                   (Mesh.vertexColors snapshot) (Mesh.batchIds snapshot)
                   (Mesh.indices snapshot) (Mesh.views snapshot)).
Proof.
  intros (Hmesh & Hpositions & Hnormals & Huvs & Hcolors & Hbatch & Hindices & Hviews).
  set (p := Store.MeshObject.positions object) in *.
  assert (∀ f elements,
            store !! f = Some (Store.NumberArray elements) →
            <[p := Store.NumberArray positions]> store !! f
            = Some (Store.NumberArray (if decide (f = p) then positions else elements)))
    as Harray.
  { intros f elements Hf. rewrite list_lookup_insert.
    apply lookup_lt_Some in Hpositions.
    destruct (decide (f = p)) as [->|Hne].
    - by rewrite decide_True.
    - rewrite decide_False; [done|]. by intros [-> _]. }
  assert (∀ f cell,
            store !! f = Some cell → (∀ elements, cell ≠ Store.NumberArray elements) →
            <[p := Store.NumberArray positions]> store !! f = Some cell) as Hother.
  { intros f cell Hf Hcell. rewrite list_lookup_insert_ne; [done|].
    intros Heq. rewrite <- Heq in Hf. rewrite Hpositions in Hf. injection Hf as <-. by eapply Hcell. }
  exists (Mesh.mk positions
            (if decide (Store.MeshObject.normals object = p)
             then positions else Mesh.normals snapshot)
            (if decide (Store.MeshObject.uvs object = p)
             then positions else Mesh.uvs snapshot)
            (if decide (Store.MeshObject.vertexColors object = p)
             then positions else Mesh.vertexColors snapshot)
            (if decide (Store.MeshObject.batchIds object = p)
             then positions else Mesh.batchIds snapshot)
            (if decide (Store.MeshObject.indices object = p)
             then positions else Mesh.indices snapshot)
            (Mesh.views snapshot)).
  split.
  - repeat split; cbn [Mesh.positions Mesh.normals Mesh.uvs Mesh.vertexColors
                       Mesh.batchIds Mesh.indices Mesh.views].
    + by apply Hother.
    + fold p. rewrite (Harray p _ Hpositions). by rewrite decide_True.
    + by apply Harray.
    + by apply Harray.
    + by apply Harray.
    + by apply Harray.
    + by apply Harray.
    + by apply Hother.
  - unfold Store.positions_unshared. fold p. intros Hunshared.
    rewrite !not_elem_of_cons in Hunshared.
    destruct Hunshared as (? & ? & ? & ? & ? & _).
    by rewrite !decide_False by done.
Qed.

(** Lines 59-60 on the store: the center is computed, and the array of
    the positions is overwritten. *)
Lemma getCenter_run line store mesh object snapshot :
  Store.holds store mesh object snapshot →
  Store.getCenter line mesh store = (store, Return (getCenter snapshot)).
Proof.
  intros Hholds. unfold Store.getCenter.
  by rewrite (bind_run _ _ _ _ _ (readMesh_run line _ _ _ _ Hholds)).
Qed.

Lemma setPositionsRelativeToCenter_run line store mesh object snapshot :
  Store.holds store mesh object snapshot →
  Store.setPositionsRelativeToCenter line mesh store
  = (<[Store.MeshObject.positions object
       := Store.NumberArray (setPositionsRelativeToCenter snapshot)]> store,
     Return tt).
Proof.
  intros Hholds. unfold Store.setPositionsRelativeToCenter.
  rewrite (bind_run _ _ _ _ _ (readMesh_run line _ _ _ _ Hholds)).
  erewrite bind_run by (apply read_run; by destruct Hholds as [-> _]).
  reflexivity.
Qed.

Lemma recenter_run store mesh object snapshot :
  Store.holds store mesh object snapshot →
  (center ← Store.getCenter 59 mesh;
   Store.setPositionsRelativeToCenter 60 mesh;;
   mret (Some center)) store
  = (<[Store.MeshObject.positions object
       := Store.NumberArray (setPositionsRelativeToCenter snapshot)]> store,
     Return (Some (getCenter snapshot))).
Proof.
  intros Hholds.
  rewrite (bind_run _ _ _ _ _ (getCenter_run 59 _ _ _ _ Hholds)).
  by rewrite (bind_run _ _ _ _ _ (setPositionsRelativeToCenter_run 60 _ _ _ _ Hholds)).
Qed.

Variable GLB : Type.
Variable gltfToGlb : Gltf.t → GLB.

(** [createGltf] on a store that holds the mesh: the store it leaves is
    the one it found, with the positions overwritten if
    [relativeToCenter] is set, followed by the objects it allocated;
    its outcome is that of lines 63-394 on the mesh as the store then
    holds it. *)
Lemma createGltf_run options store mesh object snapshot :
  Store.holds store mesh object snapshot →
  ∃ extra snapshot',
    Store.createGltf GLB gltfToGlb options mesh store
    = ((if defaultValue (Options.relativeToCenter options) false
        then <[Store.MeshObject.positions object
               := Store.NumberArray (setPositionsRelativeToCenter snapshot)]> store
        else store) ++ extra,
       gltfToGlb <$>
         buildGltf options
           (if defaultValue (Options.relativeToCenter options) false
            then Some (getCenter snapshot) else None)
           snapshot' (hasVertexColorsOf (Mesh.vertexColors snapshot))) ∧
    Store.holds (Store.createGltf GLB gltfToGlb options mesh store).1
                mesh object snapshot' ∧
    (Store.positions_unshared object →
     snapshot' = (createGltf GLB gltfToGlb options snapshot).1).
Proof.
  intros Hholds. unfold Store.createGltf, createGltf. cbv zeta.
  erewrite bind_run by (apply read_run; by destruct Hholds as [-> _]).
  erewrite bind_run by (apply read_run; by destruct Hholds as (_&_&_&_&->&_)).
  destruct (defaultValue (Options.relativeToCenter options) false).
  - rewrite (bind_run _ _ _ _ _ (recenter_run _ _ _ _ Hholds)).
    destruct (holds_recentered _ _ _ _ (setPositionsRelativeToCenter snapshot) Hholds)
      as (snapshot' & Hholds' & Hunshared).
    destruct (buildGltf_refines _ _ _ _ options (Some (getCenter snapshot))
                (hasVertexColorsOf (Mesh.vertexColors snapshot)) Hholds'
                (reflexivity _)) as [extra Hrun].
    exists extra, snapshot'.
    rewrite (bind_mret_run _ gltfToGlb _ _ _ Hrun).
    split; [done|]. split; [by apply holds_app|done].
  - rewrite (bind_run (A:=option Cartesian3.t) (mret None) _ store store None eq_refl).
    destruct (buildGltf_refines _ _ _ _ options None
                (hasVertexColorsOf (Mesh.vertexColors snapshot)) Hholds
                (reflexivity _)) as [extra Hrun].
    exists extra, snapshot.
    rewrite (bind_mret_run _ gltfToGlb _ _ _ Hrun).
    split; [done|]. split; [by apply holds_app|done].
Qed.

End StoreCreateGltf.
(** ** The claims *)

(** C1 (the code does not get there).  Every view is to have its own
    index accessor: the count of the view, its index offset times two
    bytes, extrema over the indices of the view only.  On the quad the
    accessor built for the second view is such a one (count 3, byte
    offset 6, extrema 1 and 3 where the whole buffer has 0 and 3), yet
    no accessor is emitted: [createGltf] throws at line 79, and at
    line 166 once the positions are taken away. *)
Theorem createGltf_emits_no_index_accessor :
  snd (createGltfSample noOptions quad)
    = Throw 79 (ReferenceError "position is not defined") ∧
  snd (createGltfSample noOptions (withoutPositions quad))
    = Throw 166 (TypeError "indexAccessors.push is not a function") ∧
  ∀ lay,
    indexAccessorOf lay (View.mk checker 3 3) <$>
      getMinMax (Mesh.indices quad) 1 (Some 3) (Some 3)
    = Some {| Accessor.bufferView := Layout.indexBufferViewIndex lay;
              Accessor.byteOffset := 6;
              Accessor.byteStride := None;
              Accessor.componentType := 5123%N;
              Accessor.count := 3;
              Accessor.type := "SCALAR";
              Accessor.min := [num 1];
              Accessor.max := [num 3];
              Accessor.name := None;
              Accessor.normalized := None |}.
Proof. split; [|split]; [vm_compute; reflexivity .. | intros lay; reflexivity]. Qed.

(** C2 (the code does not get there).  The buffer is to be the segments
    in the order positions, normals, UVs, colors, batch ids, indices,
    with running offsets and no gap for a stream left out.  With batch
    ids switched off the quad gets no buffer at all: the loop that
    writes the positions throws at line 79.  Without positions lines
    127-159 do lay out the other segments (normals at 0, UVs at 48, the
    two streams left out and the indices at 80, 92 bytes in all), but
    the call throws at line 166, and at line 247 without views either,
    before a buffer view or the buffer is recorded. *)
Theorem createGltf_assembles_no_buffer :
  snd (createGltfSample withoutBatchIds quad)
    = Throw 79 (ReferenceError "position is not defined") ∧
  (fun enc =>
     (Layout.normalBufferByteOffset (layoutOf enc false false),
      Layout.uvBufferByteOffset (layoutOf enc false false),
      Layout.vertexColorBufferByteOffset (layoutOf enc false false),
      Layout.batchIdBufferByteOffset (layoutOf enc false false),
      Layout.indexBufferByteOffset (layoutOf enc false false),
      Layout.byteLength (layoutOf enc false false)))
    <$> encodeAttributes (withoutPositions quad) false false
    = Return (0, 48, 80, 80, 80, 92) ∧
  snd (createGltfSample withoutBatchIds (withoutPositions quad))
    = Throw 166 (TypeError "indexAccessors.push is not a function") ∧
  snd (createGltfSample withoutBatchIds (withViews [] (withoutPositions quad)))
    = Throw 247 (ReferenceError "positionsMinMax is not defined").
Proof. repeat split; vm_compute; reflexivity. Qed.

(** C3 (the code does not get there).  Vertex colors that are not all
    zero are to bring a color buffer view, a color accessor and a
    [COLOR_0] attribute.  The quad painted white has vertex colors, and
    still no asset comes out, with or without positions and views. *)
Theorem createGltf_emits_no_vertex_colors :
  hasVertexColorsOf (Mesh.vertexColors whiteQuad) = true ∧
  snd (createGltfSample noOptions whiteQuad)
    = Throw 79 (ReferenceError "position is not defined") ∧
  snd (createGltfSample noOptions (withoutPositions whiteQuad))
    = Throw 166 (TypeError "indexAccessors.push is not a function") ∧
  snd (createGltfSample noOptions (withViews [] (withoutPositions whiteQuad)))
    = Throw 247 (ReferenceError "positionsMinMax is not defined").
Proof. repeat split; vm_compute; reflexivity. Qed.

(** C4, as amended.  For a range of whole tuples ([length] is [n] times
    the arity) whose values are all numbers (none is [NaN], none is read
    past the end of the array), [getMinMax] returns two arrays as long
    as the arity, holding for every component the minimum and the
    maximum of its column. *)
Theorem getMinMax_extrema (array : list Number) (components : nat)
    (start length : option nat) (n : nat) :
  defaultValue length (List.length array) = n * components →
  (∀ k, defaultValue start 0 ≤ k < defaultValue start 0 + n * components →
        array_get array k ≠ NaN) →
  ∃ mm, getMinMax array components start length = Some mm ∧
        extrema_of array components start length mm.
Proof.
  intros Hlen Hnum.
  destruct (getMinMax_whole_tuples array components start length n Hlen Hnum)
    as (mm & Hmm & Hext).
  exists mm. split; [done|]. unfold extrema_of. by rewrite Hlen.
Qed.

Lemma getMinMax_extrema_witness :
  ∃ mm, getMinMax (Mesh.positions quad) 3 None None = Some mm ∧
        extrema_of (Mesh.positions quad) 3 None None mm.
Proof.
  apply (getMinMax_extrema (Mesh.positions quad) 3 None None 4).
  - reflexivity.
  - intros k Hk. simpl in Hk.
    do 12 (destruct k as [|k]; [discriminate|]). lia.
Defined.

(** C4, as stated, fails: three values scanned with an arity of 2 make
    a second pass that reads past the end, and the second component
    comes out as [NaN] on both sides; so does a range that runs past
    the end of the array. *)
Lemma getMinMax_partial_tuple :
  ¬ (∃ mm, getMinMax [num 1; num 2; num 3] 2 None None = Some mm ∧
           extrema_of [num 1; num 2; num 3] 2 None None mm) ∧
  getMinMax [num 1; num 2; num 3] 2 None None
    = Some (MinMax.mk [num 1; NaN] [num 3; NaN]) ∧
  getMinMax [num 4; num 2; num 9] 1 (Some 2) (Some 2)
    = Some (MinMax.mk [NaN] [NaN]).
Proof.
  split; [|split; reflexivity].
  intros (mm & Hmm & _ & _ & Hext).
  vm_compute in Hmm. injection Hmm as <-.
  destruct (Hext 1) as [[[Hnil _] | [Hin _]] _]; [lia | discriminate Hnil |].
  vm_compute in Hin. apply list_elem_of_singleton in Hin. discriminate Hin.
Qed.

(** C5 (the code does not get there).  The root node is to carry the
    identity for [upAxis] ['Z'] and the z-up to y-up rotation for ['Y']
    or no [upAxis].  Lines 63-72 choose exactly these matrices, but no
    root node is built: the quad makes [createGltf] throw under ['Z'],
    under ['Y'] and under no [upAxis] alike. *)
Theorem createGltf_builds_no_root_node :
  rootMatrixFor "Z"
    = Some [num 1; num 0; num 0; num 0; num 0; num 1; num 0; num 0;
            num 0; num 0; num 1; num 0; num 0; num 0; num 0; num 1] ∧
  rootMatrixFor (defaultValue None "Y")
    = Some [num 1; num 0; num 0; num 0; num 0; num 0; num (-1); num 0;
            num 0; num 1; num 0; num 0; num 0; num 0; num 0; num 1] ∧
  snd (createGltfSample (withUpAxis "Z") quad)
    = Throw 79 (ReferenceError "position is not defined") ∧
  snd (createGltfSample (withUpAxis "Y") quad)
    = Throw 79 (ReferenceError "position is not defined") ∧
  snd (createGltfSample noOptions quad)
    = Throw 79 (ReferenceError "position is not defined") ∧
  snd (createGltfSample (withUpAxis "Z") (withViews [] (withoutPositions quad)))
    = Throw 247 (ReferenceError "positionsMinMax is not defined").
Proof. repeat split; vm_compute; reflexivity. Qed.

(** C6, as amended.  An [upAxis] that is neither ['Y'] nor ['Z'] raises
    no error of its own: the choice of lines 63-72 leaves the root
    matrix [undefined], and whatever [createGltf] throws afterwards it
    throws past line 72. *)
Theorem rootMatrixFor_unknown_upAxis (upAxis : string) :
  upAxis ≠ "Y" → upAxis ≠ "Z" →
  rootMatrixFor upAxis = None ∧
  ∀ (methods : MeshMethods) (GLB : Type) (gltfToGlb : Gltf.t → GLB) options mesh,
    Options.upAxis options = Some upAxis →
    ¬ fails_fast (snd (createGltf GLB gltfToGlb options mesh)).
Proof.
  intros HY HZ. split.
  - unfold rootMatrixFor.
    apply String.eqb_neq in HY, HZ. by rewrite HY, HZ.
  - intros methods GLB gltfToGlb options mesh _ (line & e & Hthrow & Hline).
    destruct (createGltf_throws GLB gltfToGlb options mesh) as (line' & e' & Hthrow' & Hline').
    rewrite Hthrow in Hthrow'. injection Hthrow' as -> _. lia.
Qed.

Lemma rootMatrixFor_unknown_upAxis_witness :
  rootMatrixFor "X" = None ∧
  ∀ (methods : MeshMethods) (GLB : Type) (gltfToGlb : Gltf.t → GLB) options mesh,
    Options.upAxis options = Some "X" →
    ¬ fails_fast (snd (createGltf GLB gltfToGlb options mesh)).
Proof. apply (rootMatrixFor_unknown_upAxis "X"); discriminate. Defined.

(** C6, as stated, fails: under the [upAxis] ['X'] the root matrix is
    left [undefined] without a word; the quad then meets the error that
    it meets under ['Y'], at line 79 and not at the choice of the
    matrix, and without positions and views the call runs as far as
    line 247. *)
Lemma createGltf_accepts_unknown_upAxis :
  rootMatrixFor "X" = None ∧
  ¬ fails_fast (snd (createGltfSample (withUpAxis "X") quad)) ∧
  snd (createGltfSample (withUpAxis "X") quad)
    = snd (createGltfSample (withUpAxis "Y") quad) ∧
  snd (createGltfSample (withUpAxis "X") (withViews [] (withoutPositions quad)))
    = Throw 247 (ReferenceError "positionsMinMax is not defined").
Proof.
  split; [reflexivity|]. split; [|split; vm_compute; reflexivity].
  intros (line & e & Hthrow & Hline). vm_compute in Hthrow.
  injection Hthrow as <- _. lia.
Qed.

(** C7, as amended.  On a store that holds the mesh, [createGltf]
    writes to no object that was there before the call, the array of
    the positions apart: the object of the mesh, the array of the
    views, and the arrays of the normals, the UVs, the vertex colors,
    the batch ids and the indices (where they are not the array of the
    positions itself) are found as they were left, since every write of
    lines 63-394 goes to an array or a buffer that the call has
    allocated.  The array of the positions is found as it was unless
    [relativeToCenter] is set; then [createGltf] itself calls
    [mesh.setPositionsRelativeToCenter()], at line 60, every later
    statement reads the recentered positions, and they stay recentered
    when the call ends. *)
Theorem createGltf_mesh_effect (methods : MeshMethods) (GLB : Type)
    (gltfToGlb : Gltf.t → GLB) (options : Options.t) (store : Store.t)
    (mesh : Store.loc) (object : Store.MeshObject.t) (snapshot : Mesh.t) :
  Store.holds store mesh object snapshot →
  (∀ l cell,
     l ≠ Store.MeshObject.positions object →
     store !! l = Some cell →
     fst (Store.createGltf GLB gltfToGlb options mesh store) !! l = Some cell) ∧
  fst (Store.createGltf GLB gltfToGlb options mesh store)
    !! Store.MeshObject.positions object
  = Some (Store.NumberArray
            (if defaultValue (Options.relativeToCenter options) false
             then setPositionsRelativeToCenter snapshot
             else Mesh.positions snapshot)).
Proof.
  intros Hholds.
  destruct (createGltf_run GLB gltfToGlb options store mesh object snapshot Hholds)
    as (extra & snapshot' & -> & _).
  destruct Hholds as (_ & Hpositions & _). cbn [fst].
  destruct (defaultValue (Options.relativeToCenter options) false).
  - split.
    + intros l cell Hl Hcell. apply lookup_app_l_Some.
      by rewrite list_lookup_insert_ne.
    + apply lookup_app_l_Some. rewrite list_lookup_insert, decide_True; [done|].
      split; [done|]. by eapply lookup_lt_Some.
  - split.
    + intros l cell Hl Hcell. by apply lookup_app_l_Some.
    + by apply lookup_app_l_Some.
Qed.

Lemma createGltf_mesh_effect_witness :
  (∀ l cell,
     l ≠ 1 →
     storeOf quad !! l = Some cell →
     fst (createGltfInPlace relativeToCenterOptions 0 (storeOf quad)) !! l = Some cell) ∧
  fst (createGltfInPlace relativeToCenterOptions 0 (storeOf quad)) !! 1
  = Some (Store.NumberArray
            (subtractCenter (Cartesian3.mk (num 10) (num 20) (num 30))
                            (Mesh.positions quad))).
Proof.
  apply (createGltf_mesh_effect
           (centeredMesh (Cartesian3.mk (num 10) (num 20) (num 30)))
           Gltf.t (fun gltf => gltf) relativeToCenterOptions (storeOf quad) 0
           (Store.MeshObject.mk 1 2 3 4 5 6 7) quad).
  repeat split; reflexivity.
Defined.

(** C7, as stated, fails: with [relativeToCenter] set, the call moves
    the positions of the quad to its center (10, 20, 30).  The array
    that the mesh refers to no longer holds the positions that were
    passed in, and the mesh that the caller still holds is no longer
    the one it passed. *)
Lemma createGltf_recenters_mesh :
  storeOf quad !! 1
    = Some (Store.NumberArray
              [num 10; num 20; num 30; num 11; num 20; num 30;
               num 11; num 21; num 30; num 10; num 21; num 30]) ∧
  fst (createGltfInPlace relativeToCenterOptions 0 (storeOf quad)) !! 1
    = Some (Store.NumberArray
              [num 0; num 0; num 0; num 1; num 0; num 0;
               num 1; num 1; num 0; num 0; num 1; num 0]) ∧
  Mesh.positions (fst (createGltfSample relativeToCenterOptions quad))
    = [num 0; num 0; num 0; num 1; num 0; num 0;
       num 1; num 1; num 0; num 0; num 1; num 0] ∧
  fst (createGltfSample relativeToCenterOptions quad) ≠ quad.
Proof.
  split; [reflexivity|]. split; [vm_compute; reflexivity|].
  split; [vm_compute; reflexivity|].
  intros Heq. apply (f_equal Mesh.positions) in Heq. vm_compute in Heq. discriminate Heq.
Qed.

(** C8 (the code does not get there).  A mesh with textured views is to
    get one sampler, and one image and one texture per textured view.
    The second view of the quad is textured, and the call throws before
    the material of any view is looked at: at line 79, and at line 166,
    in the first pass of the loop over the views, once the positions
    are taken away. *)
Theorem createGltf_emits_no_sampler :
  Material.baseColor (View.material (View.mk checker 3 3)) = TextureUri "data/checker.png" ∧
  snd (createGltfSample noOptions quad)
    = Throw 79 (ReferenceError "position is not defined") ∧
  snd (createGltfSample noOptions (withoutPositions quad))
    = Throw 166 (TypeError "indexAccessors.push is not a function") ∧
  snd (createGltfSample noOptions
         (withViews [View.mk checker 0 6] (withoutPositions quad)))
    = Throw 166 (TypeError "indexAccessors.push is not a function").
Proof. repeat split; vm_compute; reflexivity. Qed.

(** C9.  The options [quantization] and [textureCompressionOptions] are
    read and never used: two calls that differ in them only leave the
    same mesh and have the same outcome. *)
Theorem createGltf_ignores_quantization (methods : MeshMethods) (GLB : Type)
    (gltfToGlb : Gltf.t → GLB) (mesh : Mesh.t)
    (useBatchIds relativeToCenter deprecated : option bool) (upAxis : option string)
    (quantization quantization' : option bool)
    (textureCompressionOptions textureCompressionOptions'
       : option (list (list (string * string)))) :
  createGltf GLB gltfToGlb
    (Options.mk useBatchIds relativeToCenter quantization deprecated
                textureCompressionOptions upAxis) mesh
  = createGltf GLB gltfToGlb
      (Options.mk useBatchIds relativeToCenter quantization' deprecated
                  textureCompressionOptions' upAxis) mesh.
Proof. reflexivity. Qed.

(** C10 (the code does not get there).  An empty range leaves
    [+Infinity] and [-Infinity] in every component, and these are to
    go into the accessor as they are.  For a view that draws nothing,
    and for a stream without elements, [getMinMax] does return the
    sentinels, and the index accessor built from them holds them; but
    no accessor is emitted: the call throws at line 79, at line 166
    once the positions are taken away, and at line 247, where the
    extrema of the positions are to go into their accessor, once the
    views are taken away too. *)
Theorem createGltf_emits_no_sentinel_bounds :
  getMinMax (Mesh.indices emptyViewQuad) 1 (Some 0) (Some 0)
    = Some (MinMax.mk [POSITIVE_INFINITY] [NEGATIVE_INFINITY]) ∧
  getMinMax [] 3 None None
    = Some (MinMax.mk [POSITIVE_INFINITY; POSITIVE_INFINITY; POSITIVE_INFINITY]
                      [NEGATIVE_INFINITY; NEGATIVE_INFINITY; NEGATIVE_INFINITY]) ∧
  (∀ lay,
     Accessor.min (indexAccessorOf lay (View.mk red 0 0)
                     (MinMax.mk [POSITIVE_INFINITY] [NEGATIVE_INFINITY]))
       = [POSITIVE_INFINITY] ∧
     Accessor.max (indexAccessorOf lay (View.mk red 0 0)
                     (MinMax.mk [POSITIVE_INFINITY] [NEGATIVE_INFINITY]))
       = [NEGATIVE_INFINITY]) ∧
  snd (createGltfSample noOptions emptyViewQuad)
    = Throw 79 (ReferenceError "position is not defined") ∧
  snd (createGltfSample noOptions (withoutPositions emptyViewQuad))
    = Throw 166 (TypeError "indexAccessors.push is not a function") ∧
  snd (createGltfSample noOptions (withViews [] (withoutPositions emptyViewQuad)))
    = Throw 247 (ReferenceError "positionsMinMax is not defined").
Proof. repeat split; vm_compute; reflexivity. Qed.

(** ** Further properties of getMinMax *)

(** The loop keeps the two arrays as long as the arity. *)
Lemma getMinMax_loop_lengths array components start length fuel i mm r :
  List.length (MinMax.min mm) = components →
  List.length (MinMax.max mm) = components →
  getMinMax_loop array components start length fuel i mm = Some r →
  List.length (MinMax.min r) = components ∧ List.length (MinMax.max r) = components.
Proof.
  revert i mm. induction fuel as [|fuel IH]; intros i mm Hmin Hmax Hr; [done|].
  simpl in Hr. destruct (i * components <? length).
  - destruct (getMinMax_tuple_spec array components start i mm Hmin Hmax)
      as (Hmin' & Hmax' & _).
    by apply (IH (S i) _ Hmin' Hmax').
  - by injection Hr as <-.
Qed.

(** With a component to scan the call returns, and what it returns has
    the arity as its lengths. *)
Lemma getMinMax_some_lengths (array : list Number) (components : nat)
    (start length : option nat) :
  0 < components →
  ∃ mm, getMinMax array components start length = Some mm ∧
        List.length (MinMax.min mm) = components ∧
        List.length (MinMax.max mm) = components.
Proof.
  intros Hc. destruct (getMinMax_returns array components start length Hc) as [mm Hmm].
  exists mm. split; [done|]. unfold getMinMax in Hmm.
  eapply getMinMax_loop_lengths; [| |exact Hmm]; apply length_replicate.
Qed.

(** X1.  With an arity of at least 1, [getMinMax] returns whatever the
    array, the start and the length of the range are (a length that is
    no multiple of the arity, or a range past the end of the array,
    included), and both arrays it returns are as long as the arity. *)
Theorem getMinMax_returns_arity (array : list Number) (components : nat)
    (start length : option nat) :
  0 < components →
  ∃ mm, getMinMax array components start length = Some mm ∧
        List.length (MinMax.min mm) = components ∧
        List.length (MinMax.max mm) = components.
Proof. apply getMinMax_some_lengths. Qed.

Lemma getMinMax_returns_arity_witness :
  ∃ mm, getMinMax [num 1; num 2; num 3] 2 (Some 1) (Some 7) = Some mm ∧
        List.length (MinMax.min mm) = 2 ∧ List.length (MinMax.max mm) = 2.
Proof. apply (getMinMax_returns_arity [num 1; num 2; num 3] 2 (Some 1) (Some 7)). lia. Defined.

(** X2.  With an arity of 0 and a range that is not empty, the loop of
    [getMinMax] never ends: [count] is [Infinity], so no amount of
    fuel lets the loop return, from whatever pass and with whatever
    arrays it is entered. *)
Theorem getMinMax_zero_components_diverges (array : list Number)
    (start length : option nat) :
  0 < defaultValue length (List.length array) →
  getMinMax array 0 start length = None ∧
  ∀ fuel i mm,
    getMinMax_loop array 0 (defaultValue start 0)
                   (defaultValue length (List.length array)) fuel i mm = None.
Proof.
  intros Hlen. split.
  - rewrite getMinMax_no_component. case_decide; [lia | done].
  - intros fuel i mm. by apply getMinMax_loop_diverges.
Qed.

Lemma getMinMax_zero_components_diverges_witness :
  getMinMax [num 1] 0 None None = None ∧
  ∀ fuel i mm, getMinMax_loop [num 1] 0 0 1 fuel i mm = None.
Proof. apply (getMinMax_zero_components_diverges [num 1] None None). simpl. lia. Defined.

(** The passes that the loop makes over a length are those it makes over
    the length rounded up to whole tuples. *)
Lemma getMinMax_loop_rounds_up array components start length fuel i mm :
  0 < components →
  getMinMax_loop array components start length fuel i mm
  = getMinMax_loop array components start
      ((length + components - 1) / components * components) fuel i mm.
Proof.
  intros Hc. revert i mm. induction fuel as [|fuel IH]; intros i mm; [done|].
  simpl. rewrite IH.
  assert ((i * components <? length)
          = (i * components <? (length + components - 1) / components * components)) as ->;
    [|done].
  pose proof (Nat.div_mod_eq (length + components - 1) components) as Hdm.
  pose proof (Nat.mod_upper_bound (length + components - 1) components) as Hr.
  set (q := (length + components - 1) / components) in *.
  set (r := (length + components - 1) mod components) in *.
  specialize (Hr ltac:(lia)).
  destruct (Nat.ltb_spec (i * components) length) as [Hlt|Hge];
    destruct (Nat.ltb_spec (i * components) (q * components)) as [Hlt'|Hge'];
    try done; exfalso.
  - nia.
  - assert (i < q) as Hiq by nia.
    assert ((i + 1) * components ≤ q * components) by nia. nia.
Qed.

(** X3.  A length that is no multiple of the arity is scanned as the
    next multiple: the last, partial tuple is read as a whole one, so
    [getMinMax] on [length] elements is [getMinMax] on
    [ceil(length / components) * components] elements. *)
Theorem getMinMax_rounds_up (array : list Number) (components start length : nat) :
  0 < components →
  getMinMax array components (Some start) (Some length)
  = getMinMax array components (Some start)
      (Some ((length + components - 1) / components * components)).
Proof.
  intros Hc.
  destruct (getMinMax_returns array components (Some start) (Some length) Hc) as [mm Hmm].
  rewrite Hmm. symmetry. unfold getMinMax in *. cbn [defaultValue] in *.
  rewrite (getMinMax_loop_rounds_up _ _ _ _ _ _ _ Hc) in Hmm.
  eapply getMinMax_loop_fuel; [exact Hmm|].
  pose proof (Nat.div_mod_eq (length + components - 1) components) as Hdm.
  pose proof (Nat.mod_upper_bound (length + components - 1) components ltac:(lia)) as Hr.
  nia.
Qed.

Lemma getMinMax_rounds_up_witness :
  getMinMax [num 1; num 2; num 3] 2 (Some 0) (Some 3)
  = getMinMax [num 1; num 2; num 3] 2 (Some 0) (Some ((3 + 2 - 1) / 2 * 2)).
Proof. apply (getMinMax_rounds_up [num 1; num 2; num 3] 2 0 3). lia. Defined.

(** [NaN] absorbs: once it is met, the fold stays at [NaN]. *)
Lemma foldl_Math_min_NaN (vals : list Number) : foldl Math_min NaN vals = NaN.
Proof. induction vals as [|v vals IH]; [done|]. simpl. exact IH. Qed.

Lemma foldl_Math_max_NaN (vals : list Number) : foldl Math_max NaN vals = NaN.
Proof. induction vals as [|v vals IH]; [done|]. simpl. exact IH. Qed.

Lemma Math_min_NaN_r x : Math_min x NaN = NaN.
Proof. by destruct x. Qed.

Lemma Math_max_NaN_r x : Math_max x NaN = NaN.
Proof. by destruct x. Qed.

Lemma foldl_Math_min_has_NaN acc (vals : list Number) :
  NaN ∈ vals → foldl Math_min acc vals = NaN.
Proof.
  revert acc. induction vals as [|v vals IH]; intros acc Hin.
  - by apply elem_of_nil in Hin.
  - simpl. apply elem_of_cons in Hin as [<- | Hin]; [|by apply IH].
    rewrite Math_min_NaN_r. apply foldl_Math_min_NaN.
Qed.

Lemma foldl_Math_max_has_NaN acc (vals : list Number) :
  NaN ∈ vals → foldl Math_max acc vals = NaN.
Proof.
  revert acc. induction vals as [|v vals IH]; intros acc Hin.
  - by apply elem_of_nil in Hin.
  - simpl. apply elem_of_cons in Hin as [<- | Hin]; [|by apply IH].
    rewrite Math_max_NaN_r. apply foldl_Math_max_NaN.
Qed.

(** What [getMinMax] returns on a range of [n] whole tuples: for every
    component the fold of [Math.min], and of [Math.max], over its column,
    from the sentinels on. *)
Lemma getMinMax_folds (array : list Number) (components start n : nat) :
  ∃ mm, getMinMax array components (Some start) (Some (n * components)) = Some mm ∧
    List.length (MinMax.min mm) = components ∧
    List.length (MinMax.max mm) = components ∧
    ∀ j, j < components →
      array_get (MinMax.min mm) j
        = foldl Math_min POSITIVE_INFINITY
            ((fun i => array_get array (start + i * components + j)) <$> seq 0 n) ∧
      array_get (MinMax.max mm) j
        = foldl Math_max NEGATIVE_INFINITY
            ((fun i => array_get array (start + i * components + j)) <$> seq 0 n).
Proof.
  unfold getMinMax. cbn [defaultValue].
  set (mm0 := MinMax.mk (Array_fill components POSITIVE_INFINITY)
                        (Array_fill components NEGATIVE_INFINITY)).
  destruct (decide (components = 0)) as [Hc0 | Hc0].
  - subst components. rewrite Nat.mul_0_r. exists mm0.
    split; [done|]. split; [done|]. split; [done|]. intros j Hj. lia.
  - rewrite (getMinMax_loop_tuples array components start n n); [|lia|nia].
    eexists. split; [done|].
    destruct (getMinMax_tuples_spec array components start n mm0) as (Hl1 & Hl2 & Hg).
    { apply length_replicate. } { apply length_replicate. }
    split; [done|]. split; [done|]. intros j Hj.
    destruct (Hg j Hj) as [Hg1 Hg2]. rewrite Hg1, Hg2. simpl.
    unfold Array_fill. by rewrite !array_get_replicate by done.
Qed.

(** X4.  One [NaN] in a column, be it an element of the array or a read
    past its end, makes both extrema of that component [NaN], whatever
    the other values of the column are. *)
Theorem getMinMax_NaN_absorbs (array : list Number) (components start n i j : nat) :
  i < n → j < components →
  array_get array (start + i * components + j) = NaN →
  ∃ mm, getMinMax array components (Some start) (Some (n * components)) = Some mm ∧
        array_get (MinMax.min mm) j = NaN ∧ array_get (MinMax.max mm) j = NaN.
Proof.
  intros Hi Hj HNaN.
  destruct (getMinMax_folds array components start n) as (mm & Hmm & _ & _ & Hg).
  exists mm. split; [done|]. destruct (Hg j Hj) as [-> ->].
  assert (NaN ∈ (fun i => array_get array (start + i * components + j)) <$> seq 0 n)
    as Hin.
  { apply list_elem_of_fmap. exists i. split; [done|]. apply elem_of_seq. lia. }
  split; [by apply foldl_Math_min_has_NaN | by apply foldl_Math_max_has_NaN].
Qed.

Lemma getMinMax_NaN_absorbs_witness :
  ∃ mm, getMinMax [num 4; num 2; num 9] 1 (Some 1) (Some (3 * 1)) = Some mm ∧
        array_get (MinMax.min mm) 0 = NaN ∧ array_get (MinMax.max mm) 0 = NaN.
Proof.
  apply (getMinMax_NaN_absorbs [num 4; num 2; num 9] 1 1 3 2 0); [lia | lia | reflexivity].
Defined.

Lemma foldl_ext_in {A B} (f g : A → B → A) (l : list B) (a : A) :
  (∀ a x, x ∈ l → f a x = g a x) → foldl f a l = foldl g a l.
Proof.
  revert a. induction l as [|x l IH]; intros a Hfg; [done|].
  simpl. rewrite Hfg by left. apply IH. intros a' y Hy. apply Hfg. by right.
Qed.

(** X5.  [getMinMax] reads the range it is given and nothing else: two
    arrays that agree on the positions of a range of whole tuples get
    the same extrema over it, whatever they hold elsewhere. *)
Theorem getMinMax_reads_range_only (array array' : list Number)
    (components start n : nat) :
  (∀ k, start ≤ k < start + n * components → array_get array k = array_get array' k) →
  getMinMax array components (Some start) (Some (n * components))
  = getMinMax array' components (Some start) (Some (n * components)).
Proof.
  intros Hagree. unfold getMinMax. cbn [defaultValue].
  destruct (decide (components = 0)) as [Hc0 | Hc0].
  { subst components. by rewrite Nat.mul_0_r. }
  rewrite !(getMinMax_loop_tuples _ components start n n) by (lia || nia).
  f_equal. unfold getMinMax_tuples. apply foldl_ext_in. intros mm i Hi.
  apply elem_of_seq in Hi. unfold getMinMax_tuple. apply foldl_ext_in.
  intros mm' j Hj. apply elem_of_seq in Hj. unfold getMinMax_component.
  rewrite Hagree by nia. done.
Qed.

Lemma getMinMax_reads_range_only_witness :
  getMinMax [num 7; num 1; num 5; num 9] 1 (Some 1) (Some (2 * 1))
  = getMinMax [num 0; num 1; num 5] 1 (Some 1) (Some (2 * 1)).
Proof.
  apply (getMinMax_reads_range_only [num 7; num 1; num 5; num 9] [num 0; num 1; num 5] 1 1 2).
  intros k Hk. assert (k = 1 ∨ k = 2) as [-> | ->] by lia; reflexivity.
Defined.

(** [Math.min] and [Math.max] as monoids: associative, with the
    sentinels as units. *)
Lemma Math_min_if a b :
  a ≠ NaN → b ≠ NaN → Math_min a b = if Number_leb a b then a else b.
Proof. by destruct a, b. Qed.

Lemma Math_max_if a b :
  a ≠ NaN → b ≠ NaN → Math_max a b = if Number_leb a b then b else a.
Proof. by destruct a, b. Qed.

Lemma Number_NaN_or x : x = NaN ∨ x ≠ NaN.
Proof. destruct x; [by left | by right ..]. Qed.

Lemma Math_min_assoc a b c :
  Math_min (Math_min a b) c = Math_min a (Math_min b c).
Proof.
  destruct (Number_NaN_or a) as [-> | Ha]; [done|].
  destruct (Number_NaN_or b) as [-> | Hb]; [rewrite Math_min_NaN_r; cbn; by rewrite Math_min_NaN_r|].
  destruct (Number_NaN_or c) as [-> | Hc]; [by rewrite !Math_min_NaN_r|].
  rewrite (Math_min_if a b), (Math_min_if b c) by done.
  destruct (Number_leb a b) eqn:Hab, (Number_leb b c) eqn:Hbc;
    rewrite ?(Math_min_if a b), ?(Math_min_if a c), ?(Math_min_if b c), ?Hab, ?Hbc by done;
    try done.
  - by rewrite (Number_leb_trans a b c).
  - assert (Number_leb c b = true) as Hcb by by apply Number_leb_total.
    assert (Number_leb b a = true) as Hba by by apply Number_leb_total.
    destruct (Number_leb a c) eqn:Hac; [|done].
    pose proof (Number_leb_trans _ _ _ Hac Hcb). congruence.
Qed.

Lemma Math_max_assoc a b c :
  Math_max (Math_max a b) c = Math_max a (Math_max b c).
Proof.
  destruct (Number_NaN_or a) as [-> | Ha]; [done|].
  destruct (Number_NaN_or b) as [-> | Hb]; [rewrite Math_max_NaN_r; cbn; by rewrite Math_max_NaN_r|].
  destruct (Number_NaN_or c) as [-> | Hc]; [by rewrite !Math_max_NaN_r|].
  rewrite (Math_max_if a b), (Math_max_if b c) by done.
  destruct (Number_leb a b) eqn:Hab, (Number_leb b c) eqn:Hbc;
    rewrite ?(Math_max_if a b), ?(Math_max_if a c), ?(Math_max_if b c), ?Hab, ?Hbc by done;
    try done.
  - by rewrite (Number_leb_trans a b c).
  - assert (Number_leb c b = true) as Hcb by by apply Number_leb_total.
    assert (Number_leb b a = true) as Hba by by apply Number_leb_total.
    destruct (Number_leb a c) eqn:Hac; [|done].
    pose proof (Number_leb_trans _ _ _ Hac Hcb). congruence.
Qed.

Lemma Math_min_PosInf_l x : Math_min POSITIVE_INFINITY x = x.
Proof. by destruct x. Qed.

Lemma Math_min_PosInf_r x : Math_min x POSITIVE_INFINITY = x.
Proof. by destruct x. Qed.

Lemma Math_max_NegInf_l x : Math_max NEGATIVE_INFINITY x = x.
Proof. by destruct x. Qed.

Lemma Math_max_NegInf_r x : Math_max x NEGATIVE_INFINITY = x.
Proof. by destruct x. Qed.

Lemma foldl_Math_min_from acc (vals : list Number) :
  foldl Math_min acc vals = Math_min acc (foldl Math_min POSITIVE_INFINITY vals).
Proof.
  revert acc. induction vals as [|v vals IH]; intros acc; cbn [foldl].
  - by rewrite Math_min_PosInf_r.
  - rewrite Math_min_PosInf_l, (IH (Math_min acc v)), (IH v). apply Math_min_assoc.
Qed.

Lemma foldl_Math_max_from acc (vals : list Number) :
  foldl Math_max acc vals = Math_max acc (foldl Math_max NEGATIVE_INFINITY vals).
Proof.
  revert acc. induction vals as [|v vals IH]; intros acc; cbn [foldl].
  - by rewrite Math_max_NegInf_r.
  - rewrite Math_max_NegInf_l, (IH (Math_max acc v)), (IH v). apply Math_max_assoc.
Qed.

(** X6.  The extrema of a range are those of its parts, combined: over
    [n + m] whole tuples every minimum is the [Math.min], and every
    maximum the [Math.max], of what [getMinMax] returns over the first
    [n] tuples and over the [m] tuples that follow them. *)
Theorem getMinMax_split (array : list Number) (components start n m : nat) :
  ∃ mm mm1 mm2,
    getMinMax array components (Some start) (Some ((n + m) * components)) = Some mm ∧
    getMinMax array components (Some start) (Some (n * components)) = Some mm1 ∧
    getMinMax array components (Some (start + n * components)) (Some (m * components))
      = Some mm2 ∧
    ∀ j, j < components →
      array_get (MinMax.min mm) j
        = Math_min (array_get (MinMax.min mm1) j) (array_get (MinMax.min mm2) j) ∧
      array_get (MinMax.max mm) j
        = Math_max (array_get (MinMax.max mm1) j) (array_get (MinMax.max mm2) j).
Proof.
  destruct (getMinMax_folds array components start (n + m)) as (mm & Hmm & _ & _ & Hg).
  destruct (getMinMax_folds array components start n) as (mm1 & Hmm1 & _ & _ & Hg1).
  destruct (getMinMax_folds array components (start + n * components) m)
    as (mm2 & Hmm2 & _ & _ & Hg2).
  exists mm, mm1, mm2. repeat (split; [done|]). intros j Hj.
  destruct (Hg j Hj) as [-> ->]. destruct (Hg1 j Hj) as [-> ->].
  destruct (Hg2 j Hj) as [-> ->].
  assert ((fun i => array_get array (start + i * components + j)) <$> seq 0 (n + m)
          = ((fun i => array_get array (start + i * components + j)) <$> seq 0 n) ++
            ((fun i => array_get array (start + n * components + i * components + j))
               <$> seq 0 m)) as ->.
  { rewrite seq_app, fmap_app. f_equal. cbn [Nat.add].
    replace (seq n m) with (Nat.add n <$> seq 0 m)
      by (rewrite fmap_add_seq; f_equal; lia).
    rewrite <- list_fmap_compose.
    apply list_fmap_ext. intros _ i _. simpl. f_equal. lia. }
  rewrite !foldl_app.
  by rewrite foldl_Math_min_from, foldl_Math_max_from.
Qed.

(** X7.  Over a range of at least one whole tuple of numbers the extrema
    come out in order, [min[j] <= max[j]] for every component (over an
    empty range they are the sentinels, the other way round). *)
Theorem getMinMax_min_le_max (array : list Number) (components start n j : nat) :
  0 < n → j < components →
  (∀ k, start ≤ k < start + n * components → array_get array k ≠ NaN) →
  ∃ mm, getMinMax array components (Some start) (Some (n * components)) = Some mm ∧
        Number_le (array_get (MinMax.min mm) j) (array_get (MinMax.max mm) j).
Proof.
  intros Hn Hj Hnum.
  destruct (getMinMax_whole_tuples array components (Some start) (Some (n * components)) n)
    as (mm & Hmm & _ & _ & Hext); [done | done |].
  exists mm. split; [done|]. destruct (Hext j Hj) as [Hmin Hmax]. simpl in Hmin, Hmax.
  assert (array_get array (start + 0 * components + j)
          ∈ column array components start (n * components) j) as Hin.
  { apply elem_of_column; [done|]. apply list_elem_of_fmap. exists 0.
    split; [done|]. apply elem_of_seq. lia. }
  destruct Hmin as [[Hnil _] | [Hmin _]].
  { rewrite Hnil in Hin. by apply elem_of_nil in Hin. }
  destruct Hmax as [[Hnil _] | [_ Hmax]].
  { rewrite Hnil in Hin. by apply elem_of_nil in Hin. }
  by apply Hmax.
Qed.

Lemma getMinMax_min_le_max_witness :
  ∃ mm, getMinMax (Mesh.uvs quad) 2 (Some 0) (Some (4 * 2)) = Some mm ∧
        Number_le (array_get (MinMax.min mm) 1) (array_get (MinMax.max mm) 1).
Proof.
  apply (getMinMax_min_le_max (Mesh.uvs quad) 2 0 4 1); [lia | lia |].
  intros k Hk. simpl in Hk. do 8 (destruct k as [|k]; [discriminate|]). lia.
Defined.

(** X8.  The extrema of a component depend on its own column only: two
    arrays that agree on the positions of column [j] of a range of whole
    tuples get the same [min[j]] and the same [max[j]], however the
    other components differ. *)
Theorem getMinMax_component_independent (array array' : list Number)
    (components start n j : nat) :
  j < components →
  (∀ i, i < n → array_get array (start + i * components + j)
                = array_get array' (start + i * components + j)) →
  ∃ mm mm',
    getMinMax array components (Some start) (Some (n * components)) = Some mm ∧
    getMinMax array' components (Some start) (Some (n * components)) = Some mm' ∧
    array_get (MinMax.min mm) j = array_get (MinMax.min mm') j ∧
    array_get (MinMax.max mm) j = array_get (MinMax.max mm') j.
Proof.
  intros Hj Hagree.
  destruct (getMinMax_folds array components start n) as (mm & Hmm & _ & _ & Hg).
  destruct (getMinMax_folds array' components start n) as (mm' & Hmm' & _ & _ & Hg').
  exists mm, mm'. split; [done|]. split; [done|].
  destruct (Hg j Hj) as [-> ->]. destruct (Hg' j Hj) as [-> ->].
  assert ((fun i => array_get array (start + i * components + j)) <$> seq 0 n
          = (fun i => array_get array' (start + i * components + j)) <$> seq 0 n) as ->;
    [|done].
  apply list_fmap_ext. intros k i Hi. apply Hagree.
  apply lookup_seq in Hi. lia.
Qed.

Lemma getMinMax_component_independent_witness :
  ∃ mm mm',
    getMinMax [num 1; num 8; num 3; num 9] 2 (Some 0) (Some (2 * 2)) = Some mm ∧
    getMinMax [num 1; num 0; num 3; num 5] 2 (Some 0) (Some (2 * 2)) = Some mm' ∧
    array_get (MinMax.min mm) 0 = array_get (MinMax.min mm') 0 ∧
    array_get (MinMax.max mm) 0 = array_get (MinMax.max mm') 0.
Proof.
  apply (getMinMax_component_independent [num 1; num 8; num 3; num 9]
           [num 1; num 0; num 3; num 5] 2 0 2 0); [lia|].
  intros i Hi. assert (i = 0 ∨ i = 1) as [-> | ->] by lia; reflexivity.
Defined.

(** ** Further properties of createGltf *)

(** X9.  [createGltf] throws on every input; it never returns an
    asset and never runs forever.  When the mesh, as the recentering
    leaves it, has a position, the loop that fills the position buffer
    reads the undeclared [position] (line 79).  With no position, the
    first integer write that is handed a value outside the range of its
    type throws a [RangeError]: a vertex color outside 0..255 at line
    103 (when the mesh has vertex colors), a batch id outside 0..65535
    at line 115 (when the batch ids are on), an index outside 0..65535
    at line 122.  With none of these and a view, the first pass over the
    views calls [push] on the object [indexAccessors] (line 166); with
    no view either, the position accessor reads the undeclared
    [positionsMinMax] (line 247). *)
Theorem createGltf_always_throws (methods : MeshMethods) (GLB : Type)
    (gltfToGlb : Gltf.t → GLB) (options : Options.t) (mesh : Mesh.t) :
  snd (createGltf GLB gltfToGlb options mesh) =
    if decide ((if defaultValue (Options.relativeToCenter options) false
                then setPositionsRelativeToCenter mesh
                else Mesh.positions mesh) = [])
    then
      match integerWriteError mesh (hasVertexColorsOf (Mesh.vertexColors mesh))
              (defaultValue (Options.useBatchIds options) true) with
      | Some (line, value) => Throw line (RangeError "ERR_OUT_OF_RANGE" value)
      | None =>
          if decide (Mesh.views mesh = [])
          then Throw 247 (ReferenceError "positionsMinMax is not defined")
          else Throw 166 (TypeError "indexAccessors.push is not a function")
      end
    else Throw 79 (ReferenceError "position is not defined").
Proof.
  rewrite createGltf_outcome, createGltf_mesh.
  by destruct (defaultValue (Options.relativeToCenter options) false).
Qed.

(** X10.  The call on a store and the call on the contents of the
    arrays agree.  When the store holds the mesh and no other field of
    the mesh refers to the array of the positions, [createGltf] run on
    the store has the outcome that [createGltf] has on the contents,
    and the store it leaves holds the mesh that the latter leaves: the
    locals [positions], ..., [views] of lines 45-51 are references, so
    that every statement after line 60 reads what the recentering
    wrote. *)
Theorem createGltf_on_store_agrees (methods : MeshMethods) (GLB : Type)
    (gltfToGlb : Gltf.t → GLB) (options : Options.t) (store : Store.t)
    (mesh : Store.loc) (object : Store.MeshObject.t) (snapshot : Mesh.t) :
  Store.holds store mesh object snapshot →
  Store.positions_unshared object →
  snd (Store.createGltf GLB gltfToGlb options mesh store)
    = snd (createGltf GLB gltfToGlb options snapshot) ∧
  Store.holds (fst (Store.createGltf GLB gltfToGlb options mesh store)) mesh object
              (fst (createGltf GLB gltfToGlb options snapshot)).
Proof.
  intros Hholds Hunshared.
  destruct (createGltf_run GLB gltfToGlb options store mesh object snapshot Hholds)
    as (extra & snapshot' & Hrun & Hholds' & Hsnapshot).
  rewrite (Hsnapshot Hunshared) in Hrun, Hholds'. split; [|done].
  rewrite Hrun. unfold createGltf.
  by destruct (defaultValue (Options.relativeToCenter options) false).
Qed.

Lemma createGltf_on_store_agrees_witness :
  snd (createGltfInPlace relativeToCenterOptions 0 (storeOf quad))
    = snd (createGltfSample relativeToCenterOptions quad) ∧
  Store.holds (fst (createGltfInPlace relativeToCenterOptions 0 (storeOf quad))) 0
              (Store.MeshObject.mk 1 2 3 4 5 6 7)
              (fst (createGltfSample relativeToCenterOptions quad)).
Proof.
  apply (createGltf_on_store_agrees
           (centeredMesh (Cartesian3.mk (num 10) (num 20) (num 30)))
           Gltf.t (fun gltf => gltf) relativeToCenterOptions (storeOf quad) 0
           (Store.MeshObject.mk 1 2 3 4 5 6 7) quad).
  - repeat split; reflexivity.
  - unfold Store.positions_unshared. cbn. rewrite !not_elem_of_cons.
    repeat split; [lia..|]. apply not_elem_of_nil.
Defined.

(** X11.  Where no write is handed a value outside the range of its
    type, the write loops of lines 82-123 pack every stream into its
    segment, element after element and in order: four bytes for a
    normal or a UV, one for a vertex color, two for a batch id or an
    index, no fill byte of the fresh buffer being left; a stream that
    is switched off gets an empty segment. *)
Theorem encodeAttributes_packs_streams (mesh : Mesh.t)
    (hasVertexColors useBatchIds : bool) :
  Mesh.positions mesh = [] →
  integerWriteError mesh hasVertexColors useBatchIds = None →
  ∃ enc, encodeAttributes mesh hasVertexColors useBatchIds = Return enc ∧
    Encoded.positionBuffer enc = [] ∧
    Encoded.normalBuffer enc
      = Mesh.normals mesh ≫= (fun v => [FloatLE v 0; FloatLE v 1; FloatLE v 2; FloatLE v 3]) ∧
    Encoded.uvBuffer enc
      = Mesh.uvs mesh ≫= (fun v => [FloatLE v 0; FloatLE v 1; FloatLE v 2; FloatLE v 3]) ∧
    Encoded.vertexColorBuffer enc
      = (if hasVertexColors then Mesh.vertexColors mesh ≫= (fun v => [UInt8 v]) else []) ∧
    Encoded.batchIdBuffer enc
      = (if useBatchIds
         then Mesh.batchIds mesh ≫= (fun v => [UInt16LE v 0; UInt16LE v 1])
         else []) ∧
    Encoded.indexBuffer enc
      = Mesh.indices mesh ≫= (fun v => [UInt16LE v 0; UInt16LE v 1]).
Proof.
  intros Hpos Hrange.
  exact (encodeAttributes_in_range mesh hasVertexColors useBatchIds Hpos Hrange).
Qed.

Lemma encodeAttributes_packs_streams_witness :
  ∃ enc, encodeAttributes (withoutPositions quad) false true = Return enc ∧
    Encoded.positionBuffer enc = [] ∧
    Encoded.normalBuffer enc
      = Mesh.normals (withoutPositions quad)
          ≫= (fun v => [FloatLE v 0; FloatLE v 1; FloatLE v 2; FloatLE v 3]) ∧
    Encoded.uvBuffer enc
      = Mesh.uvs (withoutPositions quad)
          ≫= (fun v => [FloatLE v 0; FloatLE v 1; FloatLE v 2; FloatLE v 3]) ∧
    Encoded.vertexColorBuffer enc = [] ∧
    Encoded.batchIdBuffer enc
      = Mesh.batchIds (withoutPositions quad) ≫= (fun v => [UInt16LE v 0; UInt16LE v 1]) ∧
    Encoded.indexBuffer enc
      = Mesh.indices (withoutPositions quad) ≫= (fun v => [UInt16LE v 0; UInt16LE v 1]).
Proof.
  apply (encodeAttributes_packs_streams (withoutPositions quad) false true);
    reflexivity.
Defined.

(** X12.  Where the encoding goes through (no position, no integer out
    of the range of its type), the byte offsets of lines
    147-159 are the running totals of the stream sizes: the normals
    start at 0, the UVs after 4 bytes per normal, the vertex colors
    after 4 bytes per UV, the batch ids after 1 byte per vertex color
    (none when the colors are left out), the indices after 2 bytes per
    batch id (none when the batch ids are switched off), and the
    buffer ends after 2 bytes per index. *)
Theorem layoutOf_offsets (mesh : Mesh.t) (hasVertexColors useBatchIds : bool) :
  Mesh.positions mesh = [] →
  integerWriteError mesh hasVertexColors useBatchIds = None →
  ∃ enc, encodeAttributes mesh hasVertexColors useBatchIds = Return enc ∧
    Layout.positionBufferByteOffset (layoutOf enc hasVertexColors useBatchIds) = 0 ∧
    Layout.normalBufferByteOffset (layoutOf enc hasVertexColors useBatchIds) = 0 ∧
    Layout.uvBufferByteOffset (layoutOf enc hasVertexColors useBatchIds)
      = 4 * length (Mesh.normals mesh) ∧
    Layout.vertexColorBufferByteOffset (layoutOf enc hasVertexColors useBatchIds)
      = 4 * length (Mesh.normals mesh) + 4 * length (Mesh.uvs mesh) ∧
    Layout.batchIdBufferByteOffset (layoutOf enc hasVertexColors useBatchIds)
      = 4 * length (Mesh.normals mesh) + 4 * length (Mesh.uvs mesh)
        + (if hasVertexColors then length (Mesh.vertexColors mesh) else 0) ∧
    Layout.indexBufferByteOffset (layoutOf enc hasVertexColors useBatchIds)
      = 4 * length (Mesh.normals mesh) + 4 * length (Mesh.uvs mesh)
        + (if hasVertexColors then length (Mesh.vertexColors mesh) else 0)
        + (if useBatchIds then 2 * length (Mesh.batchIds mesh) else 0) ∧
    Layout.byteLength (layoutOf enc hasVertexColors useBatchIds)
      = 4 * length (Mesh.normals mesh) + 4 * length (Mesh.uvs mesh)
        + (if hasVertexColors then length (Mesh.vertexColors mesh) else 0)
        + (if useBatchIds then 2 * length (Mesh.batchIds mesh) else 0)
        + 2 * length (Mesh.indices mesh) ∧
    Layout.buffer (layoutOf enc hasVertexColors useBatchIds)
      = Encoded.normalBuffer enc ++ Encoded.uvBuffer enc ++ Encoded.vertexColorBuffer enc
        ++ Encoded.batchIdBuffer enc ++ Encoded.indexBuffer enc.
Proof.
  intros Hpos Hrange.
  destruct (encodeAttributes_lengths mesh hasVertexColors useBatchIds Hpos Hrange)
    as (enc & Henc & Hp & Ln & Lu & Lv & Lb & Li).
  exists enc. split; [done|].
  destruct (layoutOf_contiguous enc hasVertexColors useBatchIds)
    as (Hbuf & H0 & H1 & H2 & H3 & H4 & H5 & H6).
  { intros ->. by apply length_zero_iff_nil. }
  { intros ->. by apply length_zero_iff_nil. }
  rewrite Hbuf, Hp. rewrite Hp in H1. cbn [length] in H1.
  repeat split; try done;
    destruct hasVertexColors, useBatchIds; lia.
Qed.

Lemma layoutOf_offsets_witness :
  ∃ enc, encodeAttributes (withoutPositions quad) false false = Return enc ∧
    Layout.positionBufferByteOffset (layoutOf enc false false) = 0 ∧
    Layout.normalBufferByteOffset (layoutOf enc false false) = 0 ∧
    Layout.uvBufferByteOffset (layoutOf enc false false) = 4 * 12 ∧
    Layout.vertexColorBufferByteOffset (layoutOf enc false false) = 4 * 12 + 4 * 8 ∧
    Layout.batchIdBufferByteOffset (layoutOf enc false false) = 4 * 12 + 4 * 8 + 0 ∧
    Layout.indexBufferByteOffset (layoutOf enc false false) = 4 * 12 + 4 * 8 + 0 + 0 ∧
    Layout.byteLength (layoutOf enc false false) = 4 * 12 + 4 * 8 + 0 + 0 + 2 * 6 ∧
    Layout.buffer (layoutOf enc false false)
      = Encoded.normalBuffer enc ++ Encoded.uvBuffer enc ++ Encoded.vertexColorBuffer enc
        ++ Encoded.batchIdBuffer enc ++ Encoded.indexBuffer enc.
Proof. apply (layoutOf_offsets (withoutPositions quad) false false); reflexivity. Defined.

(** X13.  The buffer view indices of lines 139-145 and the list of
    lines 304-348 agree: the list has one buffer view per stream that
    is present, each stream finds its own view (its segment length, its
    byte offset) under the index it was given, and the index view, the
    only one bound as an element array, is the last. *)
Theorem bufferViewsOf_at_indices (enc : Encoded.t) (hasVertexColors useBatchIds : bool) :
  bufferViewsOf enc (layoutOf enc hasVertexColors useBatchIds) hasVertexColors useBatchIds
    !! Layout.positionBufferViewIndex (layoutOf enc hasVertexColors useBatchIds)
  = Some (BufferView.mk 0 (length (Encoded.positionBuffer enc))
            (Layout.positionBufferByteOffset (layoutOf enc hasVertexColors useBatchIds))
            34962%N) ∧
  bufferViewsOf enc (layoutOf enc hasVertexColors useBatchIds) hasVertexColors useBatchIds
    !! Layout.normalBufferViewIndex (layoutOf enc hasVertexColors useBatchIds)
  = Some (BufferView.mk 0 (length (Encoded.normalBuffer enc))
            (Layout.normalBufferByteOffset (layoutOf enc hasVertexColors useBatchIds))
            34962%N) ∧
  bufferViewsOf enc (layoutOf enc hasVertexColors useBatchIds) hasVertexColors useBatchIds
    !! Layout.uvBufferViewIndex (layoutOf enc hasVertexColors useBatchIds)
  = Some (BufferView.mk 0 (length (Encoded.uvBuffer enc))
            (Layout.uvBufferByteOffset (layoutOf enc hasVertexColors useBatchIds))
            34962%N) ∧
  (if hasVertexColors
   then bufferViewsOf enc (layoutOf enc hasVertexColors useBatchIds)
                      hasVertexColors useBatchIds
          !! Layout.vertexColorBufferViewIndex (layoutOf enc hasVertexColors useBatchIds)
        = Some (BufferView.mk 0 (length (Encoded.vertexColorBuffer enc))
                  (Layout.vertexColorBufferByteOffset
                     (layoutOf enc hasVertexColors useBatchIds))
                  34962%N)
   else True) ∧
  (if useBatchIds
   then bufferViewsOf enc (layoutOf enc hasVertexColors useBatchIds)
                      hasVertexColors useBatchIds
          !! Layout.batchIdBufferViewIndex (layoutOf enc hasVertexColors useBatchIds)
        = Some (BufferView.mk 0 (length (Encoded.batchIdBuffer enc))
                  (Layout.batchIdBufferByteOffset
                     (layoutOf enc hasVertexColors useBatchIds))
                  34962%N)
   else True) ∧
  bufferViewsOf enc (layoutOf enc hasVertexColors useBatchIds) hasVertexColors useBatchIds
    !! Layout.indexBufferViewIndex (layoutOf enc hasVertexColors useBatchIds)
  = Some (BufferView.mk 0 (length (Encoded.indexBuffer enc))
            (Layout.indexBufferByteOffset (layoutOf enc hasVertexColors useBatchIds))
            34963%N) ∧
  length (bufferViewsOf enc (layoutOf enc hasVertexColors useBatchIds)
                        hasVertexColors useBatchIds)
  = S (Layout.indexBufferViewIndex (layoutOf enc hasVertexColors useBatchIds)).
Proof. by destruct hasVertexColors, useBatchIds. Qed.

(** X14.  Where the encoding goes through (no position, no integer out
    of the range of its type), the buffer views of lines
    304-348 tile the buffer: there is one per stream that is present
    (four, five or six, the empty position view included), each starts
    where the one before it ends, the first at byte 0, and their
    lengths add up to the byte length recorded for the buffer. *)
Theorem bufferViewsOf_tile_buffer (mesh : Mesh.t) (hasVertexColors useBatchIds : bool) :
  Mesh.positions mesh = [] →
  integerWriteError mesh hasVertexColors useBatchIds = None →
  ∃ enc, encodeAttributes mesh hasVertexColors useBatchIds = Return enc ∧
    length (bufferViewsOf enc (layoutOf enc hasVertexColors useBatchIds)
                          hasVertexColors useBatchIds)
    = 4 + (if hasVertexColors then 1 else 0) + (if useBatchIds then 1 else 0) ∧
    contiguous_from 0
      (bufferViewsOf enc (layoutOf enc hasVertexColors useBatchIds)
                     hasVertexColors useBatchIds) ∧
    foldr (fun bv total => BufferView.byteLength bv + total) 0
      (bufferViewsOf enc (layoutOf enc hasVertexColors useBatchIds)
                     hasVertexColors useBatchIds)
    = Layout.byteLength (layoutOf enc hasVertexColors useBatchIds) ∧
    Layout.byteLength (layoutOf enc hasVertexColors useBatchIds)
    = length (Layout.buffer (layoutOf enc hasVertexColors useBatchIds)).
Proof.
  intros Hpos Hrange.
  destruct (encodeAttributes_lengths mesh hasVertexColors useBatchIds Hpos Hrange)
    as (enc & Henc & _ & _ & _ & Lv & Lb & _).
  exists enc. split; [done|].
  destruct (bufferViewsOf_contiguous enc hasVertexColors useBatchIds) as (Hn & Hc & Hs).
  { intros ->. by apply length_zero_iff_nil. }
  { intros ->. by apply length_zero_iff_nil. }
  done.
Qed.

Lemma bufferViewsOf_tile_buffer_witness :
  ∃ enc, encodeAttributes (withoutPositions whiteQuad) true true = Return enc ∧
    length (bufferViewsOf enc (layoutOf enc true true) true true) = 4 + 1 + 1 ∧
    contiguous_from 0 (bufferViewsOf enc (layoutOf enc true true) true true) ∧
    foldr (fun bv total => BufferView.byteLength bv + total) 0
      (bufferViewsOf enc (layoutOf enc true true) true true)
    = Layout.byteLength (layoutOf enc true true) ∧
    Layout.byteLength (layoutOf enc true true)
    = length (Layout.buffer (layoutOf enc true true)).
Proof.
  apply (bufferViewsOf_tile_buffer (withoutPositions whiteQuad) true true); reflexivity.
Defined.

(** X15.  The attributes of a primitive (lines 217-229) always hold
    [POSITION], [NORMAL] and [TEXCOORD_0]; they hold [COLOR_0] exactly
    when the mesh has vertex colors; and they hold the batch ids exactly
    when these are switched on, under ['BATCHID'] when [deprecated] is
    set and under ['_BATCHID'] when it is not, never under both. *)
Theorem attributesOf_keys (lay : Layout.t) (hasVertexColors useBatchIds deprecated : bool) :
  attributesOf lay hasVertexColors useBatchIds
               (if deprecated then "BATCHID" else "_BATCHID") !! "POSITION"
    = Some (Layout.positionBufferViewIndex lay) ∧
  attributesOf lay hasVertexColors useBatchIds
               (if deprecated then "BATCHID" else "_BATCHID") !! "NORMAL"
    = Some (Layout.normalBufferViewIndex lay) ∧
  attributesOf lay hasVertexColors useBatchIds
               (if deprecated then "BATCHID" else "_BATCHID") !! "TEXCOORD_0"
    = Some (Layout.uvBufferViewIndex lay) ∧
  attributesOf lay hasVertexColors useBatchIds
               (if deprecated then "BATCHID" else "_BATCHID") !! "COLOR_0"
    = (if hasVertexColors then Some (Layout.vertexColorBufferViewIndex lay) else None) ∧
  attributesOf lay hasVertexColors useBatchIds
               (if deprecated then "BATCHID" else "_BATCHID") !! "BATCHID"
    = (if useBatchIds && deprecated
       then Some (Layout.batchIdBufferViewIndex lay) else None) ∧
  attributesOf lay hasVertexColors useBatchIds
               (if deprecated then "BATCHID" else "_BATCHID") !! "_BATCHID"
    = (if useBatchIds && negb deprecated
       then Some (Layout.batchIdBufferViewIndex lay) else None) ∧
  size (attributesOf lay hasVertexColors useBatchIds
                     (if deprecated then "BATCHID" else "_BATCHID"))
    = 3 + (if hasVertexColors then 1 else 0) + (if useBatchIds then 1 else 0).
Proof. by destruct hasVertexColors, useBatchIds, deprecated. Qed.

(** X16.  The step of lines 176-203 keeps the images, textures and
    samplers in step: from arrays that are all [undefined], or that
    hold the one default sampler and a texture on sampler 0 for every
    image, it yields such arrays again; a texture adds exactly one image
    and one texture, a flat color adds none, and no second sampler is
    ever made. *)
Theorem baseColorStep_keeps_one_sampler (st : ViewsState.t) (baseColor : BaseColor) :
  textures_ok st →
  ∃ factor texture transparent images samplers textures,
    baseColorStep st baseColor
      = Return (factor, texture, transparent, images, samplers, textures) ∧
    textures_ok (ViewsState.mk (ViewsState.indexAccessors st) (ViewsState.materials st)
                   (ViewsState.primitives st) images samplers textures texture) ∧
    length (default [] images)
      = length (default [] (ViewsState.images st))
        + (match baseColor with TextureUri _ => 1 | Rgba _ => 0 end) ∧
    length (default [] textures) = length (default [] images) ∧
    length (default [] samplers) ≤ 1.
Proof.
  intros Hok. destruct baseColor as [uri | color].
  - destruct (baseColorStep_texture st uri Hok)
      as (images & samplers & textures & Hstep & Himg & Hsam & Htex & Hok').
    eexists _, _, _, _, _, _. split; [exact Hstep|]. split; [exact Hok'|].
    subst. cbn [default from_option id]. rewrite !length_app. cbn [length].
    split; [done|]. split; [|done].
    destruct Hok as [(-> & _ & ->) | (imgs & -> & _ & ->)]; cbn [default from_option id].
    + done.
    + by rewrite length_fmap, length_seq.
  - eexists _, _, _, _, _, _. split; [reflexivity|].
    destruct Hok as [(Hi & Hs & Ht) | (imgs & Hi & Hs & Ht)].
    + split; [left; by rewrite Hi, Hs, Ht|]. rewrite Hi, Hs, Ht. cbn. lia.
    + split; [right; exists imgs; by rewrite Hi, Hs, Ht|]. rewrite Hi, Hs, Ht.
      cbn [default from_option id length]. rewrite length_fmap, length_seq. lia.
Qed.

Lemma baseColorStep_keeps_one_sampler_witness :
  ∃ factor texture transparent images samplers textures,
    baseColorStep ViewsState.init (TextureUri "data/checker.png")
      = Return (factor, texture, transparent, images, samplers, textures) ∧
    textures_ok (ViewsState.mk (ViewsState.indexAccessors ViewsState.init)
                   (ViewsState.materials ViewsState.init)
                   (ViewsState.primitives ViewsState.init) images samplers textures
                   texture) ∧
    length (default [] images)
      = length (default [] (ViewsState.images ViewsState.init)) + 1 ∧
    length (default [] textures) = length (default [] images) ∧
    length (default [] samplers) ≤ 1.
Proof.
  apply (baseColorStep_keeps_one_sampler ViewsState.init (TextureUri "data/checker.png")).
  left. repeat split; reflexivity.
Defined.


(** X18.  For a view whose range lies inside the index array, the
    index accessor of lines 165-174 has the count of the view, the index
    offset of the view times two bytes as its byte offset, and as its
    extrema the least and the greatest index of the view, indices
    outside the view playing no part. *)
Theorem indexAccessorOf_view_bounds (indices : list Number) (view : View.t)
    (lay : Layout.t) :
  (∀ k, View.indexOffset view ≤ k < View.indexOffset view + View.indexCount view →
        array_get indices k ≠ NaN) →
  ∃ indicesMinMax,
    getMinMax indices 1 (Some (View.indexOffset view)) (Some (View.indexCount view))
      = Some indicesMinMax ∧
    Accessor.count (indexAccessorOf lay view indicesMinMax) = View.indexCount view ∧
    Accessor.byteOffset (indexAccessorOf lay view indicesMinMax)
      = 2 * View.indexOffset view ∧
    Accessor.bufferView (indexAccessorOf lay view indicesMinMax)
      = Layout.indexBufferViewIndex lay ∧
    length (Accessor.min (indexAccessorOf lay view indicesMinMax)) = 1 ∧
    length (Accessor.max (indexAccessorOf lay view indicesMinMax)) = 1 ∧
    is_minimum (array_get (Accessor.min (indexAccessorOf lay view indicesMinMax)) 0)
               (viewIndices indices view) ∧
    is_maximum (array_get (Accessor.max (indexAccessorOf lay view indicesMinMax)) 0)
               (viewIndices indices view).
Proof.
  intros Hnum.
  destruct (indexAccessorOf_scoped indices view lay Hnum)
    as (mm & Hmm & Hcount & Hoff & Hmin & Hmax).
  destruct (getMinMax_some_lengths indices 1 (Some (View.indexOffset view))
              (Some (View.indexCount view))) as (mm' & Hmm' & Hl1 & Hl2); [lia|].
  rewrite Hmm in Hmm'. injection Hmm' as <-.
  exists mm. repeat (split; [done|]). done.
Qed.

Lemma indexAccessorOf_view_bounds_witness :
  ∃ indicesMinMax,
    getMinMax (Mesh.indices quad) 1 (Some 3) (Some 3) = Some indicesMinMax ∧
    Accessor.count (indexAccessorOf (layoutOf (Encoded.mk (MinMax.mk [] []) []
        (MinMax.mk [] []) [] (MinMax.mk [] []) [] None [] None [] []) false true)
      (View.mk checker 3 3) indicesMinMax) = 3 ∧
    Accessor.byteOffset (indexAccessorOf (layoutOf (Encoded.mk (MinMax.mk [] []) []
        (MinMax.mk [] []) [] (MinMax.mk [] []) [] None [] None [] []) false true)
      (View.mk checker 3 3) indicesMinMax) = 2 * 3 ∧
    Accessor.bufferView (indexAccessorOf (layoutOf (Encoded.mk (MinMax.mk [] []) []
        (MinMax.mk [] []) [] (MinMax.mk [] []) [] None [] None [] []) false true)
      (View.mk checker 3 3) indicesMinMax) = 4 ∧
    length (Accessor.min (indexAccessorOf (layoutOf (Encoded.mk (MinMax.mk [] []) []
        (MinMax.mk [] []) [] (MinMax.mk [] []) [] None [] None [] []) false true)
      (View.mk checker 3 3) indicesMinMax)) = 1 ∧
    length (Accessor.max (indexAccessorOf (layoutOf (Encoded.mk (MinMax.mk [] []) []
        (MinMax.mk [] []) [] (MinMax.mk [] []) [] None [] None [] []) false true)
      (View.mk checker 3 3) indicesMinMax)) = 1 ∧
    is_minimum (array_get (Accessor.min (indexAccessorOf (layoutOf (Encoded.mk
        (MinMax.mk [] []) [] (MinMax.mk [] []) [] (MinMax.mk [] []) [] None [] None [] [])
        false true) (View.mk checker 3 3) indicesMinMax)) 0)
      (viewIndices (Mesh.indices quad) (View.mk checker 3 3)) ∧
    is_maximum (array_get (Accessor.max (indexAccessorOf (layoutOf (Encoded.mk
        (MinMax.mk [] []) [] (MinMax.mk [] []) [] (MinMax.mk [] []) [] None [] None [] [])
        false true) (View.mk checker 3 3) indicesMinMax)) 0)
      (viewIndices (Mesh.indices quad) (View.mk checker 3 3)).
Proof.
  apply (indexAccessorOf_view_bounds (Mesh.indices quad) (View.mk checker 3 3)).
  intros k Hk. cbn in Hk. do 6 (destruct k as [|k]; [discriminate|]). lia.
Defined.

(** X19.  With no position to write, the encoding of lines 75-123 goes
    through exactly when every integer it writes is in the range of its
    type: the vertex colors (if the mesh has any) within 0..255, the
    batch ids (if they are on) and the indices within 0..65535, [NaN]
    passing both tests.  Otherwise a [RangeError] is thrown, by the
    write of line 103, 115 or 122. *)
Theorem encodeAttributes_integer_range (mesh : Mesh.t)
    (hasVertexColors useBatchIds : bool) :
  Mesh.positions mesh = [] →
  ((∃ enc, encodeAttributes mesh hasVertexColors useBatchIds = Return enc)
   ↔ (hasVertexColors = true →
      Forall (fun value => out_of_range 0 255 value = false) (Mesh.vertexColors mesh)) ∧
     (useBatchIds = true →
      Forall (fun value => out_of_range 0 65535 value = false) (Mesh.batchIds mesh)) ∧
     Forall (fun value => out_of_range 0 65535 value = false) (Mesh.indices mesh)) ∧
  (∀ line e,
     encodeAttributes mesh hasVertexColors useBatchIds = Throw line e →
     (line = 103 ∨ line = 115 ∨ line = 122) ∧
     ∃ value, e = RangeError "ERR_OUT_OF_RANGE" value) ∧
  encodeAttributes mesh hasVertexColors useBatchIds ≠ Diverge.
Proof.
  intros Hpos.
  pose proof (encodeAttributes_no_position mesh hasVertexColors useBatchIds Hpos) as Henc.
  pose proof (integerWriteError_None mesh hasVertexColors useBatchIds) as Hnone.
  pose proof (integerWriteError_line mesh hasVertexColors useBatchIds) as Hline.
  destruct (integerWriteError mesh hasVertexColors useBatchIds) as [[line value]|].
  - rewrite Henc. split; [split|split].
    + by intros (enc & [=]).
    + intros Hall. by apply Hnone in Hall.
    + intros line' e [= <- <-]. split; [by eapply Hline | by eexists].
    + done.
  - destruct Henc as (enc & -> & _). split; [split|split].
    + intros _. by apply Hnone.
    + intros _. by exists enc.
    + by intros line e [=].
    + done.
Qed.

Lemma encodeAttributes_integer_range_witness :
  ((∃ enc, encodeAttributes (withoutPositions whiteQuad) true true = Return enc)
   ↔ (true = true →
      Forall (fun value => out_of_range 0 255 value = false)
             (Mesh.vertexColors (withoutPositions whiteQuad))) ∧
     (true = true →
      Forall (fun value => out_of_range 0 65535 value = false)
             (Mesh.batchIds (withoutPositions whiteQuad))) ∧
     Forall (fun value => out_of_range 0 65535 value = false)
            (Mesh.indices (withoutPositions whiteQuad))) ∧
  (∀ line e,
     encodeAttributes (withoutPositions whiteQuad) true true = Throw line e →
     (line = 103 ∨ line = 115 ∨ line = 122) ∧
     ∃ value, e = RangeError "ERR_OUT_OF_RANGE" value) ∧
  encodeAttributes (withoutPositions whiteQuad) true true ≠ Diverge.
Proof.
  apply (encodeAttributes_integer_range (withoutPositions whiteQuad) true true).
  reflexivity.
Defined.

(** X20.  [getMinMax] does not write to the array it measures, nor to
    any other object that it finds: run on a store, it returns what
    [getMinMax] returns on the elements of the array (or loops forever
    where that does), and the store it leaves is the one it found,
    followed by the two arrays [min] and [max] of lines 400-401. *)
Theorem getMinMax_leaves_array (store : Store.t) (array : Store.loc)
    (elements : list Number) (components : nat) (start length : option nat) :
  store !! array = Some (Store.NumberArray elements) →
  ∃ min max,
    Store.getMinMax array components start length store
    = (store ++ [Store.NumberArray min; Store.NumberArray max],
       call_getMinMax (getMinMax elements components start length)) ∧
    (∀ mm, getMinMax elements components start length = Some mm →
           min = MinMax.min mm ∧ max = MinMax.max mm).
Proof. apply getMinMax_run. Qed.

Lemma getMinMax_leaves_array_witness :
  ∃ min max,
    Store.getMinMax 6 1 (Some 3) (Some 3) (storeOf quad)
    = (storeOf quad ++ [Store.NumberArray min; Store.NumberArray max],
       call_getMinMax (getMinMax (Mesh.indices quad) 1 (Some 3) (Some 3))) ∧
    (∀ mm, getMinMax (Mesh.indices quad) 1 (Some 3) (Some 3) = Some mm →
           min = MinMax.min mm ∧ max = MinMax.max mm).
Proof.
  apply (getMinMax_leaves_array (storeOf quad) 6 (Mesh.indices quad) 1 (Some 3) (Some 3)).
  reflexivity.
Defined.
